(** * jobint-backend: the matching and application pipeline

    A shallow embedding of the two matching services (the keyword
    version and the AI-backed version that the routes and the daily job
    import), of the review routes, of [applyToJob] and of the
    application queue worker, together with the properties of the
    specification that concern them.

    Conventions of the embedding.
    - JavaScript strings are modelled as [string] (8-bit characters);
      [toLowerCase] lowers the ASCII letters.
    - JavaScript numbers are modelled exactly: integers as [Z], quotients
      as [Q].  Every number the keyword scorer adds up is an integer; the
      only quotient is [matched / total * 40] in [matchSkills].
    - SQL NULL / JavaScript [null] is [None]; an SQL table is the list of
      its rows.  The tables of [DB] are those of [database/schema.sql];
      an identifier is a natural number.
    - [try]/[catch] is an error monad over the database state. *)

From Stdlib Require Import ZArith QArith Qround List String Ascii Bool Lia.
From Stdlib Require Import DecimalString Sorted Lqa.
Import ListNotations.

Open Scope string_scope.
Open Scope Z_scope.

(* ================================================================== *)
(** ** JavaScript values used by the services *)

Module JS.

(** [c.toLowerCase()] for one character: [A]-[Z] move to [a]-[z]. *)
Definition lowerChar (c : ascii) : ascii :=
  let n := nat_of_ascii c in
  if ((65 <=? n) && (n <=? 90))%nat then ascii_of_nat (n + 32) else c.

(** [s.toLowerCase()]. *)
Fixpoint toLowerCase (s : string) : string :=
  match s with
  | EmptyString => EmptyString
  | String c r => String (lowerChar c) (toLowerCase r)
  end.

(** [t.startsWith(s)]. *)
Fixpoint startsWith (t s : string) {struct s} : bool :=
  match s, t with
  | EmptyString, _ => true
  | String _ _, EmptyString => false
  | String a s', String b t' => Ascii.eqb a b && startsWith t' s'
  end.

(** [t.includes(s)]: [s] occurs in [t] at some position. *)
Fixpoint includes (t s : string) : bool :=
  startsWith t s ||
  match t with
  | EmptyString => false
  | String _ t' => includes t' s
  end.

(** Truthiness of a string: only the empty string is falsy. *)
Definition truthy (s : string) : bool :=
  match s with EmptyString => false | String _ _ => true end.

(** Truthiness of a nullable string column. *)
Definition truthyOpt (o : option string) : bool :=
  match o with Some s => truthy s | None => false end.

(** Truthiness of a nullable integer column: [null] and [0] are falsy. *)
Definition truthyNum (o : option Z) : bool :=
  match o with Some z => negb (z =? 0) | None => false end.

(** [a || b] where [a] is a nullable string and [b] a string. *)
Definition orElse (a : option string) (b : string) : string :=
  match a with
  | Some s => if truthy s then s else b
  | None => b
  end.

(** [a === b] on nullable strings ([null === null] holds). *)
Definition strictEq (a b : option string) : bool :=
  match a, b with
  | Some x, Some y => String.eqb x y
  | None, None => true
  | _, _ => false
  end.

(** [Math.round(q)]: the nearest integer, halves rounded up. *)
Definition Math_round (q : Q) : Z := Qfloor (q + (1 # 2)).

(** [`${n}`] for an integer [n]. *)
Definition numToString (n : Z) : string :=
  NilEmpty.string_of_int (Z.to_int n).

(** [xs.some(p)]. *)
Definition some {A} (p : A -> bool) (xs : list A) : bool := existsb p xs.

End JS.

(* ================================================================== *)
(** ** Rows of the tables ([database/schema.sql]) *)

(** A JSON column as [JSON.parse] sees it: absent, text that does not
    parse (the call throws), or an array of strings. *)
Inductive JsonCol :=
| JNull
| JMalformed
| JArray (items : list string).

Record UserProfile := mkProfile {
  p_user_id : nat;
  p_skills : JsonCol;
  p_desired_job_titles : JsonCol;
  p_remote_preference : option string;
  p_salary_min : option Z
}.

Record JobListing := mkJob {
  j_id : nat;
  j_title : string;
  j_company : string;
  j_location : option string;
  j_description : option string;
  j_salary_range : option string;
  j_remote_type : option string;
  j_job_type : option string;
  j_is_active : bool;
  j_scraped_at : Z;
  j_source : string      (* 'linkedin', 'indeed', 'glassdoor', 'angellist' *)
}.

(** One element of [match_reasons]: [{type, description, weight}]. *)
Record Reason := mkReason {
  r_type : string;
  r_description : string;
  r_weight : Z
}.

Record Score := mkScore {
  total : Z;
  reasons : list Reason
}.

(* ================================================================== *)
(** ** The keyword scoring engine ([MatchingService], keyword version) *)

Module Matching.
Import JS.

(** [matchSkills(userSkills, jobText)]. *)
Definition matchedSkills (userSkills : list string) (jobText : string)
  : list string :=
  let jobTextLower := toLowerCase jobText in
  filter (fun skill => includes jobTextLower (toLowerCase skill)) userSkills.

Definition matchSkills (userSkills : list string) (jobText : string) : Z :=
  if (List.length userSkills =? 0)%nat || negb (truthy jobText) then 0
  else
    let matchPercentage :=
      (inject_Z (Z.of_nat (List.length (matchedSkills userSkills jobText)))
       / inject_Z (Z.of_nat (List.length userSkills)))%Q in
    Math_round (matchPercentage * 40)%Q.

(** [matchTitle(desiredTitles, jobTitle)]. *)
Definition matchTitle (desiredTitles : list string) (jobTitle : string) : Z :=
  if (List.length desiredTitles =? 0)%nat || negb (truthy jobTitle) then 5
  else
    let jobTitleLower := toLowerCase jobTitle in
    let hasMatch :=
      some (fun title =>
              includes jobTitleLower (toLowerCase title)
              || includes (toLowerCase title) jobTitleLower)
           desiredTitles in
    if hasMatch then 25 else 5.

(** [matchLocation(profile, job)]. *)
Definition matchLocation (profile : UserProfile) (job : JobListing) : Z :=
  let remotePreference := p_remote_preference profile in
  let jobRemoteType := j_remote_type job in
  if strictEq remotePreference (Some "any") then 20
  else if strictEq remotePreference jobRemoteType then 20
  else if strictEq remotePreference (Some "hybrid")
          && (strictEq jobRemoteType (Some "remote")
              || strictEq jobRemoteType (Some "onsite"))
  then 10
  else 5.

(** The token matched by
    [/\$?(\d{1,3}(?:,?\d{3})*(?:\.\d+)?)/]: the capture group always
    starts at the first digit of the string. *)
Definition isDigit (c : ascii) : bool :=
  let n := nat_of_ascii c in ((48 <=? n) && (n <=? 57))%nat.

Definition digitVal (c : ascii) : Z := Z.of_nat (nat_of_ascii c) - 48.

(** Drop characters up to the first digit. *)
Fixpoint skipToDigit (s : string) : string :=
  match s with
  | EmptyString => EmptyString
  | String c r => if isDigit c then s else skipToDigit r
  end.

(** [\d{1,3}], greedy: up to [n] leading digits, and the rest. *)
Fixpoint takeDigitsUpTo (n : nat) (s : string) : list ascii * string :=
  match n, s with
  | S n', String c r =>
      if isDigit c then
        let '(ds, rest) := takeDigitsUpTo n' r in (c :: ds, rest)
      else ([], s)
  | _, _ => ([], s)
  end.

(** [\d{3}]: exactly three digits, or no match. *)
Definition takeThree (s : string) : option (list ascii * string) :=
  match s with
  | String a (String b (String c r)) =>
      if isDigit a && isDigit b && isDigit c then Some ([a; b; c], r)
      else None
  | _ => None
  end.

(** One iteration of [(?:,?\d{3})]: the comma is tried first, then the
    group without it. *)
Definition takeGroup (s : string) : option (list ascii * string) :=
  match s with
  | String "," r =>
      match takeThree r with
      | Some x => Some x
      | None => takeThree s
      end
  | _ => takeThree s
  end.

(** [(?:,?\d{3})*], greedy.  Each iteration consumes at least three
    characters, so the length of the string bounds the iterations. *)
Fixpoint takeGroups (fuel : nat) (s : string) : list ascii * string :=
  match fuel with
  | O => ([], s)
  | S f =>
      match takeGroup s with
      | Some (ds, r) => let '(ds', r') := takeGroups f r in ((ds ++ ds')%list, r')
      | None => ([], s)
      end
  end.

(** [\d+], greedy. *)
Fixpoint takeDigits (s : string) : list ascii * string :=
  match s with
  | String c r =>
      if isDigit c then let '(ds, rest) := takeDigits r in (c :: ds, rest)
      else ([], s)
  | EmptyString => ([], s)
  end.

(** [(?:\.\d+)?]: the digits of the fraction, empty when the group
    does not take part. *)
Definition takeFraction (s : string) : list ascii :=
  match s with
  | String "." r => fst (takeDigits r)
  | _ => []
  end.

(** The digits of [match[1].replace(/,/g, '')], integer part and
    fraction; [None] when the regular expression does not match. *)
Definition salaryToken (s : string) : option (list ascii * list ascii) :=
  match skipToDigit s with
  | EmptyString => None
  | t =>
      let '(d1, r1) := takeDigitsUpTo 3 t in
      let '(d2, r2) := takeGroups (String.length r1) r1 in
      Some ((d1 ++ d2)%list, takeFraction r2)
  end.

Definition digitsToZ (ds : list ascii) : Z :=
  fold_left (fun acc c => 10 * acc + digitVal c) ds 0.

(** [parseFloat] of a string of digits with an optional fraction. *)
Definition parseFloat (int frac : list ascii) : Q :=
  (inject_Z (digitsToZ (int ++ frac)%list)
   / inject_Z (10 ^ Z.of_nat (List.length frac)))%Q.

(** [parseSalary(salaryString)]. *)
Definition parseSalary (salaryString : option string) : Q :=
  match salaryString with
  | None => 0%Q
  | Some s =>
      if negb (truthy s) then 0%Q
      else match salaryToken s with
           | Some (int, frac) => parseFloat int frac
           | None => 0%Q
           end
  end.

(** [matchSalary(profile, salaryRange)]. *)
Definition matchSalary (profile : UserProfile) (salaryRange : option string)
  : Z :=
  if negb (truthyNum (p_salary_min profile)) || negb (truthyOpt salaryRange)
  then 5
  else
    let salaryMatch := parseSalary salaryRange in
    match p_salary_min profile with
    | Some floor =>
        if Qle_bool (inject_Z floor) salaryMatch then 10 else 0
    | None => 5
    end.

(** [matchJobType(profile, jobType)]. *)
Definition matchJobType (profile : UserProfile) (jobType : option string)
  : Z :=
  if negb (truthyOpt jobType) then 3
  else if strictEq jobType (Some "full_time")
          || strictEq jobType (Some "full-time") then 5
  else 3.

(** A reason is pushed only for a factor above zero. *)
Definition pushReason (kind label : string) (max : Z) (score : Z)
           (reasons : list Reason) : list Reason :=
  if 0 <? score then
    (reasons ++ [mkReason kind
                   (label ++ numToString score ++ "/" ++ numToString max
                      ++ " points")
                   score])%list
  else reasons.

(** [job.description || job.title], the text searched for skills. *)
Definition jobText (job : JobListing) : string :=
  orElse (j_description job) (j_title job).

(** [calculateMatchScore(profile, skills, desiredTitles, job)]. *)
Definition calculateMatchScore (profile : UserProfile)
           (skills desiredTitles : list string) (job : JobListing) : Score :=
  let reasons := [] in
  let totalScore := 0 in
  let skillScore := matchSkills skills (jobText job) in
  let totalScore := totalScore + skillScore in
  let reasons := pushReason "skill" "Skills match: " 40 skillScore reasons in
  let titleScore := matchTitle desiredTitles (j_title job) in
  let totalScore := totalScore + titleScore in
  let reasons := pushReason "title" "Title match: " 25 titleScore reasons in
  let locationScore := matchLocation profile job in
  let totalScore := totalScore + locationScore in
  let reasons :=
    pushReason "location" "Location match: " 20 locationScore reasons in
  let salaryScore := matchSalary profile (j_salary_range job) in
  let totalScore := totalScore + salaryScore in
  let reasons := pushReason "salary" "Salary match: " 10 salaryScore reasons in
  let typeScore := matchJobType profile (j_job_type job) in
  let totalScore := totalScore + typeScore in
  let reasons := pushReason "type" "Job type match: " 5 typeScore reasons in
  {| total := Z.min 100 (Math_round (inject_Z totalScore));
     reasons := reasons |}.

End Matching.

(* ================================================================== *)
(** ** The database and the monad of the asynchronous services *)

Record MatchRow := mkMatch {
  m_id : nat;
  m_user_id : nat;
  m_job_id : nat;
  m_match_score : Z;
  m_match_reasons : list Reason;
  m_status : string;
  m_reviewed : bool;
  m_approved : bool
}.

(** [application_queue] as [schema.sql] declares it (lines 245-262):
    the reference to the match is the column [match_id].  The table has
    no column [job_match_id], the name that the jobs route,
    [queueApplication] and [applyToJob] give it. *)
Record QueueRow := mkQueue {
  q_id : nat;
  q_user_id : option nat;
  q_job_id : option nat;
  q_match_id : option nat;
  q_status : string;
  q_retry_count : Z;
  q_error_message : option string;
  q_processed : bool
}.

Record UserRow := mkUser {
  u_id : nat;
  u_tracking_token : string
}.

Record Notification := mkNotification {
  n_user_id : nat;
  n_type : string;
  n_entity_id : nat
}.

Record DB := mkDB {
  users : list UserRow;
  user_profiles : list UserProfile;
  job_listings : list JobListing;
  job_matches : list MatchRow;
  application_queue : list QueueRow;
  notifications : list Notification;
  next_id : nat;        (* source of [uuid_generate_v4()] *)
  now : Z               (* [NOW()], seconds *)
}.

Definition set_job_matches (ms : list MatchRow) (d : DB) : DB :=
  mkDB (users d) (user_profiles d) (job_listings d) ms (application_queue d)
       (notifications d) (next_id d) (now d).

Definition set_application_queue (qs : list QueueRow) (d : DB) : DB :=
  mkDB (users d) (user_profiles d) (job_listings d) (job_matches d) qs
       (notifications d) (next_id d) (now d).

Definition set_notifications (ns : list Notification) (d : DB) : DB :=
  mkDB (users d) (user_profiles d) (job_listings d) (job_matches d)
       (application_queue d) ns (next_id d) (now d).

Definition bump_id (d : DB) : DB :=
  mkDB (users d) (user_profiles d) (job_listings d) (job_matches d)
       (application_queue d) (notifications d) (S (next_id d)) (now d).

(** What lies outside the process: whether the [k]-th statement sent to
    the database fails, what the [k]-th chat completion answers to a
    prompt, and how the [k]-th run of the browser automation ends. *)
Inductive ChatReply :=
| ChatError
| ChatJson (matched : option (list string)) (score : option Q).

(** What [applicationService.applyToJob] resolves to:
    [{success: true, applicationId}] or [{success: false, error}].  The
    same two shapes describe a run of the browser automation inside it:
    the form was submitted and the row of [applications] got this id (a
    table outside the model), or the run ended with this error. *)
Inductive ApplyResult :=
| ApplySuccess (applicationId : nat)
| ApplyFailure (error : string).


Record World := mkWorld {
  db_down : nat -> bool;
  chat : nat -> string -> ChatReply;
  apply_outcome : nat -> ApplyResult   (* of the [k]-th automation run *)
}.

Record State := mkState {
  db : DB;
  issued : nat;         (* statements sent so far *)
  chats : nat;          (* chat completions requested so far *)
  applies : nat;        (* automation runs started so far *)
  bull_ids : nat        (* job ids handed out by the queue so far *)
}.

Definition set_db (d : DB) (s : State) : State :=
  mkState d (issued s) (chats s) (applies s) (bull_ids s).

Inductive Result (A : Type) :=
| Ok (a : A)
| Throw (e : string).
Arguments Ok {A} a.
Arguments Throw {A} e.

Definition M (A : Type) : Type := World -> State -> Result A * State.

Definition ret {A} (a : A) : M A := fun _ s => (Ok a, s).

Definition throw {A} (e : string) : M A := fun _ s => (Throw e, s).

Definition bind {A B} (m : M A) (k : A -> M B) : M B :=
  fun w s =>
    match m w s with
    | (Ok a, s') => k a w s'
    | (Throw e, s') => (Throw e, s')
    end.

(** [try { m } catch (e) { h(e) }]: writes made before the throw stay. *)
Definition tryCatch {A} (m : M A) (h : string -> M A) : M A :=
  fun w s =>
    match m w s with
    | (Ok a, s') => (Ok a, s')
    | (Throw e, s') => h e w s'
    end.

Declare Scope js_scope.
Delimit Scope js_scope with js.
Notation "x <- m ;; k" := (bind m (fun x => k))
  (at level 61, m at next level, right associativity) : js_scope.
Notation "m ;;; k" := (bind m (fun _ => k))
  (at level 61, right associativity) : js_scope.
Open Scope js_scope.

(** [await query(stmt)]: the statement runs on the database, unless the
    database is unreachable for it, in which case [query] throws and the
    tables are untouched. *)
Definition query {A} (stmt : DB -> A * DB) : M A :=
  fun w s =>
    if db_down w (issued s) then
      (Throw "database error",
       mkState (db s) (S (issued s)) (chats s) (applies s) (bull_ids s))
    else
      let '(a, d) := stmt (db s) in
      (Ok a, mkState d (S (issued s)) (chats s) (applies s) (bull_ids s)).

(** A statement that names a column the table does not have: the server
    refuses it with its message whenever it receives it, and no table
    changes. *)
Definition refused {A} (message : string) : M A :=
  fun w s =>
    (Throw (if db_down w (issued s) then "database error" else message),
     mkState (db s) (S (issued s)) (chats s) (applies s) (bull_ids s)).

(** The server's message for [application_queue.job_match_id]. *)
Definition no_job_match_id : string :=
  "column job_match_id of relation application_queue does not exist".

(** A world in which every statement reaches the database. *)
Definition db_up (w : World) : Prop := forall k, db_down w k = false.

(* ================================================================== *)
(** ** The SQL statements of the matching service *)

Module Sql.

(** [SELECT * FROM user_profiles WHERE user_id = $1]. *)
Definition select_profile (userId : nat) (d : DB) : list UserProfile * DB :=
  (filter (fun p => (p_user_id p =? userId)%nat) (user_profiles d), d).

Definition same_pair (userId jobId : nat) (m : MatchRow) : bool :=
  ((m_user_id m =? userId) && (m_job_id m =? jobId))%nat.

(** [SELECT job_id FROM job_matches WHERE user_id = $1]. *)
Definition matched_job_ids (userId : nat) (d : DB) : list nat :=
  map m_job_id
      (filter (fun m => (m_user_id m =? userId)%nat) (job_matches d)).

(** [ORDER BY scraped_at DESC], by insertion. *)
Fixpoint insert_desc (j : JobListing) (l : list JobListing)
  : list JobListing :=
  match l with
  | [] => [j]
  | x :: r =>
      if j_scraped_at x <=? j_scraped_at j then j :: l
      else x :: insert_desc j r
  end.

Definition order_by_scraped_desc (l : list JobListing) : list JobListing :=
  fold_right insert_desc [] l.

Definition thirty_days : Z := 30 * 86400.

(** The listing query of [matchJobsForUser]: active, scraped within
    thirty days, not yet matched for the user, newest first, at most a
    hundred. *)
Definition select_unmatched_jobs (userId : nat) (d : DB)
  : list JobListing * DB :=
  (firstn 100
     (order_by_scraped_desc
        (filter (fun j =>
                   j_is_active j
                   && (now d - thirty_days <? j_scraped_at j)
                   && negb (existsb (Nat.eqb (j_id j))
                                    (matched_job_ids userId d)))
                (job_listings d))),
   d).

(** [INSERT INTO job_matches (user_id, job_id, match_score,
    match_reasons) VALUES ($1, $2, $3, $4) ON CONFLICT (user_id, job_id)
    DO NOTHING]; the result is the row count.  The other columns take
    their defaults. *)
Definition insert_job_match (userId jobId : nat) (score : Z)
           (reasons : list Reason) (d : DB) : nat * DB :=
  if existsb (same_pair userId jobId) (job_matches d) then (0%nat, d)
  else
    (1%nat,
     bump_id
       (set_job_matches
          (job_matches d ++
             [mkMatch (next_id d) userId jobId score reasons
                      "pending" false false])%list
          d)).

(** [UPDATE job_matches SET reviewed = TRUE, approved = $1
    WHERE id = $2 AND user_id = $3 RETURNING *]. *)
Definition review_row (approved : bool) (m : MatchRow) : MatchRow :=
  mkMatch (m_id m) (m_user_id m) (m_job_id m) (m_match_score m)
          (m_match_reasons m) (m_status m) true approved.

Definition targets (matchId userId : nat) (m : MatchRow) : bool :=
  ((m_id m =? matchId) && (m_user_id m =? userId))%nat.

Definition update_review (approved : bool) (matchId userId : nat) (d : DB)
  : list MatchRow * DB :=
  (map (review_row approved)
       (filter (targets matchId userId) (job_matches d)),
   set_job_matches
     (map (fun m => if targets matchId userId m
                    then review_row approved m else m)
          (job_matches d))
     d).

End Sql.

(* ================================================================== *)
(** ** [MatchingService]: the asynchronous methods *)

Record MatchSummary := mkSummary {
  s_jobId : nat;
  s_title : string;
  s_company : string;
  s_location : option string;
  s_match_score : Z;
  s_match_reasons : list Reason
}.

(** The strings of a JSON column that parses; none for [null]. *)
Definition jsonItems (col : JsonCol) : list string :=
  match col with
  | JArray xs => xs
  | JNull | JMalformed => []
  end.

(** The key of the constraint [UNIQUE(user_id, job_id)] on [job_matches],
    and the constraint itself. *)
Definition pair_of (m : MatchRow) : nat * nat := (m_user_id m, m_job_id m).

Definition pairs_unique (d : DB) : Prop :=
  NoDup (map pair_of (job_matches d)).

Module MatchingService.

(** [col ? JSON.parse(col) : []]. *)
Definition parseOrEmpty (col : JsonCol) : M (list string) :=
  match col with
  | JMalformed => throw "Unexpected token in JSON"
  | JNull | JArray _ => ret (jsonItems col)
  end.

(** [calculateMatchScore] is declared [async]; its body awaits nothing. *)
Definition calculateMatchScore (profile : UserProfile)
           (skills desiredTitles : list string) (job : JobListing)
  : M Score :=
  ret (Matching.calculateMatchScore profile skills desiredTitles job).

Definition summary (job : JobListing) (score : Score) : MatchSummary :=
  mkSummary (j_id job) (j_title job) (j_company job) (j_location job)
            (total score) (reasons score).

(** The body of [for (const job of jobs)], with [break] on the limit. *)
Fixpoint matchLoop (userId : nat) (limit : Z) (profile : UserProfile)
         (skills desiredTitles : list string) (jobs : list JobListing)
         (matches : list MatchSummary) : M (list MatchSummary) :=
  match jobs with
  | [] => ret matches
  | job :: rest =>
      score <- calculateMatchScore profile skills desiredTitles job ;;
      matches' <-
        (if 60 <=? total score then
           tryCatch
             (query (Sql.insert_job_match userId (j_id job) (total score)
                                          (reasons score)) ;;;
              ret (matches ++ [summary job score])%list)
             (fun dbError => ret matches)
         else ret matches) ;;
      if limit <=? Z.of_nat (List.length matches') then ret matches'
      else matchLoop userId limit profile skills desiredTitles rest matches'
  end.

(** The [try] block of [matchJobsForUser]. *)
Definition matchJobsBody (userId : nat) (limit : Z)
  : M (list MatchSummary) :=
  profileRows <- query (Sql.select_profile userId) ;;
  match profileRows with
  | [] => ret []
  | profile :: _ =>
      skills <- parseOrEmpty (p_skills profile) ;;
      desiredTitles <- parseOrEmpty (p_desired_job_titles profile) ;;
      jobs <- query (Sql.select_unmatched_jobs userId) ;;
      match jobs with
      | [] => ret []
      | _ => matchLoop userId limit profile skills desiredTitles jobs []
      end
  end.

(** [matchJobsForUser(userId, limit = 10)]. *)
Definition matchJobsForUser (userId : nat) (limit : Z)
  : M (list MatchSummary) :=
  tryCatch (matchJobsBody userId limit) (fun error => ret []).

(** [reviewMatch(userId, matchId, approved)]: the [catch] logs and
    throws the error again. *)
Definition reviewMatch (userId matchId : nat) (approved : bool)
  : M (option MatchRow) :=
  tryCatch
    (rows <- query (Sql.update_review approved matchId userId) ;;
     ret (hd_error rows))
    (fun error => throw error).

End MatchingService.

(* ================================================================== *)
(** ** The review routes *)

Inductive Response :=
| Json200 (message : string) (row : MatchRow)
| Error400 (error : string)
| Error404 (error : string)
| Error500 (error : string).

(** [PUT /api/jobs/matches/:matchId/review] (authenticated). *)
Module JobsRoute.

(** [INSERT INTO application_queue (job_match_id, status)
    VALUES ($1, 'pending')]: refused, the table has no such column. *)
Definition insert_queue (matchId : nat) : M nat :=
  refused no_job_match_id.

(** [approved] is [None] when the body's field is not a boolean. *)
Definition review (userId matchId : nat) (approved : option bool)
  : M Response :=
  tryCatch
    (match approved with
     | None => ret (Error400 "approved must be boolean")
     | Some approved =>
         found <- MatchingService.reviewMatch userId matchId approved ;;
         match found with
         | None => ret (Error404 "Match not found")
         | Some row =>
             (if approved then insert_queue matchId ;;; ret tt
              else ret tt) ;;;
             ret (Json200
                    (if approved
                     then "Match approved - queued for application"
                     else "Match rejected")
                    row)
         end
     end)
    (fun error => ret (Error500 "Failed to review match")).

End JobsRoute.

(** [PUT /api/guest/track/:token/review-match/:matchId]. *)
Module GuestRoute.

(** [SELECT id FROM users WHERE tracking_token = $1].  The column is
    of type UUID and a token stands for the text of one; for any other
    text the server refuses the comparison, which is a failing
    statement ([db_down]). *)
Definition select_user (token : string) (d : DB) : list UserRow * DB :=
  (filter (fun u => String.eqb (u_tracking_token u) token) (users d), d).

(** [UPDATE job_matches SET reviewed = TRUE, approved = $1, status = $2
    WHERE id = $3 AND user_id = $4 RETURNING *]. *)
Definition review_row (approved : bool) (status : string) (m : MatchRow)
  : MatchRow :=
  mkMatch (m_id m) (m_user_id m) (m_job_id m) (m_match_score m)
          (m_match_reasons m) status true approved.

Definition update_review (approved : bool) (status : string)
           (matchId userId : nat) (d : DB) : list MatchRow * DB :=
  (map (review_row approved status)
       (filter (Sql.targets matchId userId) (job_matches d)),
   set_job_matches
     (map (fun m => if Sql.targets matchId userId m
                    then review_row approved status m else m)
          (job_matches d))
     d).

(** [INSERT INTO application_queue (user_id, job_id, match_id, status)
    VALUES ($1, (SELECT job_id FROM job_matches WHERE id = $2), $2,
    'pending')]; [id] is the primary key of [job_matches], so the
    subquery yields at most one row. *)
Definition insert_queue (userId matchId : nat) (d : DB) : nat * DB :=
  let jobId :=
    option_map m_job_id
               (find (fun m => (m_id m =? matchId)%nat) (job_matches d)) in
  (1%nat,
   bump_id
     (set_application_queue
        (application_queue d ++
           [mkQueue (next_id d) (Some userId) jobId (Some matchId)
                    "pending" 0 None false])%list
        d)).

Definition review (token : string) (matchId : nat) (approved : option bool)
  : M Response :=
  tryCatch
    (match approved with
     | None => ret (Error400 "approved must be boolean")
     | Some approved =>
         userRows <- query (select_user token) ;;
         match userRows with
         | [] => ret (Error404 "Invalid tracking token")
         | user :: _ =>
             let userId := u_id user in
             updated <-
               query (update_review approved
                        (if approved then "approved" else "rejected")
                        matchId userId) ;;
             match updated with
             | [] => ret (Error404 "Match not found")
             | row :: _ =>
                 (if approved then query (insert_queue userId matchId) ;;; ret tt
                  else ret tt) ;;;
                 ret (Json200
                        (if approved
                         then "Match approved - application queued"
                         else "Match rejected")
                        row)
             end
         end
     end)
    (fun error => ret (Error500 "Failed to review match")).

(** The same request sent once per decision of a list, in order. *)
Fixpoint reviewAll (token : string) (matchId : nat) (decisions : list bool)
  : M (list Response) :=
  match decisions with
  | [] => ret []
  | approved :: rest =>
      response <- review token matchId (Some approved) ;;
      responses <- reviewAll token matchId rest ;;
      ret (response :: responses)
  end.

End GuestRoute.

(** The number of queue rows a request stands for: one when it approves
    and is answered with status 200, none otherwise. *)
Definition enqueued (approved : option bool) (response : Response) : nat :=
  match approved, response with
  | Some true, Json200 _ _ => 1
  | _, _ => 0
  end.

(** Two states of [application_queue] that differ at most in rows with
    the given id, whose id is kept. *)
Definition only_rows_of (jobId : nat) (before after : list QueueRow)
  : Prop :=
  exists f,
    (forall q, q_id (f q) = q_id q)
    /\ after = map (fun q => if (q_id q =? jobId)%nat then f q else q)
                   before.


(** The rows of [application_queue] that reference a match. *)
Definition queued_for (matchId : nat) (d : DB) : list QueueRow :=
  filter (fun q => match q_match_id q with
                   | Some m => (m =? matchId)%nat
                   | None => false
                   end)
         (application_queue d).

(* ================================================================== *)
(** ** [ApplicationService.applyToJob] ([services/guestApplication.js]) *)

Module ApplicationService.

(** [SELECT * FROM job_listings WHERE id = $1]. *)
Definition select_job (jobListingId : nat) (d : DB)
  : list JobListing * DB :=
  (filter (fun j => (j_id j =? jobListingId)%nat) (job_listings d), d).

(** [SELECT u.*, STRING_AGG(us.skill_name, ', ') as skills FROM users u
    LEFT JOIN user_skills us ON u.id = us.user_id WHERE u.id = $1
    GROUP BY u.id]: one row per user with the id; the skills only feed
    the automation. *)
Definition select_user (userId : nat) (d : DB) : list UserRow * DB :=
  (filter (fun u => (u_id u =? userId)%nat) (users d), d).

(** The cases of [switch (job.source)] that do not throw. *)
Definition supported (source : string) : bool :=
  String.eqb source "linkedin" || String.eqb source "indeed"
  || String.eqb source "angellist".

(** The browser part of an attempt: a page is opened, whatever the
    source is, and the form of a supported source is filled in and
    submitted.  How the run ends is the world's: with an error (of
    the browser, or ['Application submission failed'] when the
    automation returns [false]) or with a submitted form. *)
Definition automate (job : JobListing) : M nat :=
  fun w s =>
    let s' := mkState (db s) (issued s) (chats s) (S (applies s))
                      (bull_ids s) in
    match apply_outcome w (applies s) with
    | ApplyFailure error => (Throw error, s')
    | ApplySuccess applicationId =>
        if supported (j_source job) then (Ok applicationId, s')
        else (Throw ("Unsupported job source: " ++ j_source job), s')
    end.

(** [INSERT INTO applications (user_id, job_listing_id, status) VALUES
    ($1, $2, 'applied') RETURNING id]: [applications] is outside the
    modelled tables. *)
Definition insert_application (userId jobListingId : nat) (d : DB)
  : unit * DB :=
  (tt, d).

(** [INSERT INTO application_queue (job_match_id, status,
    error_message) VALUES ((SELECT id FROM job_matches ...), 'failed',
    $3)], the statement of the [catch]: refused, the table has no
    column [job_match_id]. *)
Definition record_failure (userId jobListingId : nat) (message : string)
  : M nat :=
  refused no_job_match_id.

(** [applyToJob(userId, jobListingId)].  The recording on the chain is
    not awaited and touches [applications] only; closing the page in
    [finally] is part of the automation. *)
Definition applyToJob (userId jobListingId : nat) : M ApplyResult :=
  tryCatch
    (jobRows <- query (select_job jobListingId) ;;
     userRows <- query (select_user userId) ;;
     match jobRows, userRows with
     | job :: _, user :: _ =>
         applicationId <- automate job ;;
         query (insert_application userId jobListingId) ;;;
         ret (ApplySuccess applicationId)
     | _, _ => throw "Job or user not found"
     end)
    (fun error =>
       record_failure userId jobListingId error ;;;
       ret (ApplyFailure error)).

End ApplicationService.

(* ================================================================== *)
(** ** The application queue and its worker *)

Module ApplicationQueue.

Inductive JobState :=
| Waiting
| Active
| Delayed (ms : Z)
| Completed
| Failed.

(** A job of the [applications] queue: the data and options given to
    [applicationQueue.add], and the bookkeeping of the queue. *)
Record BullJob := mkBull {
  b_id : nat;
  b_userId : nat;
  b_jobListingId : nat;
  b_matchId : nat;
  b_attempts : Z;               (* [opts.attempts] *)
  b_backoff_delay : Z;          (* [opts.backoff.delay], exponential *)
  b_attemptsMade : Z;
  b_attemptsStarted : Z;
  b_state : JobState;
  b_failedReason : option string
}.


(** What the processor resolves to. *)
Inductive Outcome :=
| Succeeded (applicationId : nat)
| GaveUp (error : string).

Definition update_rows (jobId : nat) (f : QueueRow -> QueueRow) (d : DB)
  : nat * DB :=
  (List.length (filter (fun q => (q_id q =? jobId)%nat) (application_queue d)),
   set_application_queue
     (map (fun q => if (q_id q =? jobId)%nat then f q else q)
          (application_queue d))
     d).

(** [UPDATE application_queue SET status = $1 WHERE id = $2]. *)
Definition set_status (status : string) (jobId : nat) :=
  update_rows jobId
    (fun q => mkQueue (q_id q) (q_user_id q) (q_job_id q) (q_match_id q)
                      status (q_retry_count q) (q_error_message q)
                      (q_processed q)).

(** [UPDATE application_queue SET status = $1,
    processed_at = CURRENT_TIMESTAMP WHERE id = $2]. *)
Definition set_processed (status : string) (jobId : nat) :=
  update_rows jobId
    (fun q => mkQueue (q_id q) (q_user_id q) (q_job_id q) (q_match_id q)
                      status (q_retry_count q) (q_error_message q) true).

(** [UPDATE application_queue SET status = $1, error_message = $2,
    retry_count = retry_count + 1 WHERE id = $3]. *)
Definition set_failed (status message : string) (jobId : nat) :=
  update_rows jobId
    (fun q => mkQueue (q_id q) (q_user_id q) (q_job_id q) (q_match_id q)
                      status (q_retry_count q + 1) (Some message)
                      (q_processed q)).

(** [INSERT INTO notifications ...]. *)
Definition insert_notification (userId applicationId : nat) (d : DB)
  : nat * DB :=
  (1%nat,
   set_notifications
     (notifications d ++
        [mkNotification userId "application_sent" applicationId])%list
     d).

(** The processor given to [new Worker('applications', ...)]. *)
Definition processor (job : BullJob) : M Outcome :=
  tryCatch
    (query (set_status "processing" (b_id job)) ;;;
     result <- ApplicationService.applyToJob (b_userId job)
                                             (b_jobListingId job) ;;
     match result with
     | ApplySuccess applicationId =>
         query (set_processed "completed" (b_id job)) ;;;
         query (insert_notification (b_userId job) applicationId) ;;;
         ret (Succeeded applicationId)
     | ApplyFailure error => throw error
     end)
    (fun error =>
       query (set_failed "failed" error (b_id job)) ;;;
       if b_attemptsMade job <? 3 then throw error
       else ret (GaveUp error)).






(** [INSERT INTO application_queue (job_match_id, status)
    VALUES ($1, 'pending')]: refused, like the statement of the jobs
    route. *)
Definition insert_queue (matchId : nat) : M nat :=
  refused no_job_match_id.

(** [applicationQueue.add('apply', data, {attempts: 3, backoff:
    {type: 'exponential', delay: 5000}})]. *)
Definition add (userId jobListingId matchId : nat) : M BullJob :=
  fun w s =>
    (Ok (mkBull (S (bull_ids s)) userId jobListingId matchId 3 5000 0 0
                Waiting None),
     mkState (db s) (issued s) (chats s) (applies s) (S (bull_ids s))).

(** [queueApplication(userId, jobListingId, matchId)]. *)
Definition queueApplication (userId jobListingId matchId : nat)
  : M BullJob :=
  tryCatch
    (job <- add userId jobListingId matchId ;;
     insert_queue matchId ;;;
     ret job)
    (fun error => throw error).

End ApplicationQueue.

(* ================================================================== *)
(** ** The AI-backed scoring engine ([services/matchingServices.js])

    This version scores on the scale 0 to 1 and reads the listing columns
    [salary] and [remote] of the older schema. *)

Module AIMatching.
Import JS.

Record Job := mkJob {
  a_id : nat;
  a_title : string;
  a_company : string;
  a_location : option string;
  a_description : option string;
  a_salary : option string;
  a_remote : bool;
  a_job_type : option string
}.

(** [users.preferences], a JSON object; an absent key is [None]. *)
Record Preferences := mkPreferences {
  pr_remote : bool;
  pr_locations : option (list string);
  pr_minSalary : option Q;
  pr_jobTitles : option (list string);
  pr_employmentTypes : option (list string)
}.

Record Reason := mkReason {
  ar_type : string;
  ar_description : string;
  ar_weight : Q
}.

Record Breakdown := mkBreakdown {
  bd_skills : Q;
  bd_location : Q;
  bd_salary : Q;
  bd_title : Q;
  bd_type : Q
}.

Record Score := mkScore {
  a_total : Q;
  a_reasons : list Reason;
  a_breakdown : Breakdown
}.

Record SkillMatch := mkSkillMatch {
  sm_matched : list string;
  sm_score : Q
}.

Definition nl : string := String (ascii_of_nat 10) EmptyString.

(** The double quote character. *)
Definition dq : string := String (ascii_of_nat 34) EmptyString.

(** [xs.join(', ')]. *)
Definition join (xs : list string) : string := String.concat ", " xs.

(** The prompt of [matchSkills]. *)
Definition prompt (userProfile jobDescription : string) : string :=
  nl ++ "Given this professional profile:" ++ nl
     ++ userProfile ++ nl ++ nl
     ++ "And this job description:" ++ nl
     ++ jobDescription ++ nl ++ nl
     ++ "List the skills from the profile that match the job requirements. "
     ++ nl ++ "Return only a JSON object with this format:" ++ nl
     ++ "{" ++ nl
     ++ "  " ++ dq ++ "matched" ++ dq ++ ": ["
     ++ dq ++ "skill1" ++ dq ++ ", " ++ dq ++ "skill2" ++ dq ++ "]," ++ nl
     ++ "  " ++ dq ++ "score" ++ dq ++ ": 0.8" ++ nl
     ++ "}" ++ nl ++ nl
     ++ "The score should be 0-1 representing how well the skills match."
     ++ nl.

(** [x || 0.5] on a number that may be missing. *)
Definition scoreOrHalf (score : option Q) : Q :=
  match score with
  | Some q => if Qeq_bool q 0 then (1 # 2)%Q else q
  | None => (1 # 2)%Q
  end.

(** [matchSkills(userProfile, jobDescription)]: one chat completion;
    when the request fails or the answer is not JSON, the [catch]
    returns the default. *)
Definition matchSkills (userProfile jobDescription : string)
  : M SkillMatch :=
  fun w s =>
    let s' := mkState (db s) (issued s) (S (chats s)) (applies s)
                      (bull_ids s) in
    match chat w (chats s) (prompt userProfile jobDescription) with
    | ChatJson matched score =>
        (Ok (mkSkillMatch
               (match matched with Some xs => xs | None => [] end)
               (scoreOrHalf score)),
         s')
    | ChatError => (Ok (mkSkillMatch [] (1 # 2)%Q), s')
    end.

(** [parseSalary(salaryString)]: the same expression as in the keyword
    version, without the guard on an empty string. *)
Definition parseSalary (salaryString : string) : Q :=
  match Matching.salaryToken salaryString with
  | Some (int, frac) => Matching.parseFloat int frac
  | None => 0%Q
  end.

Definition truthyQ (o : option Q) : bool :=
  match o with Some q => negb (Qeq_bool q 0) | None => false end.

(** [parseFloat(x.toFixed(2))]. *)
Definition toFixed2 (x : Q) : Q :=
  if Qle_bool 0 x then (inject_Z (Qfloor (x * 100 + (1 # 2))) / 100)%Q
  else (- (inject_Z (Qfloor ((- x) * 100 + (1 # 2))) / 100))%Q.

Definition Math_min (a b : Q) : Q := if Qle_bool a b then a else b.

(** The five factors after the skill match is known. *)
Definition scoreWith (skillMatch : SkillMatch) (job : Job)
           (preferences : Preferences) : Score :=
  let reasons := [] in
  let skillScore := (sm_score skillMatch * (4 # 10))%Q in
  let reasons :=
    match sm_matched skillMatch with
    | [] => reasons
    | matched =>
        (reasons ++ [mkReason "skill" ("Skills match: " ++ join matched)
                              skillScore])%list
    end in
  let '(locationScore, reasons) :=
    if pr_remote preferences && a_remote job then
      ((25 # 100)%Q,
       (reasons ++ [mkReason "location" "Remote work preference match"
                             (25 # 100)%Q])%list)
    else
      match a_location job with
      | Some location =>
          if match pr_locations preferences with
             | Some locs =>
                 some (fun loc =>
                         includes (toLowerCase location) (toLowerCase loc))
                      locs
             | None => false
             end
          then
            ((25 # 100)%Q,
             (reasons ++ [mkReason "location"
                            ("Location match: " ++ location)
                            (25 # 100)%Q])%list)
          else if truthy location then ((1 # 10)%Q, reasons)
          else (0%Q, reasons)
      | None => (0%Q, reasons)
      end in
  let '(salaryScore, reasons) :=
    match a_salary job with
    | Some salary =>
        if truthy salary && truthyQ (pr_minSalary preferences) then
          let salaryMatch := parseSalary salary in
          match pr_minSalary preferences with
          | Some minSalary =>
              if Qle_bool minSalary salaryMatch then
                ((15 # 100)%Q,
                 (reasons ++ [mkReason "salary"
                                "Salary meets minimum requirement"
                                (15 # 100)%Q])%list)
              else ((5 # 100)%Q, reasons)
          | None => ((8 # 100)%Q, reasons)
          end
        else ((8 # 100)%Q, reasons)
    | None => ((8 # 100)%Q, reasons)
    end in
  let '(titleScore, reasons) :=
    if match pr_jobTitles preferences with
       | Some titles =>
           some (fun title =>
                   includes (toLowerCase (a_title job)) (toLowerCase title))
                titles
       | None => false
       end
    then
      ((15 # 100)%Q,
       (reasons ++ [mkReason "title"
                      ("Title matches preference: " ++ a_title job)
                      (15 # 100)%Q])%list)
    else ((5 # 100)%Q, reasons) in
  let '(typeScore, reasons) :=
    match pr_employmentTypes preferences, a_job_type job with
    | Some types, Some jobType =>
        if some (String.eqb jobType) types then
          ((5 # 100)%Q,
           (reasons ++ [mkReason "type"
                          ("Employment type match: " ++ jobType)
                          (5 # 100)%Q])%list)
        else (0%Q, reasons)
    | _, _ => (0%Q, reasons)
    end in
  let total :=
    Math_min 1
      (skillScore + locationScore + salaryScore + titleScore + typeScore)%Q in
  mkScore (toFixed2 total) reasons
          (mkBreakdown skillScore locationScore salaryScore titleScore
                       typeScore).

(** [calculateMatchScore(userProfile, job, preferences)]. *)
Definition calculateMatchScore (userProfile : string) (job : Job)
           (preferences : Preferences) : M Score :=
  let jobText :=
    a_title job ++ " "
      ++ match a_description job with Some d => d | None => "" end in
  skillMatch <- matchSkills userProfile jobText ;;
  ret (scoreWith skillMatch job preferences).

End AIMatching.

(* ================================================================== *)
(** ** The specification's wording of the skill factor *)

Module Spec.
Import JS.

(** The skill factor as the specification words it: the share of the
    candidate's skills found, without regard to case, in the listing's
    title and description taken together, scaled to the weight of 40;
    nothing for an empty skill set or an empty text. *)
Definition listingText (job : JobListing) : string :=
  j_title job ++ " "
    ++ match j_description job with Some d => d | None => "" end.

Definition skillOverlap (skills : list string) (job : JobListing) : Z :=
  match skills with
  | [] => 0
  | _ =>
      if negb (truthy (j_title job)) && negb (truthyOpt (j_description job))
      then 0
      else
        let found :=
          filter (fun skill =>
                    includes (toLowerCase (listingText job))
                             (toLowerCase skill))
                 skills in
        Math_round (inject_Z (Z.of_nat (List.length found))
                    / inject_Z (Z.of_nat (List.length skills)) * 40)%Q
  end.

End Spec.

(* ================================================================== *)
(** ** Concrete rows used in the examples *)

Module Examples.

Definition candidate : UserProfile :=
  mkProfile 1 (JArray ["python"; "react"]) (JArray ["engineer"])
            (Some "remote") None.

Definition withFloor : UserProfile :=
  mkProfile 1 (JArray ["python"]) JNull (Some "any") (Some 50000).

Definition seniorPython : JobListing :=
  mkJob 7 "Senior Python Engineer" "Acme" None
        (Some "We use Python and React daily") (Some "$120,000 - $150,000")
        (Some "remote") (Some "full_time") true 0 "linkedin".

(** The skill appears in the title only. *)
Definition titleOnly : JobListing :=
  mkJob 8 "Python Engineer" "Acme" None (Some "Join a great team") None
        (Some "remote") (Some "full_time") true 0 "linkedin".

(** A world whose database is reachable, whose first chat completion
    finds one skill and whose later ones fail, and whose apply attempts
    all fail. *)
Definition world : World :=
  mkWorld (fun _ => false)
          (fun k _ =>
             match k with
             | O => ChatJson (Some ["python"]) (Some (9 # 10)%Q)
             | S _ => ChatError
             end)
          (fun _ => ApplyFailure "submit button not found").

Definition emptyDB : DB := mkDB [] [] [] [] [] [] 100 1000.

Definition idle : State := mkState emptyDB 0 0 0 0.

(** One guest with one match, already rejected. *)
Definition rejected : MatchRow :=
  mkMatch 5 1 7 80 [] "rejected" true false.

Definition afterRejection : State :=
  mkState (mkDB [mkUser 1 "tok"] [candidate] [seniorPython] [rejected]
                [] [] 100 1000)
          0 0 0 0.

(** The same guest with the match still pending. *)
Definition pending : MatchRow :=
  mkMatch 5 1 7 80 [] "pending" false false.

Definition beforeReview : State :=
  mkState (mkDB [mkUser 1 "tok"] [candidate] [seniorPython] [pending]
                [] [] 100 1000)
          0 0 0 0.

(** A queue row whose id is that of the first job of the queue. *)
Definition queued : State :=
  mkState (mkDB [mkUser 1 "tok"] [candidate] [seniorPython] [pending]
                [mkQueue 1 None None (Some 5%nat) "pending" 0 None false]
                [] 100 1000)
          0 0 0 0.

Definition aiJob : AIMatching.Job :=
  AIMatching.mkJob 3 "Python Developer" "Acme" (Some "Berlin")
                   (Some "Django services") (Some "$90,000") true
                   (Some "full_time").

Definition aiPreferences : AIMatching.Preferences :=
  AIMatching.mkPreferences true None (Some (80000 # 1)%Q)
                           (Some ["developer"]) (Some ["full_time"]).

End Examples.

(* ================================================================== *)
(** ** Further definitions *)

(** The number of leading digits of a number written without separators
    that the salary expression takes: all of one or two, otherwise the
    largest multiple of three. *)
Definition takenDigits (n : nat) : nat :=
  if (n <? 3)%nat then n else (3 * (n / 3))%nat.

(** The columns of a match that no review writes. *)
Definition scored (m : MatchRow) : nat * nat * nat * Z * list Reason :=
  (m_id m, m_user_id m, m_job_id m, m_match_score m, m_match_reasons m).

(** [after] is [before] with the review columns of rows of one match
    rewritten. *)
Definition reviewed_from (matchId : nat) (before after : list MatchRow)
  : Prop :=
  exists g : MatchRow -> MatchRow,
    (forall m, scored (g m) = scored m)
    /\ (forall m, m_id m <> matchId -> g m = m)
    /\ after = map g before.

(* ================================================================== *)
(** ** [getMatchedJobs] *)

Module MatchQueries.

(** A row of the join of [job_matches] with [job_listings]: the
    selected columns are those of the match, its [created_at] and
    those of the listing. *)
Record MatchedJob := mkMatched {
  mj_match : MatchRow;
  mj_created_at : Z;
  mj_job : JobListing
}.

(** [a] may stand before [b] under
    [ORDER BY jm.match_score DESC, jm.created_at DESC]. *)
Definition precedes (a b : MatchedJob) : bool :=
  (m_match_score (mj_match b) <? m_match_score (mj_match a))
  || ((m_match_score (mj_match a) =? m_match_score (mj_match b))
      && (mj_created_at b <=? mj_created_at a)).

Fixpoint insert_ordered (a : MatchedJob) (l : list MatchedJob)
  : list MatchedJob :=
  match l with
  | [] => [a]
  | x :: r => if precedes a x then a :: l else x :: insert_ordered a r
  end.

Definition order_by (l : list MatchedJob) : list MatchedJob :=
  fold_right insert_ordered [] l.

(** [... FROM job_matches jm JOIN job_listings jl ON jm.job_id = jl.id
    WHERE jm.user_id = $1 AND jm.reviewed = $2]. *)
Definition joined (created_at : nat -> Z) (userId : nat) (reviewed : bool)
           (d : DB) : list MatchedJob :=
  flat_map
    (fun m =>
       map (fun j => mkMatched m (created_at (m_id m)) j)
           (filter (fun j => (j_id j =? m_job_id m)%nat) (job_listings d)))
    (filter (fun m => (m_user_id m =? userId)%nat
                      && Bool.eqb (m_reviewed m) reviewed)
            (job_matches d)).

(** The statement of [getMatchedJobs], with [LIMIT 50].  The model of
    [job_matches] does not carry the column [created_at]; it is given
    as a function of the row's id. *)
Definition select_matched (created_at : nat -> Z) (userId : nat)
           (reviewed : bool) (d : DB) : list MatchedJob * DB :=
  (firstn 50 (order_by (joined created_at userId reviewed d)), d).

(** [getMatchedJobs(userId, reviewed = false)]: the [catch] logs and
    throws the error again. *)
Definition getMatchedJobs (created_at : nat -> Z) (userId : nat)
           (reviewed : bool) : M (list MatchedJob) :=
  tryCatch (query (select_matched created_at userId reviewed))
           (fun error => throw error).

End MatchQueries.

(* ================================================================== *)
(** ** The profile statements of [processCVAsync] *)

Module ProfileStore.

(** The constraint [UNIQUE(user_id)] on [user_profiles]. *)
Definition profiles_unique (d : DB) : Prop :=
  NoDup (map p_user_id (user_profiles d)).

Definition set_user_profiles (ps : list UserProfile) (d : DB) : DB :=
  mkDB (users d) ps (job_listings d) (job_matches d) (application_queue d)
       (notifications d) (next_id d) (now d).

Definition has_profile (userId : nat) (d : DB) : bool :=
  existsb (fun p => (p_user_id p =? userId)%nat) (user_profiles d).

(** [INSERT INTO user_profiles (user_id, ..., skills, ...,
    desired_job_titles, remote_preference, ...) VALUES (...)
    ON CONFLICT (user_id) DO UPDATE SET ..., skills = $5, ...,
    desired_job_titles = $9, remote_preference = $10, ...], on the
    columns of the model: [salary_min] is not among the columns
    written, so it is NULL on insertion and kept on update. *)
Definition upsert_profile (userId : nat) (skills titles : list string)
           (remotePreference : string) (d : DB) : nat * DB :=
  if has_profile userId d then
    (1%nat,
     set_user_profiles
       (map (fun p =>
               if (p_user_id p =? userId)%nat
               then mkProfile userId (JArray skills) (JArray titles)
                              (Some remotePreference) (p_salary_min p)
               else p)
            (user_profiles d))
       d)
  else
    (1%nat,
     set_user_profiles
       (user_profiles d ++
          [mkProfile userId (JArray skills) (JArray titles)
                     (Some remotePreference) None])%list
       d).

(** [INSERT INTO user_profiles (user_id, resume_url, resume_filename,
    desired_job_titles, remote_preference, cv_parsed,
    profile_completed) VALUES (...) ON CONFLICT (user_id) DO NOTHING],
    the profile written when the CV could not be processed. *)
Definition insert_basic_profile (userId : nat) (titles : list string)
           (remotePreference : string) (d : DB) : nat * DB :=
  if has_profile userId d then (0%nat, d)
  else
    (1%nat,
     set_user_profiles
       (user_profiles d ++
          [mkProfile userId JNull (JArray titles) (Some remotePreference)
                     None])%list
       d).

End ProfileStore.

(* ================================================================== *)
(** ** [utils/tokenGenerator.js] *)

Module Tokens.

(** One hexadecimal digit, lower case, of a value below sixteen. *)
Definition hexDigit (n : nat) : ascii :=
  if (n <? 10)%nat then ascii_of_nat (48 + n) else ascii_of_nat (87 + n).

(** [buffer.toString('hex')]: two digits per byte, high nibble first. *)
Fixpoint toHex (bytes : list ascii) : string :=
  match bytes with
  | [] => EmptyString
  | b :: rest =>
      String (hexDigit (nat_of_ascii b / 16))
             (String (hexDigit (nat_of_ascii b mod 16)) (toHex rest))
  end.

(** [generateTrackingToken()], given the thirty-two bytes that
    [crypto.randomBytes(32)] drew. *)
Definition generateTrackingToken (randomBytes : list ascii) : string :=
  toHex randomBytes.

(** The class [[a-f0-9]]. *)
Definition isLowerHex (c : ascii) : bool :=
  let n := nat_of_ascii c in
  ((48 <=? n) && (n <=? 57) || (97 <=? n) && (n <=? 102))%nat.

(** The class [[0-9a-f]] under the flag [i]. *)
Definition isHex (c : ascii) : bool :=
  let n := nat_of_ascii c in
  ((48 <=? n) && (n <=? 57) || (97 <=? n) && (n <=? 102)
   || (65 <=? n) && (n <=? 70))%nat.

(** [C{n}] at the start of a string: the rest after [n] characters of
    the class, if the string starts with that many. *)
Fixpoint times (class : ascii -> bool) (n : nat) (s : string)
  : option string :=
  match n with
  | O => Some s
  | S n' =>
      match s with
      | String c r => if class c then times class n' r else None
      | EmptyString => None
      end
  end.

(** [/^[a-f0-9]{64}$/.test(token)]. *)
Definition isValidTrackingToken (token : string) : bool :=
  match times isLowerHex 64 token with
  | Some EmptyString => true
  | _ => false
  end.

Definition one (class : ascii -> bool) (s : string) : option string :=
  times class 1 s.

Definition isChar (x : ascii) (c : ascii) : bool := Ascii.eqb c x.

(** The class [[89ab]] under the flag [i]. *)
Definition isVariant (c : ascii) : bool :=
  let n := nat_of_ascii c in
  ((n =? 56) || (n =? 57) || (n =? 97) || (n =? 98) || (n =? 65)
   || (n =? 66))%nat.

Definition andThen (o : option string) (k : string -> option string)
  : option string :=
  match o with Some s => k s | None => None end.

(** [/^[0-9a-f]{8}-[0-9a-f]{4}-4[0-9a-f]{3}-[89ab][0-9a-f]{3}-[0-9a-f]{12}$/i
    .test(uuid)]. *)
Definition isValidUUID (uuid : string) : bool :=
  match
    andThen (times isHex 8 uuid) (fun s =>
    andThen (one (isChar "-") s) (fun s =>
    andThen (times isHex 4 s) (fun s =>
    andThen (one (isChar "-") s) (fun s =>
    andThen (one (isChar "4") s) (fun s =>
    andThen (times isHex 3 s) (fun s =>
    andThen (one (isChar "-") s) (fun s =>
    andThen (one isVariant s) (fun s =>
    andThen (times isHex 3 s) (fun s =>
    andThen (one (isChar "-") s) (fun s =>
    times isHex 12 s))))))))))
  with
  | Some EmptyString => true
  | _ => false
  end.

End Tokens.

(** What a review may change between two states of the database:
    nothing but the review columns of the rows of one match. *)
Definition only_review_columns (matchId : nat) (before after : DB) : Prop :=
  map scored (job_matches after) = map scored (job_matches before)
  /\ (forall i m, nth_error (job_matches before) i = Some m ->
                  m_id m <> matchId ->
                  nth_error (job_matches after) i = Some m)
  /\ (pairs_unique before -> pairs_unique after)
  /\ users after = users before
  /\ user_profiles after = user_profiles before
  /\ job_listings after = job_listings before.

(* ================================================================== *)
(** ** The AI-backed matching service ([services/matchingServices.js])

    This is the module that the routes and the daily job import.  Its
    statements name the tables of the earlier schema: [users.preferences],
    [user_skills], [job_listings.salary] and [remote], and
    [job_matches.job_listing_id] with a fractional [match_score].  They
    are modelled on tables that have these columns; whether a statement
    goes through is the world's, as for every statement. *)

Module AIService.
Import JS AIMatching.

Record UserRecord := mkUserRecord {
  ur_id : nat;
  ur_first_name : option string;
  ur_last_name : option string;
  ur_location : option string;
  ur_preferences : option Preferences
}.

Record SkillRow := mkSkillRow {
  sk_user_id : nat;
  sk_skill_name : string;
  sk_years_experience : option Z;
  sk_proficiency : option string
}.

Record ListingRow := mkListingRow {
  lr_job : Job;
  lr_is_active : bool;
  lr_scraped_at : Z
}.

Record MatchRecord := mkMatchRecord {
  mr_user_id : nat;
  mr_job_listing_id : nat;
  mr_match_score : Q;
  mr_match_reasons : list Reason
}.

Record Tables := mkTables {
  t_users : list UserRecord;
  t_user_skills : list SkillRow;
  t_job_listings : list ListingRow;
  t_job_matches : list MatchRecord;
  t_now : Z
}.

Definition set_matches (ms : list MatchRecord) (t : Tables) : Tables :=
  mkTables (t_users t) (t_user_skills t) (t_job_listings t) ms (t_now t).

(** The state of the service: the counters of the process and the
    tables. *)
Record Store := mkStore {
  base : State;
  tables : Tables
}.

Definition AM (A : Type) : Type := World -> Store -> Result A * Store.

Definition aret {A} (a : A) : AM A := fun _ st => (Ok a, st).

Definition athrow {A} (e : string) : AM A := fun _ st => (Throw e, st).

Definition abind {A B} (m : AM A) (k : A -> AM B) : AM B :=
  fun w st =>
    match m w st with
    | (Ok a, st') => k a w st'
    | (Throw e, st') => (Throw e, st')
    end.

Definition atry {A} (m : AM A) (h : string -> AM A) : AM A :=
  fun w st =>
    match m w st with
    | (Ok a, st') => (Ok a, st')
    | (Throw e, st') => h e w st'
    end.

(** A computation that touches no table of this service. *)
Definition lift {A} (m : M A) : AM A :=
  fun w st =>
    let '(r, s') := m w (base st) in (r, mkStore s' (tables st)).

Definition sent (s : State) : State :=
  mkState (db s) (S (issued s)) (chats s) (applies s) (bull_ids s).

(** [await query(stmt)] on these tables. *)
Definition aquery {A} (stmt : Tables -> A * Tables) : AM A :=
  fun w st =>
    if db_down w (issued (base st)) then
      (Throw "database error", mkStore (sent (base st)) (tables st))
    else
      let '(a, t) := stmt (tables st) in
      (Ok a, mkStore (sent (base st)) t).

Declare Scope am_scope.
Delimit Scope am_scope with am.
Notation "x <~ m ;; k" := (abind m (fun x => k))
  (at level 61, m at next level, right associativity) : am_scope.
Notation "m ~;; k" := (abind m (fun _ => k))
  (at level 61, right associativity) : am_scope.
Open Scope am_scope.

(** *** [buildUserProfile] *)

Definition isSpace (c : ascii) : bool :=
  let n := nat_of_ascii c in
  ((n =? 32) || (9 <=? n) && (n <=? 13) || (n =? 160))%nat.

Fixpoint trimStart (s : string) : string :=
  match s with
  | String c r => if isSpace c then trimStart r else s
  | EmptyString => s
  end.

Definition reverse (s : string) : string :=
  string_of_list_ascii (rev (list_ascii_of_string s)).

(** [s.trim()]. *)
Definition trim (s : string) : string :=
  reverse (trimStart (reverse (trimStart s))).

Fixpoint fraction (places : nat) (num den : Z) : string :=
  match places with
  | O => ""
  | S places' =>
      if num =? 0 then ""
      else numToString (num * 10 / den)
           ++ fraction places' ((num * 10) mod den) den
  end.

(** [`${x}`] for a number: the digits of an integer; for another
    number its decimal expansion, which is what is printed when the
    expansion ends within fifteen places. *)
Definition showNumber (x : Q) : string :=
  let n := Qnum x in
  let d := Z.pos (Qden x) in
  if n mod d =? 0 then numToString (n / d)
  else (if n <? 0 then "-" else "")
       ++ numToString (Z.abs n / d) ++ "."
       ++ fraction 15 (Z.abs n mod d) d.

(** [`${v}`] for a nullable text column. *)
Definition showText (v : option string) : string :=
  match v with Some s => s | None => "null" end.

(** [xs?.join(', ') || fallback]. *)
Definition joinOr (xs : option (list string)) (fallback : string)
  : string :=
  match xs with
  | Some l => if truthy (join l) then join l else fallback
  | None => fallback
  end.

Definition showSkill (s : SkillRow) : string :=
  sk_skill_name s ++ " (" ++ orElse (sk_proficiency s) "intermediate"
    ++ ", "
    ++ numToString (if truthyNum (sk_years_experience s)
                    then match sk_years_experience s with
                         | Some y => y
                         | None => 0
                         end
                    else 0)
    ++ " years)".

(** [user.preferences || {}]. *)
Definition noPreferences : Preferences :=
  mkPreferences false None None None None.

Definition preferencesOf (o : option Preferences) : Preferences :=
  match o with Some p => p | None => noPreferences end.

Definition indent : string := nl ++ "        ".

Definition profileText (user : UserRecord) (skills : list SkillRow)
  : string :=
  let preferences := preferencesOf (ur_preferences user) in
  trim
    (indent ++ "Professional Profile:"
     ++ indent ++ "Name: " ++ showText (ur_first_name user) ++ " "
     ++ showText (ur_last_name user)
     ++ indent ++ "Location: " ++ orElse (ur_location user) "Not specified"
     ++ indent ++ "Skills: " ++ join (map showSkill skills)
     ++ indent ++ "Preferred Job Titles: "
     ++ joinOr (pr_jobTitles preferences) "Any"
     ++ indent ++ "Preferred Locations: "
     ++ joinOr (pr_locations preferences) "Any"
     ++ indent ++ "Remote Work: "
     ++ (if pr_remote preferences then "Yes" else "No")
     ++ indent ++ "Salary Range: "
     ++ (if truthyQ (pr_minSalary preferences)
         then "$" ++ match pr_minSalary preferences with
                     | Some m => showNumber m
                     | None => ""
                     end ++ "+"
         else "Not specified")
     ++ indent ++ "Employment Types: "
     ++ joinOr (pr_employmentTypes preferences) "Full-time"
     ++ nl ++ "      ").

(** [SELECT first_name, last_name, location, preferences FROM users
    WHERE id = $1]. *)
Definition select_user (userId : nat) (t : Tables)
  : list UserRecord * Tables :=
  (filter (fun u => (ur_id u =? userId)%nat) (t_users t), t).

(** [SELECT skill_name, years_experience, proficiency FROM user_skills
    WHERE user_id = $1]. *)
Definition select_skills (userId : nat) (t : Tables)
  : list SkillRow * Tables :=
  (filter (fun s => (sk_user_id s =? userId)%nat) (t_user_skills t), t).

(** [buildUserProfile(userId)]: the [catch] logs and throws again. *)
Definition buildUserProfile (userId : nat) : AM string :=
  atry
    (userRows <~ aquery (select_user userId) ;;
     match userRows with
     | [] => athrow "User not found"
     | user :: _ =>
         skillRows <~ aquery (select_skills userId) ;;
         aret (profileText user skillRows)
     end)
    (fun error => athrow error).

(** *** [matchJobsForUser] *)

Record Summary := mkSummary {
  su_jobId : nat;
  su_title : string;
  su_company : string;
  su_matchScore : Q;
  su_reasons : list Reason
}.

Definition matched_ids (userId : nat) (t : Tables) : list nat :=
  map mr_job_listing_id
      (filter (fun m => (mr_user_id m =? userId)%nat) (t_job_matches t)).

(** [ORDER BY scraped_at DESC], by insertion. *)
Fixpoint insert_desc (j : ListingRow) (l : list ListingRow)
  : list ListingRow :=
  match l with
  | [] => [j]
  | x :: r =>
      if lr_scraped_at x <=? lr_scraped_at j then j :: l
      else x :: insert_desc j r
  end.

Definition seven_days : Z := 7 * 86400.

(** The listing query: active, scraped within seven days, without a
    match of the user, newest first, at most a hundred. *)
Definition select_recent_jobs (userId : nat) (t : Tables)
  : list Job * Tables :=
  (map lr_job
       (firstn 100
          (fold_right insert_desc []
             (filter (fun j =>
                        lr_is_active j
                        && (t_now t - seven_days <? lr_scraped_at j)
                        && negb (existsb (Nat.eqb (a_id (lr_job j)))
                                         (matched_ids userId t)))
                     (t_job_listings t)))),
   t).

(** [INSERT INTO job_matches (user_id, job_listing_id, match_score,
    match_reasons) VALUES ($1, $2, $3, $4) ON CONFLICT (user_id,
    job_listing_id) DO NOTHING]. *)
Definition insert_match (userId jobId : nat) (score : Q)
           (reasons : list Reason) (t : Tables) : nat * Tables :=
  if existsb (fun m => (mr_user_id m =? userId)%nat
                       && (mr_job_listing_id m =? jobId)%nat)
             (t_job_matches t)
  then (0%nat, t)
  else (1%nat,
        set_matches
          (t_job_matches t ++ [mkMatchRecord userId jobId score reasons])
          t).

Definition summary (job : Job) (score : Score) : Summary :=
  mkSummary (a_id job) (a_title job) (a_company job) (a_total score)
            (a_reasons score).

(** The body of [for (const job of jobs)]: here a failing [INSERT] is
    not caught inside the loop. *)
Fixpoint matchLoop (userId : nat) (limit : Z) (userProfile : string)
         (preferences : Preferences) (jobs : list Job)
         (matches : list Summary) : AM (list Summary) :=
  match jobs with
  | [] => aret matches
  | job :: rest =>
      score <~ lift (calculateMatchScore userProfile job preferences) ;;
      matches' <~
        (if Qle_bool (6 # 10) (a_total score) then
           aquery (insert_match userId (a_id job) (a_total score)
                                (a_reasons score)) ~;;
           aret (matches ++ [summary job score])%list
         else aret matches) ;;
      if limit <=? Z.of_nat (List.length matches') then aret matches'
      else matchLoop userId limit userProfile preferences rest matches'
  end.

(** [matchJobsForUser(userId, limit = 10)]: the [catch] logs and throws
    again. *)
Definition matchJobsForUser (userId : nat) (limit : Z)
  : AM (list Summary) :=
  atry
    (userProfile <~ buildUserProfile userId ;;
     userRows <~ aquery (select_user userId) ;;
     let preferences :=
       preferencesOf
         (match userRows with
          | user :: _ => ur_preferences user
          | [] => None
          end) in
     jobs <~ aquery (select_recent_jobs userId) ;;
     matchLoop userId limit userProfile preferences jobs [])
    (fun error => athrow error).

(** What a row that the service adds looks like: it is the user's, for
    one of the listings at hand, and its score is a total of the
    scorer that passed the test [>= 0.6]. *)
Definition written (userId : nat) (preferences : Preferences)
           (jobs : list Job) (m : MatchRecord) : Prop :=
  mr_user_id m = userId
  /\ (6 # 10 <= mr_match_score m)%Q
  /\ (mr_match_score m <= 1)%Q
  /\ exists job skillMatch,
      In job jobs /\ mr_job_listing_id m = a_id job
      /\ mr_match_score m
         = a_total (scoreWith skillMatch job preferences).

Definition frame (t t' : Tables) : Prop :=
  t_users t' = t_users t /\ t_user_skills t' = t_user_skills t
  /\ t_job_listings t' = t_job_listings t /\ t_now t' = t_now t.

End AIService.

(* ================================================================== *)
(** ** The matching loop of [dailyJobScrape] *)

Module DailyScrape.
Import AIService.

(** [for (const user of usersResult.rows)]: each user is matched with
    a limit of ten inside its own [try]; a failure is logged and the
    loop goes on. *)
Fixpoint matchEach (userIds : list nat) (totalMatches : Z) : AM Z :=
  match userIds with
  | [] => aret totalMatches
  | userId :: rest =>
      total' <~
        atry
          (matches <~ matchJobsForUser userId 10 ;;
           aret (totalMatches + Z.of_nat (List.length matches)))
          (fun error => aret totalMatches) ;;
      matchEach rest total'
  end.

End DailyScrape.

(* ================================================================== *)
(** ** Rows and worlds used in the examples of the AI-backed service *)

Module AIExamples.
Import AIService.

Definition tables : Tables :=
  mkTables
    [mkUserRecord 1 (Some "Ada") (Some "Byron") (Some "Berlin")
                  (Some Examples.aiPreferences)]
    [mkSkillRow 1 "python" (Some 5) None]
    [mkListingRow Examples.aiJob true 900]
    [] 1000.


(** A listing without location, salary or type, and a title that no
    preference names. *)
Definition clerk : AIMatching.Job :=
  AIMatching.mkJob 4 "Clerk" "Acme" None None None false None.

(** A world whose chat completions all answer a skill score of -1. *)
Definition negative : World :=
  mkWorld (fun _ => false)
          (fun _ _ => ChatJson (Some []) (Some (- (1))%Q))
          (fun _ => ApplyFailure "submit button not found").

End AIExamples.

Module LoopExamples.

(** A world in which the third statement fails and every other one
    goes through. *)
Definition flaky : World :=
  mkWorld (fun k => (k =? 2)%nat) (fun _ _ => ChatError)
          (fun _ => ApplyFailure "submit button not found").

Definition juniorPython : JobListing :=
  mkJob 9 "Python Engineer" "Beta" None (Some "Python and React")
        None (Some "remote") (Some "full_time") true 10 "indeed".

(** A candidate and two listings that both score above the threshold;
    listing 9 is the newer one. *)
Definition twoListings : State :=
  mkState (mkDB [mkUser 1 "tok"] [Examples.candidate]
                [Examples.seniorPython; juniorPython] [] [] [] 100 1000)
          0 0 0 0.

End LoopExamples.

(* ================================================================== *)
(** ** Strings *)

Section Strings.
Import JS.

Lemma startsWith_spec (s t : string) :
  startsWith t s = true <-> exists post, t = s ++ post.
Proof.
  revert t; induction s as [|a s IH]; intros t; simpl.
  - split; [intros _; now exists t | reflexivity].
  - destruct t as [|b t].
    + split; [discriminate | intros [post H]; discriminate].
    + rewrite andb_true_iff, Ascii.eqb_eq, IH. split.
      * intros [-> [post ->]]. now exists post.
      * intros [post H]. injection H as -> ->. split; [reflexivity | now exists post].
Qed.

(** [includes] finds [s] exactly when [t] splits around a copy of [s]. *)
Lemma includes_spec (t s : string) :
  includes t s = true <-> exists pre post, t = pre ++ s ++ post.
Proof.
  induction t as [|c t IH].
  - simpl. rewrite orb_false_r, startsWith_spec. split.
    + intros [post H]. now exists "", post.
    + intros [pre [post H]]. destruct pre; simpl in H.
      * now exists post.
      * discriminate.
  - cbn [includes]. rewrite orb_true_iff, startsWith_spec, IH. split.
    + intros [[post H] | [pre [post H]]].
      * now exists "", post.
      * exists (String c pre), post. simpl. now rewrite H.
    + intros [pre [post H]]. destruct pre as [|c' pre]; simpl in H.
      * left. now exists post.
      * right. injection H as _ H. now exists pre, post.
Qed.

Lemma truthy_false (s : string) : truthy s = false <-> s = "".
Proof. destruct s; simpl; split; congruence. Qed.

End Strings.

(* ================================================================== *)
(** ** Rounding *)

Section Rounding.
Import JS.

Lemma Math_round_integer (z : Z) : Math_round (inject_Z z) = z.
Proof.
  unfold Math_round, Qfloor, inject_Z, Qplus; simpl.
  replace (z * 2 + 1) with (1 + z * 2) by lia.
  rewrite Z.div_add by lia. reflexivity.
Qed.

(** [Math.round(a / b * 40)] in integer arithmetic. *)
Lemma Math_round_share (a : Z) (b : positive) :
  Math_round (inject_Z a / inject_Z (Z.pos b) * 40)%Q
  = (80 * a + Z.pos b) / (2 * Z.pos b).
Proof.
  unfold Math_round, Qfloor, Qdiv, Qmult, Qplus, Qinv, inject_Z.
  cbn [Qnum Qden]. rewrite !Pos2Z.inj_mul. f_equal; lia.
Qed.

(** The rounded share is the integer nearest to [40 a / b], halves up. *)
Lemma share_nearest (a b f : Z) :
  0 < b -> f = (80 * a + b) / (2 * b) ->
  - b < 2 * b * f - 80 * a <= b.
Proof.
  intros Hb ->.
  pose proof (Z.div_mod (80 * a + b) (2 * b) ltac:(lia)) as E.
  pose proof (Z.mod_pos_bound (80 * a + b) (2 * b) ltac:(lia)) as B.
  lia.
Qed.

Lemma share_range (a b : Z) :
  0 < b -> 0 <= a <= b -> 0 <= (80 * a + b) / (2 * b) <= 40.
Proof.
  intros Hb Ha. split.
  - apply Z.div_pos; lia.
  - apply Z.lt_succ_r. apply Z.div_lt_upper_bound; lia.
Qed.

End Rounding.

(* ================================================================== *)
(** ** The factors of the keyword scorer *)

Section Factors.
Import JS Matching.

Lemma matchedSkills_length (skills : list string) (text : string) :
  (List.length (matchedSkills skills text) <= List.length skills)%nat.
Proof. unfold matchedSkills. apply filter_length_le. Qed.

Lemma matchSkills_nonempty (skills : list string) (text : string) :
  skills <> [] -> text <> "" ->
  matchSkills skills text
  = (80 * Z.of_nat (List.length (matchedSkills skills text))
     + Z.of_nat (List.length skills))
    / (2 * Z.of_nat (List.length skills)).
Proof.
  intros Hs Ht. unfold matchSkills.
  destruct skills as [|k skills]; [congruence|].
  destruct text as [|c text]; [congruence|].
  cbn [List.length Nat.eqb truthy negb orb].
  remember (matchedSkills (k :: skills) (String c text)) as found.
  destruct (Z.of_nat (S (List.length skills))) as [|p|p] eqn:E; try lia.
  apply Math_round_share.
Qed.

Lemma matchSkills_empty (skills : list string) (text : string) :
  skills = [] \/ text = "" -> matchSkills skills text = 0.
Proof.
  unfold matchSkills. intros [-> | ->]; simpl; [reflexivity|].
  now rewrite orb_true_r.
Qed.

Lemma matchSkills_range (skills : list string) (text : string) :
  0 <= matchSkills skills text <= 40.
Proof.
  destruct skills as [|k skills].
  - rewrite matchSkills_empty by now left. lia.
  - destruct text as [|c text].
    + rewrite matchSkills_empty by now right. lia.
    + rewrite matchSkills_nonempty by congruence.
      pose proof (matchedSkills_length (k :: skills) (String c text)).
      apply share_range; simpl List.length in *; lia.
Qed.

Lemma matchTitle_values (titles : list string) (title : string) :
  matchTitle titles title = 5 \/ matchTitle titles title = 25.
Proof.
  unfold matchTitle.
  destruct (_ || _); [now left|]. destruct (some _ _); [now right | now left].
Qed.

Lemma matchLocation_values (profile : UserProfile) (job : JobListing) :
  matchLocation profile job = 5 \/ matchLocation profile job = 10
  \/ matchLocation profile job = 20.
Proof.
  unfold matchLocation.
  repeat match goal with |- context [if ?b then _ else _] => destruct b end;
    auto.
Qed.

Lemma matchSalary_values (profile : UserProfile) (range : option string) :
  matchSalary profile range = 0 \/ matchSalary profile range = 5
  \/ matchSalary profile range = 10.
Proof.
  unfold matchSalary.
  destruct (_ || _); auto. destruct (p_salary_min profile); auto.
  destruct (Qle_bool _ _); auto.
Qed.

Lemma matchJobType_values (profile : UserProfile) (jobType : option string) :
  matchJobType profile jobType = 3 \/ matchJobType profile jobType = 5.
Proof.
  unfold matchJobType.
  repeat match goal with |- context [if ?b then _ else _] => destruct b end;
    auto.
Qed.

(** The total is the sum of the five factors, capped at 100. *)
Lemma total_is_capped_sum (profile : UserProfile)
      (skills titles : list string) (job : JobListing) :
  total (calculateMatchScore profile skills titles job)
  = Z.min 100 (matchSkills skills (jobText job)
               + matchTitle titles (j_title job)
               + matchLocation profile job
               + matchSalary profile (j_salary_range job)
               + matchJobType profile (j_job_type job)).
Proof.
  unfold calculateMatchScore. cbn [total].
  rewrite Math_round_integer. reflexivity.
Qed.

Lemma total_range (profile : UserProfile) (skills titles : list string)
      (job : JobListing) :
  0 <= total (calculateMatchScore profile skills titles job) <= 100.
Proof.
  rewrite total_is_capped_sum.
  pose proof (matchSkills_range skills (jobText job)).
  pose proof (matchTitle_values titles (j_title job)).
  pose proof (matchLocation_values profile job).
  pose proof (matchSalary_values profile (j_salary_range job)).
  pose proof (matchJobType_values profile (j_job_type job)).
  lia.
Qed.

End Factors.

(* ================================================================== *)
(** ** Salary strings *)

Section Salary.
Import JS Matching.

Lemma skipToDigit_empty (s : string) :
  skipToDigit s = "" <-> forall c, In c (list_ascii_of_string s) -> isDigit c = false.
Proof.
  induction s as [|a s IH]; simpl.
  - split; [intros _ c [] | reflexivity].
  - destruct (isDigit a) eqn:D.
    + split; [discriminate|]. intros H. specialize (H a (or_introl eq_refl)).
      congruence.
    + rewrite IH. split.
      * intros H c [<- | Hc]; auto.
      * intros H c Hc. apply H. now right.
Qed.

(** The expression finds no token exactly when the string has no digit. *)
Lemma salaryToken_none (s : string) :
  salaryToken s = None <-> forall c, In c (list_ascii_of_string s) -> isDigit c = false.
Proof.
  rewrite <- skipToDigit_empty. unfold salaryToken.
  destruct (skipToDigit s) as [|a r].
  - split; reflexivity.
  - destruct (takeDigitsUpTo 3 (String a r)) as [d1 r1].
    destruct (takeGroups (String.length r1) r1) as [d2 r2].
    split; discriminate.
Qed.

End Salary.

(* ================================================================== *)
(** ** The scoring claims *)

Section ScoringClaims.
Import JS Matching.

(** For every profile, skill list, title list and listing the keyword
    scorer returns, and its total is an integer between 0 and 100: the
    sum of the five factors capped at 100. *)
Lemma keyword_total_bounds (profile : UserProfile)
        (skills titles : list string) (job : JobListing)
        (w : World) (s : State) :
  exists sc,
    MatchingService.calculateMatchScore profile skills titles job w s
    = (Ok sc, s)
    /\ 0 <= total sc <= 100
    /\ total sc
       = Z.min 100 (matchSkills skills (jobText job)
                    + matchTitle titles (j_title job)
                    + matchLocation profile job
                    + matchSalary profile (j_salary_range job)
                    + matchJobType profile (j_job_type job)).
Proof.
  exists (calculateMatchScore profile skills titles job).
  split; [reflexivity|]. split.
  - apply total_range.
  - apply total_is_capped_sum.
Qed.

(** C8, as the specification states it, fails: a skill that occurs in
    the title only is not counted when the listing has a description. *)
Lemma C8_counterexample :
  matchSkills ["python"] (jobText Examples.titleOnly) = 0
  /\ Spec.skillOverlap ["python"] Examples.titleOnly = 40
  /\ includes (toLowerCase (j_title Examples.titleOnly))
              (toLowerCase "python") = true.
Proof. repeat split; reflexivity. Qed.

(** C8, amended.  The text searched is the description, or the title
    when the description is absent or empty.  The skill factor is 0
    for an empty skill list or an empty text; otherwise it is the
    share of the skills whose lower-case form occurs in the lower-case
    text, times 40, rounded to the nearest integer (halves up). *)
Theorem C8_skill_factor (skills : list string) (job : JobListing) :
  (jobText job
   = match j_description job with
     | Some (String c d) => String c d
     | _ => j_title job
     end)
  /\ (forall skill,
         In skill (matchedSkills skills (jobText job))
         <-> In skill skills
             /\ exists pre post,
                 toLowerCase (jobText job)
                 = pre ++ toLowerCase skill ++ post)
  /\ (skills = [] \/ jobText job = "" ->
      matchSkills skills (jobText job) = 0)
  /\ (skills <> [] -> jobText job <> "" ->
      let n := Z.of_nat (List.length skills) in
      let m := Z.of_nat (List.length (matchedSkills skills (jobText job))) in
      matchSkills skills (jobText job) = (80 * m + n) / (2 * n)
      /\ - n < 2 * n * matchSkills skills (jobText job) - 80 * m <= n)
  /\ 0 <= matchSkills skills (jobText job) <= 40.
Proof.
  split; [|split; [|split; [|split]]].
  - unfold jobText, orElse. destruct (j_description job) as [[|c d]|];
      reflexivity.
  - intros skill. unfold matchedSkills. rewrite filter_In, includes_spec.
    reflexivity.
  - apply matchSkills_empty.
  - intros Hs Ht n m.
    pose proof (matchSkills_nonempty skills (jobText job) Hs Ht) as E.
    split; [exact E|].
    apply share_nearest; [|exact E].
    destruct skills; [congruence | subst n; simpl List.length; lia].
  - apply matchSkills_range.
Qed.

(** C9, as the specification states it, fails: with a salary floor, a
    salary text without any number scores 0, exactly like a salary
    below the floor. *)
Lemma C9_counterexample :
  salaryToken "Competitive" = None
  /\ matchSalary Examples.withFloor (Some "Competitive") = 0
  /\ matchSalary Examples.withFloor (Some "$30,000") = 0.
Proof. repeat split; reflexivity. Qed.

(** C9, amended.  The salary factor is the neutral 5 exactly when the
    profile has no floor ([null] or 0) or the listing has no salary
    text ([null] or empty).  Otherwise the text is parsed, a text
    without a numeric token parsing to 0, and the factor is 10 when the
    parsed number is at or above the floor and 0 when it is below. *)
Theorem C9_salary_factor (profile : UserProfile) (range : option string) :
  (p_salary_min profile = None \/ p_salary_min profile = Some 0
   \/ range = None \/ range = Some "" ->
   matchSalary profile range = 5)
  /\ (forall floor text,
         p_salary_min profile = Some floor -> floor <> 0 ->
         range = Some text -> text <> "" ->
         ((inject_Z floor <= parseSalary range)%Q ->
          matchSalary profile range = 10)
         /\ ((parseSalary range < inject_Z floor)%Q ->
             matchSalary profile range = 0)
         /\ ((forall c, In c (list_ascii_of_string text) ->
                        isDigit c = false) ->
             parseSalary range = 0%Q
             /\ matchSalary profile range = if floor <? 0 then 10 else 0)).
Proof.
  split.
  - unfold matchSalary.
    intros [H | [H | [H | H]]]; rewrite H; simpl; try reflexivity;
      destruct (truthyNum _); reflexivity.
  - intros floor text Hf Hne Hr Ht.
    assert (E : matchSalary profile range
                = if Qle_bool (inject_Z floor) (parseSalary range)
                  then 10 else 0).
    { unfold matchSalary. rewrite Hf, Hr. cbn [truthyNum truthyOpt].
      destruct text as [|c text]; [congruence|].
      destruct (floor =? 0) eqn:Z0; [apply Z.eqb_eq in Z0; congruence|].
      reflexivity. }
    split; [|split].
    + intros Hle. rewrite E.
      apply Qle_bool_iff in Hle. now rewrite Hle.
    + intros Hlt. rewrite E.
      destruct (Qle_bool _ _) eqn:B; [|reflexivity].
      apply Qle_bool_iff in B. exfalso. now apply (Qlt_not_le _ _ Hlt).
    + intros Hnd. apply salaryToken_none in Hnd.
      assert (P : parseSalary range = 0%Q).
      { rewrite Hr. unfold parseSalary. rewrite Hnd.
        destruct (negb (truthy text)); reflexivity. }
      split; [exact P|]. rewrite E, P.
      unfold Qle_bool, inject_Z. cbn [Qnum Qden].
      rewrite Z.mul_1_r. cbn [Z.mul].
      destruct (floor <? 0) eqn:L.
      * apply Z.ltb_lt in L. destruct (floor <=? 0) eqn:L'; [reflexivity|].
        apply Z.leb_gt in L'. lia.
      * apply Z.ltb_ge in L. destruct (floor <=? 0) eqn:L'; [|reflexivity].
        apply Z.leb_le in L'. lia.
Qed.

(** The amended C9 at the rows of the counterexample. *)
Lemma C9_salary_factor_witness :
  matchSalary Examples.withFloor (Some "Competitive") = 0
  /\ matchSalary Examples.withFloor (Some "$120,000") = 10
  /\ matchSalary Examples.withFloor None = 5.
Proof.
  pose proof (C9_salary_factor Examples.withFloor (Some "Competitive"))
    as [_ H1].
  specialize (H1 50000 "Competitive" eq_refl ltac:(discriminate) eq_refl
                 ltac:(discriminate)) as [_ [_ H1]].
  pose proof (C9_salary_factor Examples.withFloor (Some "$120,000"))
    as [_ H2].
  specialize (H2 50000 "$120,000" eq_refl ltac:(discriminate) eq_refl
                 ltac:(discriminate)) as [H2 _].
  pose proof (C9_salary_factor Examples.withFloor None) as [H3 _].
  split; [|split].
  - apply H1. apply salaryToken_none. reflexivity.
  - apply H2. vm_compute. discriminate.
  - apply H3. right; right; left; reflexivity.
Defined.

End ScoringClaims.

Section Determinism.

(** C5, as the specification states it, fails for the AI-backed scorer:
    two successive calls with the same profile text, listing and
    preferences return different reasons and different totals, because
    the skill factor is the answer of a chat completion. *)
Lemma C5_counterexample :
  exists first second s1 s2,
    AIMatching.calculateMatchScore "Skills: Python" Examples.aiJob
      Examples.aiPreferences Examples.world Examples.idle = (Ok first, s1)
    /\ AIMatching.calculateMatchScore "Skills: Python" Examples.aiJob
         Examples.aiPreferences Examples.world s1 = (Ok second, s2)
    /\ AIMatching.a_reasons first <> AIMatching.a_reasons second
    /\ ~ (AIMatching.a_total first == AIMatching.a_total second)%Q.
Proof.
  do 4 eexists. split; [reflexivity|]. split; [reflexivity|]. split.
  - vm_compute. discriminate.
  - vm_compute. discriminate.
Qed.

(** C5, amended.  The keyword scorer is a function of its arguments
    alone: it returns the same score in every world and state and
    leaves the state as it was.  The AI-backed scorer sends no
    statement to the database, asks for exactly one chat completion,
    and its score is a function of its arguments and of that answer. *)
Theorem C5_scoring_determinism :
  (forall profile skills titles job w1 w2 s1 s2,
      fst (MatchingService.calculateMatchScore profile skills titles job
             w1 s1)
      = fst (MatchingService.calculateMatchScore profile skills titles job
               w2 s2)
      /\ snd (MatchingService.calculateMatchScore profile skills titles job
                w1 s1) = s1)
  /\ (forall userProfile job preferences w s,
         let text :=
           AIMatching.a_title job ++ " "
             ++ match AIMatching.a_description job with
                | Some d => d
                | None => ""
                end in
         exists skillMatch,
           AIMatching.calculateMatchScore userProfile job preferences w s
           = (Ok (AIMatching.scoreWith skillMatch job preferences),
              mkState (db s) (issued s) (S (chats s)) (applies s)
                      (bull_ids s))
           /\ AIMatching.matchSkills userProfile text w s
              = (Ok skillMatch,
                 mkState (db s) (issued s) (S (chats s)) (applies s)
                         (bull_ids s)))
  /\ (forall userProfile job preferences w1 w2 s1 s2,
         (forall p, chat w1 (chats s1) p = chat w2 (chats s2) p) ->
         fst (AIMatching.calculateMatchScore userProfile job preferences
                w1 s1)
         = fst (AIMatching.calculateMatchScore userProfile job preferences
                  w2 s2)).
Proof.
  split; [|split].
  - intros. split; reflexivity.
  - intros userProfile job preferences w s text.
    unfold AIMatching.calculateMatchScore, bind, ret. fold text.
    unfold AIMatching.matchSkills.
    destruct (chat w (chats s) _); eexists; split; reflexivity.
  - intros userProfile job preferences w1 w2 s1 s2 H.
    unfold AIMatching.calculateMatchScore, bind, ret,
      AIMatching.matchSkills.
    rewrite H. destruct (chat w2 (chats s2) _); reflexivity.
Qed.

End Determinism.

(* ================================================================== *)
(** ** The monad *)

Section Monad.

Lemma query_up {A} (stmt : DB -> A * DB) (w : World) (s : State) :
  db_down w (issued s) = false ->
  query stmt w s
  = (Ok (fst (stmt (db s))),
     mkState (snd (stmt (db s))) (S (issued s)) (chats s) (applies s)
             (bull_ids s)).
Proof.
  intros H. unfold query. rewrite H. now destruct (stmt (db s)).
Qed.

Lemma query_down {A} (stmt : DB -> A * DB) (w : World) (s : State) :
  db_down w (issued s) = true ->
  query stmt w s
  = (Throw "database error",
     mkState (db s) (S (issued s)) (chats s) (applies s) (bull_ids s)).
Proof. intros H. unfold query. now rewrite H. Qed.

(** Whatever a statement does to the tables, [query] does that or
    nothing. *)
Lemma query_db {A} (stmt : DB -> A * DB) (w : World) (s : State) :
  (exists a, query stmt w s = (Ok a, snd (query stmt w s))
             /\ a = fst (stmt (db s))
             /\ db (snd (query stmt w s)) = snd (stmt (db s)))
  \/ (exists e, query stmt w s = (Throw e, snd (query stmt w s))
                /\ db (snd (query stmt w s)) = db s).
Proof.
  unfold query. destruct (db_down w (issued s)).
  - right. eexists. split; reflexivity.
  - left. destruct (stmt (db s)) as [a d]. exists a. repeat split.
Qed.

Lemma refused_up {A} (message : string) (w : World) (s : State) :
  db_down w (issued s) = false ->
  @refused A message w s
  = (Throw message,
     mkState (db s) (S (issued s)) (chats s) (applies s) (bull_ids s)).
Proof. intros H. unfold refused. now rewrite H. Qed.

(** A refused statement throws and changes no table, in every world. *)
Lemma refused_throws {A} (message : string) (w : World) (s : State) :
  exists e,
    @refused A message w s
    = (Throw e,
       mkState (db s) (S (issued s)) (chats s) (applies s) (bull_ids s)).
Proof. unfold refused. eexists. reflexivity. Qed.

End Monad.

(* ================================================================== *)
(** ** The statements on [job_matches] *)

Section MatchTable.
Import Sql.

Lemma same_pair_iff (u j : nat) (m : MatchRow) :
  same_pair u j m = true <-> pair_of m = (u, j).
Proof.
  unfold same_pair, pair_of.
  rewrite andb_true_iff, !Nat.eqb_eq. split.
  - now intros [-> ->].
  - intros H. now injection H.
Qed.

Lemma existsb_same_pair (u j : nat) (l : list MatchRow) :
  existsb (same_pair u j) l = true <-> In (u, j) (map pair_of l).
Proof.
  rewrite existsb_exists, in_map_iff. split.
  - intros [m [Hin H]]. exists m. split; [now apply same_pair_iff | exact Hin].
  - intros [m [H Hin]]. exists m. split; [exact Hin | now apply same_pair_iff].
Qed.

Lemma insert_existing (u j : nat) (sc : Z) (rs : list Reason) (d : DB) :
  In (u, j) (map pair_of (job_matches d)) ->
  insert_job_match u j sc rs d = (0%nat, d).
Proof.
  intros H. unfold insert_job_match.
  apply existsb_same_pair in H. now rewrite H.
Qed.

Lemma insert_fresh (u j : nat) (sc : Z) (rs : list Reason) (d : DB) :
  ~ In (u, j) (map pair_of (job_matches d)) ->
  insert_job_match u j sc rs d
  = (1%nat,
     bump_id (set_job_matches
                (job_matches d ++
                   [mkMatch (next_id d) u j sc rs "pending" false false])
                d)).
Proof.
  intros H. unfold insert_job_match.
  destruct (existsb (same_pair u j) (job_matches d)) eqn:E; [|reflexivity].
  apply existsb_same_pair in E. contradiction.
Qed.

Lemma insert_has_pair (u j : nat) (sc : Z) (rs : list Reason) (d : DB) :
  In (u, j) (map pair_of (job_matches (snd (insert_job_match u j sc rs d)))).
Proof.
  unfold insert_job_match.
  destruct (existsb (same_pair u j) (job_matches d)) eqn:E.
  - now apply existsb_same_pair.
  - cbn. rewrite map_app, in_app_iff. right. now left.
Qed.

Lemma insert_keeps_unique (u j : nat) (sc : Z) (rs : list Reason) (d : DB) :
  pairs_unique d -> pairs_unique (snd (insert_job_match u j sc rs d)).
Proof.
  unfold pairs_unique, insert_job_match. intros H.
  destruct (existsb (same_pair u j) (job_matches d)) eqn:E; [exact H|].
  cbn. rewrite map_app. cbn.
  assert (N : ~ In (u, j) (map pair_of (job_matches d))).
  { intros C. apply existsb_same_pair in C. congruence. }
  clear E. induction (map pair_of (job_matches d)) as [|x l IH]; cbn.
  - constructor; [intros [] | constructor].
  - inversion H as [|? ? Hx Hl]; subst. constructor.
    + rewrite in_app_iff. intros [C | [C | []]]; [contradiction|].
      apply N. now left.
    + apply IH; [exact Hl|]. intros C. apply N. now right.
Qed.

(** Under the constraint, the rows of a pair are at most one. *)
Lemma unique_count (u j : nat) (l : list MatchRow) :
  NoDup (map pair_of l) ->
  (List.length (filter (same_pair u j) l) <= 1)%nat.
Proof.
  induction l as [|m l IH]; cbn; intros H; [lia|].
  inversion H as [|? ? Hm Hl]; subst.
  destruct (same_pair u j m) eqn:E.
  - apply same_pair_iff in E. rewrite E in Hm.
    assert (Z0 : filter (same_pair u j) l = []).
    { destruct (filter (same_pair u j) l) as [|x r] eqn:F; [reflexivity|].
      exfalso. apply Hm.
      assert (Hx : In x (filter (same_pair u j) l)) by (rewrite F; now left).
      apply filter_In in Hx as [Hx Hp]. apply same_pair_iff in Hp.
      rewrite <- Hp. now apply in_map. }
    rewrite Z0. cbn. lia.
  - now apply IH.
Qed.

Lemma present_count (u j : nat) (l : list MatchRow) :
  In (u, j) (map pair_of l) ->
  (1 <= List.length (filter (same_pair u j) l))%nat.
Proof.
  intros H. apply in_map_iff in H as [m [Hp Hin]].
  assert (Hf : In m (filter (same_pair u j) l)).
  { apply filter_In. split; [exact Hin | now apply same_pair_iff]. }
  destruct (filter (same_pair u j) l); [destruct Hf | cbn; lia].
Qed.

End MatchTable.

(* ================================================================== *)
(** ** [matchJobsForUser] *)

Section MatchJobs.
Import Sql MatchingService.

Lemma In_insert_desc (j x : JobListing) (l : list JobListing) :
  In x (insert_desc j l) <-> x = j \/ In x l.
Proof.
  induction l as [|y l IH]; cbn.
  - intuition congruence.
  - destruct (j_scraped_at y <=? j_scraped_at j); cbn.
    + intuition congruence.
    + rewrite IH. intuition congruence.
Qed.

Lemma In_order_by (x : JobListing) (l : list JobListing) :
  In x (order_by_scraped_desc l) <-> In x l.
Proof.
  induction l as [|y l IH]; cbn; [reflexivity|].
  rewrite In_insert_desc, IH. intuition congruence.
Qed.

Lemma In_firstn {A} (n : nat) (x : A) (l : list A) :
  In x (firstn n l) -> In x l.
Proof.
  intros H. rewrite <- (firstn_skipn n l). apply in_or_app. now left.
Qed.

(** What the listing query returns was in [job_listings], and was not
    yet matched for the user. *)
Lemma select_unmatched_sound (uid : nat) (d : DB) (job : JobListing) :
  In job (fst (select_unmatched_jobs uid d)) ->
  In job (job_listings d)
  /\ j_is_active job = true
  /\ ~ In (uid, j_id job) (map pair_of (job_matches d)).
Proof.
  unfold select_unmatched_jobs. cbn [fst]. intros H.
  apply In_firstn, In_order_by, filter_In in H as [Hin H].
  apply andb_true_iff in H as [H Hnot].
  apply andb_true_iff in H as [Hact _].
  repeat split; [exact Hin | exact Hact |].
  intros C. apply negb_true_iff in Hnot.
  assert (E : existsb (Nat.eqb (j_id job)) (matched_job_ids uid d) = true).
  { apply existsb_exists. exists (j_id job). split; [|apply Nat.eqb_refl].
    unfold matched_job_ids. apply in_map_iff in C as [m [Hp Hm]].
    apply in_map_iff. exists m. unfold pair_of in Hp. injection Hp as Hu Hj.
    split; [exact Hj|]. apply filter_In. split; [exact Hm|].
    now apply Nat.eqb_eq. }
  congruence.
Qed.

Section Loop.
Variables (P : DB -> Prop) (R : MatchSummary -> Prop).
Variables (uid : nat) (limit : Z) (profile : UserProfile).
Variables (skills titles : list string).

Let scoreOf (job : JobListing) : Score :=
  Matching.calculateMatchScore profile skills titles job.

(** The loop never throws; it keeps every property of the tables that
    the insertions of its above-threshold listings keep. *)
Lemma matchLoop_inv (jobs : list JobListing) :
  (forall job d, In job jobs -> 60 <= total (scoreOf job) -> P d ->
                 P (snd (insert_job_match uid (j_id job)
                           (total (scoreOf job)) (reasons (scoreOf job))
                           d))) ->
  (forall job, In job jobs -> 60 <= total (scoreOf job) ->
               R (summary job (scoreOf job))) ->
  forall matches w s,
    P (db s) -> Forall R matches ->
    exists ms s',
      matchLoop uid limit profile skills titles jobs matches w s
      = (Ok ms, s')
      /\ P (db s') /\ Forall R ms.
Proof.
  induction jobs as [|job jobs IH]; intros HP HR matches w s Hs Hm.
  - exists matches, s. repeat split; assumption.
  - cbn [matchLoop].
    unfold bind at 1, MatchingService.calculateMatchScore, ret at 1.
    fold (scoreOf job).
    assert (IH' : forall matches' s1, P (db s1) -> Forall R matches' ->
              exists ms s',
                (if limit <=? Z.of_nat (List.length matches')
                 then ret matches'
                 else matchLoop uid limit profile skills titles jobs
                                matches') w s1 = (Ok ms, s')
                /\ P (db s') /\ Forall R ms).
    { intros matches' s1 H1 H2.
      destruct (limit <=? Z.of_nat (List.length matches')).
      - exists matches', s1. repeat split; assumption.
      - apply IH; auto.
        + intros j d Hj. apply HP. now right.
        + intros j Hj. apply HR. now right. }
    unfold bind at 1.
    destruct (60 <=? total (scoreOf job)) eqn:T.
    + apply Z.leb_le in T. unfold tryCatch, bind, query, ret at 1 2.
      destruct (db_down w (issued s)).
      * apply IH'; assumption.
      * destruct (insert_job_match uid (j_id job) (total (scoreOf job))
                    (reasons (scoreOf job)) (db s)) as [n d] eqn:E.
        apply IH'.
        -- cbn [db].
           replace d with
             (snd (insert_job_match uid (j_id job) (total (scoreOf job))
                     (reasons (scoreOf job)) (db s)))
             by now rewrite E.
           apply HP; [now left | exact T | exact Hs].
        -- apply Forall_app. split; [exact Hm|].
           constructor; [|constructor]. apply HR; [now left | exact T].
    + unfold ret at 1. apply IH'; assumption.
Qed.

End Loop.

(** How the [try] block of [matchJobsForUser] ends: it throws before
    any write, or returns nothing without a write, or runs the loop on
    the listings selected for the first profile row of the user. *)
Lemma matchJobsBody_cases (uid : nat) (limit : Z) (w : World) (s : State) :
  (exists e s', matchJobsBody uid limit w s = (Throw e, s')
                /\ db s' = db s)
  \/ (exists s', matchJobsBody uid limit w s = (Ok [], s')
                 /\ db s' = db s)
  \/ (exists profile rest s1,
         filter (fun p => (p_user_id p =? uid)%nat) (user_profiles (db s))
         = profile :: rest
         /\ db s1 = db s
         /\ matchJobsBody uid limit w s
            = matchLoop uid limit profile (jsonItems (p_skills profile))
                        (jsonItems (p_desired_job_titles profile))
                        (fst (select_unmatched_jobs uid (db s))) [] w s1).
Proof.
  destruct (matchJobsBody uid limit w s) as [r s'] eqn:E. revert E.
  unfold matchJobsBody, bind, query, parseOrEmpty, ret, throw.
  cbn [select_profile select_unmatched_jobs fst snd].
  destruct (db_down w (issued s)).
  { intros E; injection E as <- <-. left. do 2 eexists. split; reflexivity. }
  destruct (filter _ (user_profiles (db s))) as [|profile rest] eqn:F.
  { intros E; injection E as <- <-. right; left. eexists.
    split; reflexivity. }
  destruct (p_skills profile) eqn:Sk;
    try (intros E; injection E as <- <-; left; do 2 eexists;
         split; reflexivity).
  all: destruct (p_desired_job_titles profile) eqn:Ti;
    try (intros E; injection E as <- <-; left; do 2 eexists;
         split; reflexivity).
  all: cbn [issued db].
  all: destruct (db_down w (S (issued s)));
    try (intros E; injection E as <- <-; left; do 2 eexists;
         split; reflexivity).
  all: match goal with
       | |- context [match ?l with [] => _ | _ :: _ => _ end] =>
           destruct l eqn:J
       end.
  all: try (intros E; injection E as <- <-; right; left; eexists;
            split; reflexivity).
  all: intros E; right; right; exists profile, rest; eexists.
  all: split; [reflexivity|]. 
  all: split; [|rewrite ?Sk, ?Ti, <- E; reflexivity].
  all: reflexivity.
Qed.

Lemma matchJobsForUser_returns (uid : nat) (limit : Z) (w : World)
      (s : State) :
  exists ms s', matchJobsForUser uid limit w s = (Ok ms, s').
Proof.
  unfold matchJobsForUser, tryCatch.
  destruct (matchJobsBody uid limit w s) as [[ms|e] s'];
    do 2 eexists; reflexivity.
Qed.

(** The invariant of the loop, carried to the whole method. *)
Lemma matchJobsForUser_inv (P : DB -> Prop) (R : MatchSummary -> Prop)
      (uid : nat) (limit : Z) (w : World) (s : State) :
  (forall profile rest job d,
      filter (fun p => (p_user_id p =? uid)%nat) (user_profiles (db s))
      = profile :: rest ->
      In job (fst (select_unmatched_jobs uid (db s))) ->
      let sc := Matching.calculateMatchScore profile
                  (jsonItems (p_skills profile))
                  (jsonItems (p_desired_job_titles profile)) job in
      60 <= total sc ->
      R (summary job sc)
      /\ (P d -> P (snd (insert_job_match uid (j_id job) (total sc)
                           (reasons sc) d)))) ->
  P (db s) ->
  exists ms s',
    matchJobsForUser uid limit w s = (Ok ms, s')
    /\ P (db s') /\ Forall R ms.
Proof.
  intros H Hs. unfold matchJobsForUser, tryCatch.
  destruct (matchJobsBody_cases uid limit w s)
    as [[e [s' [E D]]] | [[s' [E D]] | [profile [rest [s1 [F [D E]]]]]]].
  - rewrite E. exists [], s'. rewrite D. repeat split; auto.
  - rewrite E. exists [], s'. rewrite D. repeat split; auto.
  - rewrite E.
    destruct (matchLoop_inv P R uid limit profile
                (jsonItems (p_skills profile))
                (jsonItems (p_desired_job_titles profile))
                (fst (select_unmatched_jobs uid (db s))))
      with (matches := @nil MatchSummary) (w := w) (s := s1)
      as [ms [s' [E' [HP HR]]]].
    + intros job d Hj T. now apply (H profile rest job d F Hj T).
    + intros job Hj T. now apply (H profile rest job (db s) F Hj T).
    + now rewrite D.
    + constructor.
    + rewrite E'. exists ms, s'. repeat split; assumption.
Qed.

End MatchJobs.

Section RepositoryClaims.
Import Sql MatchingService.


Lemma insert_again (u j : nat) (d : DB) (again : list (Z * list Reason)) :
  In (u, j) (map pair_of (job_matches d)) ->
  fold_left (fun d c => snd (insert_job_match u j (fst c) (snd c) d))
            again d = d
  /\ Forall (fun c => fst (insert_job_match u j (fst c) (snd c) d) = 0%nat)
            again.
Proof.
  intros H. induction again as [|c again [IH1 IH2]]; cbn.
  - split; [reflexivity | constructor].
  - rewrite (insert_existing u j (fst c) (snd c) d H). cbn [snd].
    split; [exact IH1|]. constructor; [|exact IH2].
    now rewrite (insert_existing u j (fst c) (snd c) d H).
Qed.

Lemma matchJobsForUser_keeps_pairs_unique (uid : nat) (limit : Z)
      (w : World) (s : State) :
  pairs_unique (db s) ->
  pairs_unique (db (snd (matchJobsForUser uid limit w s))).
Proof.
  intros H.
  destruct (matchJobsForUser_inv pairs_unique (fun _ => True) uid limit w s)
    as [ms [s' [E [HP _]]]].
  - intros profile rest job d _ _ sc _. split; [exact I|].
    apply insert_keeps_unique.
  - exact H.
  - now rewrite E.
Qed.

(** C1.  The insertion into [job_matches] is insert-if-absent on the
    pair (user, listing).  Under the table's uniqueness constraint,
    after a first insertion for a pair any number of further
    insertions for it, with whatever score and reasons, insert no row
    and change nothing: exactly one row of the pair exists and the
    constraint still holds.  The statement raises no conflict error:
    whenever the database is reachable it returns its row count.
    [matchJobsForUser] as a whole keeps the constraint. *)
Theorem C1_record_match_idempotent (d : DB) (u j : nat) (sc : Z)
        (rs : list Reason) (again : list (Z * list Reason)) :
  pairs_unique d ->
  let once := snd (insert_job_match u j sc rs d) in
  let after :=
    fold_left (fun d c => snd (insert_job_match u j (fst c) (snd c) d))
              again once in
  after = once
  /\ List.length (filter (same_pair u j) (job_matches after)) = 1%nat
  /\ pairs_unique after
  /\ Forall (fun c => fst (insert_job_match u j (fst c) (snd c) once)
                      = 0%nat) again
  /\ (forall w s score reasons,
         db_down w (issued s) = false ->
         exists n s',
           query (insert_job_match u j score reasons) w s = (Ok n, s'))
  /\ (forall uid limit w s,
         pairs_unique (db s) ->
         pairs_unique (db (snd (matchJobsForUser uid limit w s)))).
Proof.
  intros U once after.
  pose proof (insert_has_pair u j sc rs d) as Hin. fold once in Hin.
  pose proof (insert_keeps_unique u j sc rs d U) as U1. fold once in U1.
  destruct (insert_again u j once again Hin) as [E F]. fold after in E.
  split; [exact E|]. rewrite E.
  split; [|split; [exact U1 | split; [exact F | split]]].
  - pose proof (unique_count u j (job_matches once) U1).
    pose proof (present_count u j (job_matches once) Hin). lia.
  - intros w s score reasons Hup. rewrite query_up by exact Hup.
    do 2 eexists. reflexivity.
  - intros uid limit w s. apply matchJobsForUser_keeps_pairs_unique.
Qed.

(** C1 on an empty table: three insertions for the pair (1, 7) leave
    one row. *)
Lemma C1_record_match_idempotent_witness :
  List.length
    (filter (same_pair 1 7)
       (job_matches
          (fold_left
             (fun d c => snd (insert_job_match 1 7 (fst c) (snd c) d))
             [(95, []); (80, [])]
             (snd (insert_job_match 1 7 95 [] Examples.emptyDB)))))
  = 1%nat.
Proof.
  exact (proj1 (proj2 (C1_record_match_idempotent
                         Examples.emptyDB 1 7 95 [] [(95, []); (80, [])]
                         (NoDup_nil _)))).
Defined.


(** [matchJobsForUser] never throws.  It returns the empty list when
    the user has no profile row, and whenever its [try] block throws:
    in particular when the database cannot be reached for the first
    statement, and when a JSON column of the profile does not
    parse. *)
Lemma matchJobsForUser_catches (uid : nat) (limit : Z)
        (w : World) (s : State) :
  (exists ms s', matchJobsForUser uid limit w s = (Ok ms, s'))
  /\ (filter (fun p => (p_user_id p =? uid)%nat) (user_profiles (db s)) = []
      -> fst (matchJobsForUser uid limit w s) = Ok [])
  /\ (forall e s',
         matchJobsBody uid limit w s = (Throw e, s') ->
         matchJobsForUser uid limit w s = (Ok [], s'))
  /\ (db_down w (issued s) = true ->
      exists e s', matchJobsBody uid limit w s = (Throw e, s'))
  /\ (forall profile rest,
         db_down w (issued s) = false ->
         filter (fun p => (p_user_id p =? uid)%nat) (user_profiles (db s))
         = profile :: rest ->
         p_skills profile = JMalformed
         \/ p_desired_job_titles profile = JMalformed ->
         exists e s', matchJobsBody uid limit w s = (Throw e, s')).
Proof.
  split; [apply matchJobsForUser_returns|].
  split; [|split; [|split]].
  - intros F. unfold matchJobsForUser, tryCatch, matchJobsBody, bind, query.
    destruct (db_down w (issued s)); [reflexivity|].
    cbn [select_profile fst snd]. rewrite F. reflexivity.
  - intros e s' E. unfold matchJobsForUser, tryCatch. now rewrite E.
  - intros D. unfold matchJobsBody, bind, query. rewrite D.
    do 2 eexists. reflexivity.
  - intros profile rest D F H.
    unfold matchJobsBody, bind, query. rewrite D.
    cbn [select_profile fst snd]. rewrite F.
    unfold parseOrEmpty.
    destruct H as [H | H]; rewrite H.
    + do 2 eexists. reflexivity.
    + destruct (p_skills profile); do 2 eexists; reflexivity.
Qed.

End RepositoryClaims.

(* ================================================================== *)
(** ** The review routes *)

Section Review.

Lemma filter_hit {A} (f : A -> bool) (l : list A) (a : A) :
  In a l -> f a = true ->
  exists x r, filter f l = x :: r /\ In x l /\ f x = true.
Proof.
  intros Hin Hf.
  destruct (filter f l) as [|x r] eqn:E.
  - assert (H : In a (filter f l)) by (apply filter_In; auto).
    rewrite E in H. destruct H.
  - exists x, r. split; [reflexivity|].
    assert (H : In x (filter f l)) by (rewrite E; now left).
    now apply filter_In in H.
Qed.

Lemma targets_self (m : MatchRow) :
  Sql.targets (m_id m) (m_user_id m) m = true.
Proof. unfold Sql.targets. now rewrite !Nat.eqb_refl. Qed.

Lemma queued_for_app (mid : nat) (d : DB) (q : QueueRow) :
  queued_for mid
    (bump_id (set_application_queue (application_queue d ++ [q]) d))
  = (queued_for mid d
     ++ match q_match_id q with
        | Some m => if (m =? mid)%nat then [q] else []
        | None => []
        end)%list.
Proof.
  unfold queued_for. cbn. rewrite filter_app. cbn.
  destruct (q_match_id q) as [m|]; [destruct (m =? mid)%nat|]; reflexivity.
Qed.

(** What the guest route does when the database is reachable, the
    token is known and the match is the guest's. *)
Lemma guest_review_ok (w : World) (s : State) (token : string)
      (u : UserRow) (others : list UserRow) (m : MatchRow)
      (approved : bool) :
  db_up w ->
  filter (fun x => String.eqb (u_tracking_token x) token) (users (db s))
  = u :: others ->
  In m (job_matches (db s)) -> m_user_id m = u_id u ->
  let status := if approved then "approved" else "rejected" in
  let d1 := snd (GuestRoute.update_review approved status (m_id m) (u_id u)
                   (db s)) in
  exists row message s',
    GuestRoute.review token (m_id m) (Some approved) w s
    = (Ok (Json200 message row), s')
    /\ db s' = (if approved
                then snd (GuestRoute.insert_queue (u_id u) (m_id m) d1)
                else d1)
    /\ m_reviewed row = true /\ m_approved row = approved
    /\ m_status row = status.
Proof.
  intros Up F Hin Hu status d1.
  unfold GuestRoute.review, tryCatch, bind.
  rewrite query_up by apply Up. cbn [GuestRoute.select_user fst snd db].
  rewrite F.
  rewrite query_up by apply Up.
  cbn [GuestRoute.update_review fst snd db issued].
  destruct (filter_hit (Sql.targets (m_id m) (u_id u))
              (job_matches (db s)) m Hin) as [x [r [E [_ _]]]].
  { rewrite <- Hu. apply targets_self. }
  rewrite E. cbn [map].
  destruct approved.
  - rewrite query_up by apply Up. unfold ret.
    do 3 eexists. split; [reflexivity|]. cbn [db].
    repeat split.
  - unfold ret. do 3 eexists. split; [reflexivity|]. repeat split.
Qed.

(** C2, as the specification states it, fails: reviewing a match that
    was already rejected succeeds, and turns it into an approved one. *)
Lemma C2_counterexample :
  m_reviewed Examples.rejected = true
  /\ In Examples.rejected (job_matches (db Examples.afterRejection))
  /\ exists row s',
      GuestRoute.review "tok" 5 (Some true) Examples.world
                        Examples.afterRejection
      = (Ok (Json200 "Match approved - application queued" row), s')
      /\ job_matches (db s') = [row]
      /\ m_approved Examples.rejected = false /\ m_approved row = true
      /\ m_status Examples.rejected = "rejected"
      /\ m_status row = "approved"
      /\ fst (MatchingService.reviewMatch 1 5 true Examples.world
                Examples.afterRejection)
         = Ok (Some (Sql.review_row true Examples.rejected)).
Proof.
  split; [reflexivity|]. split; [now left|].
  do 2 eexists. split; [reflexivity|]. repeat split.
Qed.

(** A review repeats what is stored exactly when it changes nothing:
    on the service method and the jobs route that is the decision, on
    the guest route the decision and the status. *)
Lemma review_row_fixed (approved : bool) (m : MatchRow) :
  m_reviewed m = true ->
  (Sql.review_row approved m = m <-> m_approved m = approved).
Proof.
  intros Hrev. destruct m; cbn in *. subst. split.
  - intros H. now injection H.
  - now intros ->.
Qed.

Lemma guest_review_row_fixed (approved : bool) (status : string)
      (m : MatchRow) :
  m_reviewed m = true ->
  (GuestRoute.review_row approved status m = m
   <-> m_approved m = approved /\ m_status m = status).
Proof.
  intros Hrev. destruct m; cbn in *. subst. split.
  - intros H. injection H. auto.
  - now intros [-> ->].
Qed.

(** C2, amended.  No review is refused for a match that was already
    reviewed.  When the database is reachable, a review of such a
    match by its owner writes [reviewed = TRUE] and the new decision
    on every path: the service method returns the row, the guest route
    (which also writes the matching status) answers with status 200,
    and so does the jobs route to a rejection; to an approval the jobs
    route answers 500 after the row was written, because its
    statement on [application_queue] is refused.  The row is left as
    it was exactly when the review repeats what is stored (on the
    guest route: the decision and the status), and is overwritten
    otherwise. *)
Theorem C2_review_overwrites (w : World) (s : State) (m : MatchRow)
        (approved : bool) (token : string) (u : UserRow)
        (others : list UserRow) :
  db_up w ->
  In m (job_matches (db s)) -> m_reviewed m = true ->
  filter (fun x => String.eqb (u_tracking_token x) token) (users (db s))
  = u :: others ->
  m_user_id m = u_id u ->
  (exists row s',
      MatchingService.reviewMatch (m_user_id m) (m_id m) approved w s
      = (Ok (Some row), s')
      /\ m_reviewed row = true /\ m_approved row = approved
      /\ In (Sql.review_row approved m) (job_matches (db s')))
  /\ (exists response s',
         JobsRoute.review (m_user_id m) (m_id m) (Some approved) w s
         = (Ok response, s')
         /\ In (Sql.review_row approved m) (job_matches (db s'))
         /\ (approved = false ->
             exists row,
               response = Json200 "Match rejected" row
               /\ m_reviewed row = true /\ m_approved row = false)
         /\ (approved = true ->
             response = Error500 "Failed to review match"))
  /\ (exists row message s',
         GuestRoute.review token (m_id m) (Some approved) w s
         = (Ok (Json200 message row), s')
         /\ m_reviewed row = true /\ m_approved row = approved
         /\ m_status row = (if approved then "approved" else "rejected")
         /\ In (GuestRoute.review_row approved
                  (if approved then "approved" else "rejected") m)
               (job_matches (db s')))
  /\ (Sql.review_row approved m = m <-> m_approved m = approved)
  /\ (GuestRoute.review_row approved
        (if approved then "approved" else "rejected") m = m
      <-> m_approved m = approved
          /\ m_status m = (if approved then "approved" else "rejected")).
Proof.
  intros Up Hin Hrev F Hu.
  destruct (filter_hit (Sql.targets (m_id m) (m_user_id m))
              (job_matches (db s)) m Hin (targets_self m))
    as [x [r [E [_ _]]]].
  assert (Hm : In (Sql.review_row approved m)
                  (map (fun r => if Sql.targets (m_id m) (m_user_id m) r
                                 then Sql.review_row approved r else r)
                       (job_matches (db s)))).
  { apply in_map_iff. exists m. now rewrite targets_self. }
  assert (Svc : exists row s',
             MatchingService.reviewMatch (m_user_id m) (m_id m) approved w s
             = (Ok (Some row), s')
             /\ m_reviewed row = true /\ m_approved row = approved
             /\ db s' = snd (Sql.update_review approved (m_id m)
                               (m_user_id m) (db s))).
  { unfold MatchingService.reviewMatch, tryCatch, bind.
    rewrite query_up by apply Up. cbn [Sql.update_review fst snd db].
    rewrite E. cbn [map hd_error]. unfold ret.
    do 2 eexists. split; [reflexivity|]. repeat split. }
  split; [|split; [|split; [|split]]].
  - destruct Svc as [row [s' [R [H1 [H2 D]]]]].
    exists row, s'. rewrite D. repeat split; auto.
  - destruct Svc as [row [s' [R [H1 [H2 D]]]]].
    unfold JobsRoute.review, tryCatch, bind at 1. rewrite R.
    destruct approved.
    + unfold bind, JobsRoute.insert_queue.
      rewrite refused_up by apply Up. unfold ret.
      do 2 eexists. split; [reflexivity|]. cbn [db]. rewrite D.
      split; [exact Hm|]. split; [discriminate|reflexivity].
    + unfold bind, ret. do 2 eexists. split; [reflexivity|].
      rewrite D. split; [exact Hm|]. split; [|discriminate].
      intros _. exists row. auto.
  - destruct (guest_review_ok w s token u others m approved Up F Hin Hu)
      as [row [message [s' [R [D [H1 [H2 H3]]]]]]].
    exists row, message, s'. repeat split; auto.
    rewrite D.
    assert (In (GuestRoute.review_row approved
                  (if approved then "approved" else "rejected") m)
               (job_matches
                  (snd (GuestRoute.update_review approved
                          (if approved then "approved" else "rejected")
                          (m_id m) (u_id u) (db s))))).
    { cbn. apply in_map_iff. exists m. rewrite <- Hu.
      now rewrite targets_self. }
    destruct approved; [cbn in *|]; assumption.
  - now apply review_row_fixed.
  - now apply guest_review_row_fixed.
Qed.

(** The amended C2 at the rejected match of the counterexample: a
    second rejection leaves the row as it is, an approval does not,
    and the jobs route answers the approval with status 500. *)
Lemma C2_review_overwrites_witness :
  Sql.review_row false Examples.rejected = Examples.rejected
  /\ GuestRoute.review_row false "rejected" Examples.rejected
     = Examples.rejected
  /\ Sql.review_row true Examples.rejected <> Examples.rejected
  /\ fst (JobsRoute.review 1 5 (Some true) Examples.world
            Examples.afterRejection)
     = Ok (Error500 "Failed to review match").
Proof.
  pose proof (fun a =>
                C2_review_overwrites Examples.world Examples.afterRejection
                  Examples.rejected a "tok" (mkUser 1 "tok") []
                  (fun k => eq_refl) (or_introl eq_refl) eq_refl eq_refl
                  eq_refl) as H.
  destruct (H false) as [_ [_ [_ [A B]]]].
  destruct (H true) as [_ [[response [s' [R [_ [_ R500]]]]] [_ [C _]]]].
  split; [|split; [|split]].
  - apply A. reflexivity.
  - apply B. split; reflexivity.
  - intros D. apply C in D. discriminate.
  - change (JobsRoute.review 1 5 (Some true) Examples.world
              Examples.afterRejection)
      with (JobsRoute.review (m_user_id Examples.rejected)
              (m_id Examples.rejected) (Some true) Examples.world
              Examples.afterRejection).
    rewrite R. cbn [fst]. now rewrite R500.
Defined.

End Review.

Section Enqueue.

Lemma queued_for_matches (mid : nat) (ms : list MatchRow) (d : DB) :
  queued_for mid (set_job_matches ms d) = queued_for mid d.
Proof. reflexivity. Qed.

Lemma queued_for_insert (mid other : nat) (jobId : option nat)
      (user : option nat) (d : DB) :
  queued_for other
    (bump_id (set_application_queue
                (application_queue d ++
                   [mkQueue (next_id d) user jobId (Some mid) "pending" 0
                            None false])
                d))
  = (queued_for other d
     ++ if (mid =? other)%nat
        then [mkQueue (next_id d) user jobId (Some mid) "pending" 0 None
                      false]
        else [])%list.
Proof. now rewrite queued_for_app. Qed.

Ltac step_query :=
  match goal with
  | |- context [query ?stmt ?w ?s] =>
      let D := fresh "D" in
      destruct (db_down w (issued s)) eqn:D;
      [rewrite (query_down stmt w s D) | rewrite (query_up stmt w s D)]
  end.

(** One request to the guest route: it always answers, and adds one
    queue row for the match exactly when it approves and answers 200. *)
Lemma guest_review_queue (w : World) (s : State) (token : string)
      (mid : nat) (approved : option bool) :
  exists response s',
    GuestRoute.review token mid approved w s = (Ok response, s')
    /\ List.length (queued_for mid (db s'))
       = (List.length (queued_for mid (db s)) + enqueued approved response)%nat
    /\ forall other, other <> mid ->
                     queued_for other (db s') = queued_for other (db s).
Proof.
  unfold GuestRoute.review, tryCatch.
  destruct approved as [approved|].
  2:{ unfold ret. do 2 eexists. split; [reflexivity|]. cbn. split; [now rewrite Nat.add_0_r|].
      reflexivity. }
  unfold bind at 1. step_query.
  { unfold ret. do 2 eexists. split; [reflexivity|]. cbn [db enqueued].
    destruct approved; split; rewrite ?Nat.add_0_r; reflexivity. }
  cbn [GuestRoute.select_user fst snd].
  destruct (filter _ (users (db s))) as [|user others].
  { unfold ret. do 2 eexists. split; [reflexivity|]. cbn [db enqueued].
    destruct approved; split; rewrite ?Nat.add_0_r; reflexivity. }
  unfold bind at 1. step_query.
  { unfold ret. do 2 eexists. split; [reflexivity|]. cbn [db enqueued].
    destruct approved; split; rewrite ?Nat.add_0_r; reflexivity. }
  cbn [GuestRoute.update_review fst snd db].
  destruct (map _ (filter _ (job_matches (db s)))) as [|row rows].
  { unfold ret. do 2 eexists. split; [reflexivity|]. cbn [db enqueued].
    rewrite queued_for_matches.
    destruct approved; split; rewrite ?Nat.add_0_r; reflexivity. }
  destruct approved.
  - unfold bind. step_query.
    + unfold ret. do 2 eexists. split; [reflexivity|]. cbn [db enqueued].
      rewrite queued_for_matches.  split; [now rewrite Nat.add_0_r | reflexivity].
    + unfold ret. do 2 eexists. split; [reflexivity|].
      cbn [db enqueued GuestRoute.insert_queue snd].
      split.
      * rewrite queued_for_insert, Nat.eqb_refl, length_app. reflexivity.
      * intros other Hne. rewrite queued_for_insert.
        assert (Hb : (mid =? other)%nat = false)
          by (apply Nat.eqb_neq; congruence).
        rewrite Hb, app_nil_r. reflexivity.
  - unfold bind, ret. do 2 eexists. split; [reflexivity|].
    cbn [db enqueued]. rewrite queued_for_matches.
    split; [now rewrite Nat.add_0_r | reflexivity].
Qed.

Lemma jobs_review_queue (w : World) (s : State) (uid mid : nat)
      (approved : option bool) :
  exists response s',
    JobsRoute.review uid mid approved w s = (Ok response, s')
    /\ List.length (queued_for mid (db s'))
       = (List.length (queued_for mid (db s)) + enqueued approved response)%nat
    /\ forall other, other <> mid ->
                     queued_for other (db s') = queued_for other (db s).
Proof.
  unfold JobsRoute.review, tryCatch.
  destruct approved as [approved|].
  2:{ unfold ret. do 2 eexists. split; [reflexivity|]. cbn. split; [now rewrite Nat.add_0_r|].
      reflexivity. }
  unfold bind at 1, MatchingService.reviewMatch, tryCatch, bind at 1.
  step_query.
  { unfold throw, ret. do 2 eexists. split; [reflexivity|].
    cbn [db enqueued].
    destruct approved; split; rewrite ?Nat.add_0_r; reflexivity. }
  cbn [Sql.update_review fst snd]. unfold ret at 1.
  destruct (hd_error _) as [row|].
  2:{ unfold ret. do 2 eexists. split; [reflexivity|]. cbn [db enqueued].
      rewrite queued_for_matches.
      destruct approved; split; rewrite ?Nat.add_0_r; reflexivity. }
  destruct approved.
  - unfold bind, JobsRoute.insert_queue, refused, ret.
    do 2 eexists. split; [reflexivity|]. cbn [db enqueued].
    rewrite queued_for_matches.
    split; [now rewrite Nat.add_0_r | reflexivity].
  - unfold bind, ret. do 2 eexists. split; [reflexivity|].
    cbn [db enqueued]. rewrite queued_for_matches.
    split; [now rewrite Nat.add_0_r | reflexivity].
Qed.

End Enqueue.

Section EnqueueClaims.

(** A sequence of guest reviews of a match the guest owns, with the
    database reachable: every approval adds a queue row. *)
Lemma reviewAll_counts (w : World) (token : string) (u : UserRow)
      (others : list UserRow) (mid : nat) (decisions : list bool) :
  db_up w ->
  forall s,
    filter (fun x => String.eqb (u_tracking_token x) token) (users (db s))
    = u :: others ->
    (exists m, In m (job_matches (db s))
               /\ m_id m = mid /\ m_user_id m = u_id u) ->
    List.length
      (queued_for mid (db (snd (GuestRoute.reviewAll token mid decisions
                                  w s))))
    = (List.length (queued_for mid (db s))
       + count_occ bool_dec decisions true)%nat.
Proof.
  intros Up. induction decisions as [|a decisions IH]; intros s F [m [Hin [Hid Hu]]].
  - cbn. now rewrite Nat.add_0_r.
  - cbn [GuestRoute.reviewAll]. unfold bind at 1.
    destruct (guest_review_ok w s token u others m a Up F Hin Hu)
      as [row [message [s' [R [D [_ [_ _]]]]]]].
    rewrite Hid in R, D. rewrite R.
    assert (Hus : users (db s') = users (db s)).
    { rewrite D. destruct a; reflexivity. }
    assert (Hm : exists m', In m' (job_matches (db s'))
                            /\ m_id m' = mid /\ m_user_id m' = u_id u).
    { exists (GuestRoute.review_row a
                (if a then "approved" else "rejected") m).
      split; [|split; [exact Hid | exact Hu]].
      assert (In (GuestRoute.review_row a
                    (if a then "approved" else "rejected") m)
                 (job_matches
                    (snd (GuestRoute.update_review a
                            (if a then "approved" else "rejected")
                            mid (u_id u) (db s))))).
      { cbn. apply in_map_iff. exists m. split; [|exact Hin].
        rewrite <- Hid, <- Hu. now rewrite targets_self. }
      rewrite D. destruct a; [cbn in *|]; assumption. }
    assert (Hq : List.length (queued_for mid (db s'))
                 = (List.length (queued_for mid (db s))
                    + if a then 1 else 0)%nat).
    { rewrite D. destruct a.
      - cbn [GuestRoute.insert_queue snd].
        rewrite queued_for_insert, Nat.eqb_refl, length_app. reflexivity.
      - now rewrite Nat.add_0_r. }
    specialize (IH s'). rewrite Hus in IH. specialize (IH F Hm).
    unfold bind.
    destruct (GuestRoute.reviewAll token mid decisions w s')
      as [[responses|e] s''] eqn:E; cbn [snd] in *.
    + unfold ret. cbn [snd]. rewrite IH, Hq.
      destruct a; cbn [count_occ]; destruct (bool_dec _ _); try congruence;
        lia.
    + rewrite IH, Hq.
      destruct a; cbn [count_occ]; destruct (bool_dec _ _); try congruence;
        lia.
Qed.

(** C3, as the specification states it, fails in its last part: two
    approving reviews of the same match are both accepted and leave
    two queue rows for it. *)
Lemma C3_counterexample :
  exists first second s',
    GuestRoute.reviewAll "tok" 5 [true; true] Examples.world
                         Examples.beforeReview
    = (Ok [Json200 "Match approved - application queued" first;
           Json200 "Match approved - application queued" second], s')
    /\ List.length (queued_for 5 (db Examples.beforeReview)) = 0%nat
    /\ List.length (queued_for 5 (db s')) = 2%nat.
Proof. do 3 eexists. split; [reflexivity|]. split; reflexivity. Qed.

(** C3, amended.  Each review request, on either route, always gets an
    answer, and it adds exactly one queue row referencing the match
    when it approves and is answered with status 200, and none
    otherwise (a rejection adds none); the rows of other matches are
    untouched.  Nothing limits the rows per match: with the database
    reachable, a sequence of guest reviews of one's own match leaves
    one more row per approval in the sequence. *)
Theorem C3_one_job_per_approval (w : World) (s : State) (token : string)
        (uid mid : nat) :
  (forall approved,
      exists response s',
        GuestRoute.review token mid approved w s = (Ok response, s')
        /\ List.length (queued_for mid (db s'))
           = (List.length (queued_for mid (db s))
              + enqueued approved response)%nat
        /\ forall other, other <> mid ->
                         queued_for other (db s') = queued_for other (db s))
  /\ (forall approved,
         exists response s',
           JobsRoute.review uid mid approved w s = (Ok response, s')
           /\ List.length (queued_for mid (db s'))
              = (List.length (queued_for mid (db s))
                 + enqueued approved response)%nat
           /\ forall other, other <> mid ->
                            queued_for other (db s')
                            = queued_for other (db s))
  /\ (forall decisions m u others,
         db_up w ->
         In m (job_matches (db s)) -> m_id m = mid ->
         filter (fun x => String.eqb (u_tracking_token x) token)
                (users (db s)) = u :: others ->
         m_user_id m = u_id u ->
         List.length
           (queued_for mid
              (db (snd (GuestRoute.reviewAll token mid decisions w s))))
         = (List.length (queued_for mid (db s))
            + count_occ bool_dec decisions true)%nat).
Proof.
  split; [|split].
  - intros approved. apply guest_review_queue.
  - intros approved. apply jobs_review_queue.
  - intros decisions m u others Up Hin Hid F Hu.
    apply (reviewAll_counts w token u others mid decisions Up s F).
    now exists m.
Qed.

End EnqueueClaims.

(* ================================================================== *)
(** ** The application queue *)

Section Queue.
Import ApplicationQueue.





(** Rows with another id keep their place and their content. *)
Lemma only_rows_of_other (jobId : nat) (before after : list QueueRow) :
  only_rows_of jobId before after ->
  List.length after = List.length before
  /\ forall i q, nth_error before i = Some q -> q_id q <> jobId ->
                 nth_error after i = Some q.
Proof.
  intros [f [Hf ->]]. split; [apply length_map|].
  intros i q Hq Hne. rewrite nth_error_map, Hq. cbn.
  apply Nat.eqb_neq in Hne. now rewrite Hne.
Qed.

Ltac step :=
  match goal with
  | E : context [query ?stmt ?w ?s0] |- _ =>
      let D := fresh "D" in
      destruct (db_down w (issued s0)) eqn:D;
      [rewrite (query_down stmt w s0 D) in E
      |rewrite (query_up stmt w s0 D) in E];
      cbn [issued db applies chats bull_ids fst snd] in *
  end.

Ltac leaf E :=
  unfold bind, throw, ret, ApplicationService.record_failure, refused in E;
  cbn [issued db applies chats bull_ids fst snd] in E;
  injection E as <- <-;
  cbn [issued db applies chats bull_ids fst snd pred].

(** [applyToJob] never resolves with [{success: false}]: the statement
    of its [catch] is refused, so a failed attempt rejects.  It writes
    to none of the modelled tables. *)
Lemma applyToJob_cases (userId jobListingId : nat) (w : World)
      (s s' : State) (r : Result ApplyResult) :
  ApplicationService.applyToJob userId jobListingId w s = (r, s') ->
  db s' = db s /\ bull_ids s' = bull_ids s /\ chats s' = chats s
  /\ (issued s < issued s')%nat
  /\ match r with
     | Ok (ApplySuccess applicationId) =>
         apply_outcome w (applies s) = ApplySuccess applicationId
         /\ applies s' = S (applies s)
         /\ issued s' = (issued s + 3)%nat
         /\ db_down w (issued s) = false
         /\ db_down w (S (issued s)) = false
         /\ db_down w (S (S (issued s))) = false
     | Ok (ApplyFailure _) => False
     | Throw e =>
         (applies s' = applies s \/ applies s' = S (applies s))
         /\ (db_down w (pred (issued s')) = false -> e = no_job_match_id)
     end.
Proof.
  intros E.
  unfold ApplicationService.applyToJob, tryCatch in E.
  unfold bind at 1 in E. step.
  { leaf E. repeat split; auto; try lia. now intros ->. }
  unfold bind at 1 in E. step.
  { leaf E. repeat split; auto; try lia. now intros ->. }
  unfold ApplicationService.select_job, ApplicationService.select_user in E.
  cbn [fst snd] in E.
  destruct (filter _ (job_listings (db s))) as [|job jobs] eqn:FJ.
  { leaf E. repeat split; auto; try lia. now intros ->. }
  destruct (filter _ (users (db s))) as [|user others] eqn:FU.
  { leaf E. repeat split; auto; try lia. now intros ->. }
  unfold bind at 1, ApplicationService.automate in E.
  cbn [issued db applies chats bull_ids fst snd] in E.
  destruct (apply_outcome w (applies s)) as [applicationId|error] eqn:A.
  2:{ leaf E. repeat split; auto; try lia. now intros ->. }
  destruct (ApplicationService.supported (j_source job)) eqn:Sup.
  2:{ leaf E. repeat split; auto; try lia. now intros ->. }
  unfold bind at 1 in E. step.
  - leaf E. repeat split; auto; try lia. now intros ->.
  - unfold ret in E.
    cbn [ApplicationService.insert_application fst snd] in E.
    injection E as <- <-.
    cbn [issued db applies chats bull_ids]. repeat split; auto; lia.
Qed.








End Queue.

(* ================================================================== *)
(** ** More on the factors of the keyword scorer *)

Section MoreFactors.
Import JS Matching.

Lemma strictEq_iff (a b : option string) : strictEq a b = true <-> a = b.
Proof.
  destruct a as [x|], b as [y|]; cbn; try (split; congruence).
  rewrite String.eqb_eq. split; congruence.
Qed.

Lemma strictEq_false (a b : option string) :
  strictEq a b = false <-> a <> b.
Proof.
  rewrite <- strictEq_iff. destruct (strictEq a b); split; congruence.
Qed.

(** X1.  The title factor is the full 25 exactly when the listing has a
    title and some desired title occurs in it, or it in the desired
    title, without regard to case; it is 5 in every other case.  An
    empty desired title therefore matches every listing. *)
Theorem matchTitle_full_iff (titles : list string) (jobTitle : string) :
  (matchTitle titles jobTitle = 25
   <-> jobTitle <> ""
       /\ exists t,
           In t titles
           /\ ((exists pre post,
                   toLowerCase jobTitle = pre ++ toLowerCase t ++ post)
               \/ (exists pre post,
                      toLowerCase t = pre ++ toLowerCase jobTitle ++ post)))
  /\ (matchTitle titles jobTitle <> 25 -> matchTitle titles jobTitle = 5)
  /\ (In "" titles -> jobTitle <> "" -> matchTitle titles jobTitle = 25).
Proof.
  assert (Main : matchTitle titles jobTitle = 25
                 <-> jobTitle <> ""
                     /\ exists t,
                         In t titles
                         /\ ((exists pre post,
                                 toLowerCase jobTitle
                                 = pre ++ toLowerCase t ++ post)
                             \/ (exists pre post,
                                    toLowerCase t
                                    = pre ++ toLowerCase jobTitle ++ post))).
  { unfold matchTitle, some.
    destruct titles as [|t0 titles].
    - cbn. split; [discriminate|]. intros [_ [t [[] _]]].
    - destruct jobTitle as [|c r].
      + cbn. split; [discriminate | intros [H _]; congruence].
      + cbn [List.length Nat.eqb truthy negb orb].
        destruct (existsb _ (t0 :: titles)) eqn:E.
        * split; [intros _ | reflexivity]. split; [discriminate|].
          apply existsb_exists in E as [t [Hin Ht]]. exists t.
          split; [exact Hin|].
          apply orb_true_iff in Ht as [Ht | Ht];
            apply includes_spec in Ht; auto.
        * split; [discriminate|]. intros [_ [t [Hin Ht]]]. exfalso.
          assert (existsb
                    (fun title =>
                       includes (toLowerCase (String c r))
                                (toLowerCase title)
                       || includes (toLowerCase title)
                                   (toLowerCase (String c r)))
                    (t0 :: titles) = true); [|congruence].
          apply existsb_exists. exists t. split; [exact Hin|].
          apply orb_true_iff.
          destruct Ht as [Ht | Ht]; apply includes_spec in Ht; auto. }
  split; [exact Main|]. split.
  - intros H. destruct (matchTitle_values titles jobTitle); congruence.
  - intros Hin Hne. apply Main. split; [exact Hne|].
    exists "". split; [exact Hin|]. left.
    exists "", (toLowerCase jobTitle). reflexivity.
Qed.

(** X2.  The location factor: 20 exactly when the preference is ['any'] or
    equal to the listing's remote type (two NULLs are equal), 10
    exactly when a ['hybrid'] preference meets a ['remote'] or
    ['onsite'] listing, and 5 otherwise.  In particular the preference
    ['remote_only'] of the schema earns 5 against every remote type a
    listing can have. *)
Theorem matchLocation_table (profile : UserProfile) (job : JobListing) :
  let pref := p_remote_preference profile in
  let kind := j_remote_type job in
  (matchLocation profile job = 20 <-> pref = Some "any" \/ pref = kind)
  /\ (matchLocation profile job = 10
      <-> pref = Some "hybrid"
          /\ (kind = Some "remote" \/ kind = Some "onsite"))
  /\ (matchLocation profile job = 5
      <-> pref <> Some "any" /\ pref <> kind
          /\ ~ (pref = Some "hybrid"
                /\ (kind = Some "remote" \/ kind = Some "onsite")))
  /\ (pref = Some "remote_only" ->
      kind = Some "remote" \/ kind = Some "hybrid" \/ kind = Some "onsite"
      \/ kind = None ->
      matchLocation profile job = 5).
Proof.
  intros pref kind. unfold matchLocation. fold pref kind.
  destruct (strictEq pref (Some "any")) eqn:A;
    [apply strictEq_iff in A | apply strictEq_false in A].
  { repeat split; intros; try discriminate; intuition congruence. }
  destruct (strictEq pref kind) eqn:K;
    [apply strictEq_iff in K | apply strictEq_false in K].
  { repeat split; intros; try discriminate; intuition congruence. }
  assert (H : strictEq pref (Some "hybrid")
              && (strictEq kind (Some "remote")
                  || strictEq kind (Some "onsite")) = true
              <-> pref = Some "hybrid"
                  /\ (kind = Some "remote" \/ kind = Some "onsite")).
  { rewrite andb_true_iff, orb_true_iff, !strictEq_iff. reflexivity. }
  destruct (strictEq pref (Some "hybrid")
            && (strictEq kind (Some "remote")
                || strictEq kind (Some "onsite"))).
  - assert (H' : pref = Some "hybrid"
                 /\ (kind = Some "remote" \/ kind = Some "onsite"))
      by now apply H.
    repeat split; intros; try discriminate; intuition congruence.
  - assert (H' : ~ (pref = Some "hybrid"
                    /\ (kind = Some "remote" \/ kind = Some "onsite"))).
    { intros C. apply H in C. discriminate. }
    repeat split; intros; try discriminate; intuition congruence.
Qed.

End MoreFactors.

(* ================================================================== *)
(** ** Salary texts made of digits only *)

Section PlainSalary.
Import JS Matching.

Lemma digit_not_comma (a : ascii) (r : string) :
  isDigit a = true -> takeGroup (String a r) = takeThree (String a r).
Proof.
  destruct a as [[|] [|] [|] [|] [|] [|] [|] [|]]; intros H;
    try reflexivity; discriminate H.
Qed.

Lemma digit_not_dot (a : ascii) (r : string) :
  isDigit a = true -> takeFraction (String a r) = [].
Proof.
  destruct a as [[|] [|] [|] [|] [|] [|] [|] [|]]; intros H;
    try reflexivity; discriminate H.
Qed.

Lemma takeDigitsUpTo_plain (n : nat) (ds : list ascii) :
  forallb isDigit ds = true ->
  takeDigitsUpTo n (string_of_list_ascii ds) = (firstn n ds, string_of_list_ascii (skipn n ds)).
Proof.
  revert ds. induction n as [|n IH]; intros ds H.
  - destruct ds; reflexivity.
  - destruct ds as [|c ds]; [reflexivity|].
    cbn in H. apply andb_true_iff in H as [Hc H].
    cbn [string_of_list_ascii takeDigitsUpTo]. rewrite Hc, (IH ds H). reflexivity.
Qed.

Lemma takeGroups_plain (fuel : nat) (ds : list ascii) :
  forallb isDigit ds = true -> (List.length ds <= fuel)%nat ->
  takeGroups fuel (string_of_list_ascii ds)
  = (firstn (3 * (List.length ds / 3)) ds,
     string_of_list_ascii (skipn (3 * (List.length ds / 3)) ds)).
Proof.
  revert ds. induction fuel as [|fuel IH]; intros ds H Hl.
  - destruct ds; [reflexivity | cbn in Hl; lia].
  - destruct ds as [|a [|b [|c ds]]].
    + reflexivity.
    + cbn in H. apply andb_true_iff in H as [Ha _].
      cbn [string_of_list_ascii takeGroups]. rewrite digit_not_comma by exact Ha.
      reflexivity.
    + cbn in H. apply andb_true_iff in H as [Ha _].
      cbn [string_of_list_ascii takeGroups]. rewrite digit_not_comma by exact Ha.
      reflexivity.
    + cbn in H.
      apply andb_true_iff in H as [Ha H].
      apply andb_true_iff in H as [Hb H].
      apply andb_true_iff in H as [Hc H].
      cbn [string_of_list_ascii takeGroups]. rewrite digit_not_comma by exact Ha.
      cbn [takeThree]. rewrite Ha, Hb, Hc. cbn [andb].
      rewrite (IH ds H) by (cbn in Hl; lia).
      cbn [List.length].
      assert (E : (S (S (S (List.length ds))) / 3
                   = S (List.length ds / 3))%nat).
      { replace (S (S (S (List.length ds))))
          with (1 * 3 + List.length ds)%nat by lia.
        rewrite Nat.div_add_l by lia. reflexivity. }
      rewrite E.
      replace (3 * S (List.length ds / 3))%nat
        with (S (S (S (3 * (List.length ds / 3))))) by lia.
      reflexivity.
Qed.

Lemma plain_rest_no_fraction (ds : list ascii) :
  forallb isDigit ds = true -> takeFraction (string_of_list_ascii ds) = [].
Proof.
  destruct ds as [|a ds]; [reflexivity|]. cbn. intros H.
  apply andb_true_iff in H as [Ha _]. now apply digit_not_dot.
Qed.

Lemma firstn_plus {A} (n m : nat) (l : list A) :
  firstn (n + m) l = (firstn n l ++ firstn m (skipn n l))%list.
Proof.
  revert l. induction n as [|n IH]; intros l; [reflexivity|].
  destruct l as [|x l]; cbn; [now destruct m | now rewrite IH].
Qed.

Lemma forallb_skipn {A} (f : A -> bool) (n : nat) (l : list A) :
  forallb f l = true -> forallb f (skipn n l) = true.
Proof.
  revert l. induction n as [|n IH]; intros [|x l] H; cbn; auto.
  cbn in H. apply andb_true_iff in H as [_ H]. now apply IH.
Qed.

Lemma plain_digits_read (ds : list ascii) :
  ds <> [] -> forallb isDigit ds = true ->
  salaryToken (string_of_list_ascii ds)
  = Some (firstn (takenDigits (List.length ds)) ds, [])
  /\ (parseSalary (Some (string_of_list_ascii ds))
      == inject_Z (digitsToZ (firstn (takenDigits (List.length ds)) ds)))%Q.
Proof.
  intros Hne H.
  assert (T : salaryToken (string_of_list_ascii ds)
              = Some (firstn (takenDigits (List.length ds)) ds, [])).
  { unfold salaryToken.
    destruct ds as [|a ds]; [congruence|].
    assert (Ha : isDigit a = true)
      by (cbn in H; now apply andb_true_iff in H as [Ha _]).
    cbn [string_of_list_ascii skipToDigit]. rewrite Ha.
    change (String a (string_of_list_ascii ds)) with (string_of_list_ascii (a :: ds)).
    rewrite takeDigitsUpTo_plain by exact H.
    assert (Hs : forallb isDigit (skipn 3 (a :: ds)) = true)
      by now apply forallb_skipn.
    replace (String.length (string_of_list_ascii (skipn 3 (a :: ds))))
      with (List.length (skipn 3 (a :: ds))).
    2:{ generalize (skipn 3 (a :: ds)). intros l.
        induction l; cbn; congruence. }
    rewrite takeGroups_plain by (auto; lia).
    rewrite plain_rest_no_fraction
      by (apply forallb_skipn; exact Hs).
    f_equal. f_equal.
    unfold takenDigits.
    destruct (List.length (a :: ds) <? 3)%nat eqn:L3.
    - apply Nat.ltb_lt in L3.
      rewrite (skipn_all2 (a :: ds)) by lia.
      change (firstn (3 * (List.length (@nil ascii) / 3)) [])
        with (@nil ascii).
      rewrite app_nil_r. rewrite !firstn_all2 by lia. reflexivity.
    - apply Nat.ltb_ge in L3.
      rewrite length_skipn.
      set (n := List.length (a :: ds)) in *.
      assert (E : (3 * (n / 3) = 3 + 3 * ((n - 3) / 3))%nat).
      { replace n with (1 * 3 + (n - 3))%nat at 1 by lia.
        rewrite Nat.div_add_l by lia. lia. }
      rewrite E. symmetry. apply firstn_plus. }
  split; [exact T|].
  unfold parseSalary.
  destruct ds as [|a ds]; [congruence|].
  cbn [string_of_list_ascii truthy negb]. change (String a (string_of_list_ascii ds)) with (string_of_list_ascii (a :: ds)).
  rewrite T. unfold parseFloat. rewrite app_nil_r. cbn [List.length].
  unfold Qeq, Qdiv, Qmult, Qinv, inject_Z. cbn. lia.
Qed.

(** X3.  A salary written with digits only and no separators is read up to
    a multiple of three digits: the expression takes one to three
    digits and then only whole groups of three, so of four or five
    digits the first three are read, of seven or eight the first six. *)
Theorem parseSalary_plain_digits (ds : list ascii) :
  ds <> [] -> forallb isDigit ds = true ->
  salaryToken (string_of_list_ascii ds)
  = Some (firstn (takenDigits (List.length ds)) ds, [])
  /\ (parseSalary (Some (string_of_list_ascii ds))
      == inject_Z (digitsToZ (firstn (takenDigits (List.length ds)) ds)))%Q.
Proof. exact (plain_digits_read ds). Qed.

(** At a row of the examples: of ["85000"] the expression reads 850. *)
Lemma parseSalary_plain_digits_witness :
  (parseSalary (Some "85000") == 850)%Q.
Proof.
  exact (proj2 (parseSalary_plain_digits
                  (list_ascii_of_string "85000")
                  ltac:(discriminate) eq_refl)).
Defined.

Lemma digitVal_range (c : ascii) :
  isDigit c = true -> 0 <= digitVal c <= 9.
Proof.
  unfold isDigit, digitVal. intros H.
  apply andb_true_iff in H as [H1 H2].
  apply Nat.leb_le in H1. apply Nat.leb_le in H2. lia.
Qed.

Lemma digitsToZ_range (ds : list ascii) :
  forallb isDigit ds = true ->
  0 <= digitsToZ ds < 10 ^ Z.of_nat (List.length ds).
Proof.
  unfold digitsToZ.
  assert (G : forall acc n,
             0 <= acc < 10 ^ Z.of_nat n ->
             forallb isDigit ds = true ->
             0 <= fold_left (fun acc c => 10 * acc + digitVal c) ds acc
             < 10 ^ Z.of_nat (n + List.length ds)).
  { induction ds as [|c ds IH]; intros acc n Hacc H.
    - cbn. now rewrite Nat.add_0_r.
    - cbn in H. apply andb_true_iff in H as [Hc H].
      cbn [fold_left List.length].
      replace (n + S (List.length ds))%nat
        with (S n + List.length ds)%nat by lia.
      apply IH; [|exact H].
      pose proof (digitVal_range c Hc).
      rewrite Nat2Z.inj_succ, Z.pow_succ_r by lia. lia. }
  intros H. apply (G 0 0%nat); [cbn; lia | exact H].
Qed.

(** X4.  A consequence for the salary factor: a salary of four or five
    digits written without separators never meets a floor of 1000 or
    more, whatever its value. *)
Theorem matchSalary_plain_truncated (profile : UserProfile)
        (ds : list ascii) (floor : Z) :
  forallb isDigit ds = true ->
  List.length ds = 4%nat \/ List.length ds = 5%nat ->
  p_salary_min profile = Some floor -> 1000 <= floor ->
  matchSalary profile (Some (string_of_list_ascii ds)) = 0.
Proof.
  intros H L Hf Hfloor.
  assert (Hne : ds <> []) by (intros ->; cbn in L; lia).
  destruct (plain_digits_read ds Hne H) as [_ P].
  assert (T : takenDigits (List.length ds) = 3%nat)
    by (destruct L as [-> | ->]; reflexivity).
  rewrite T in P.
  assert (B : 0 <= digitsToZ (firstn 3 ds) < 1000).
  { assert (F : forallb isDigit (firstn 3 ds) = true).
    { apply forallb_forall. intros c Hc.
      rewrite forallb_forall in H. apply H.
      rewrite <- (firstn_skipn 3 ds). apply in_or_app. now left. }
    pose proof (digitsToZ_range _ F) as R.
    rewrite length_firstn in R.
    replace (Nat.min 3 (List.length ds)) with 3%nat in R by lia.
    exact R. }
  unfold matchSalary. rewrite Hf.
  destruct ds as [|a ds]; [congruence|].
  cbn [string_of_list_ascii truthyNum truthyOpt truthy negb orb].
  change (String a (string_of_list_ascii ds))
    with (string_of_list_ascii (a :: ds)).
  destruct (floor =? 0) eqn:Z0; [apply Z.eqb_eq in Z0; lia|].
  cbn [negb orb].
  destruct (Qle_bool (inject_Z floor)
              (parseSalary (Some (string_of_list_ascii (a :: ds)))))
    eqn:Q; [|reflexivity].
  exfalso. apply Qle_bool_iff in Q. rewrite P in Q.
  rewrite <- Zle_Qle in Q. lia.
Qed.

Lemma matchSalary_plain_truncated_witness :
  matchSalary Examples.withFloor (Some "85000") = 0.
Proof.
  exact (matchSalary_plain_truncated Examples.withFloor
           (list_ascii_of_string "85000") 50000 eq_refl
           (or_intror eq_refl) eq_refl ltac:(lia)).
Defined.

End PlainSalary.

(* ================================================================== *)
(** ** More on [matchJobsForUser] *)

Section MoreMatchJobs.
Import Sql MatchingService.

Section Loop.
Variable I : list MatchSummary -> DB -> Prop.
Variables (uid : nat) (limit : Z) (profile : UserProfile).
Variables (skills titles : list string).

Let scoreOf (job : JobListing) : Score :=
  Matching.calculateMatchScore profile skills titles job.

(** An invariant of the list of matches together with the tables:
    the loop pushes a match exactly when its insertion went through,
    and stops at the limit. *)
Lemma matchLoop_joint (jobs : list JobListing) :
  (forall job ms d,
      In job jobs -> 60 <= total (scoreOf job) -> I ms d ->
      I (ms ++ [summary job (scoreOf job)])%list
        (snd (insert_job_match uid (j_id job) (total (scoreOf job))
                (reasons (scoreOf job)) d))) ->
  forall matches w s,
    I matches (db s) ->
    exists ms s',
      matchLoop uid limit profile skills titles jobs matches w s
      = (Ok ms, s')
      /\ I ms (db s')
      /\ (List.length ms <= List.length matches + List.length jobs)%nat
      /\ Z.of_nat (List.length ms)
         <= Z.max limit (Z.of_nat (List.length matches) + 1)
      /\ (jobs = [] -> ms = matches).
Proof.
  induction jobs as [|job jobs IH]; intros HI matches w s Hs.
  - exists matches, s. cbn. repeat split; auto; lia.
  - cbn [matchLoop].
    unfold bind at 1, MatchingService.calculateMatchScore, ret at 1.
    fold (scoreOf job).
    assert (IH' : forall matches' s1,
              I matches' (db s1) ->
              (List.length matches' <= List.length matches + 1)%nat ->
              exists ms s',
                (if limit <=? Z.of_nat (List.length matches')
                 then ret matches'
                 else matchLoop uid limit profile skills titles jobs
                                matches') w s1 = (Ok ms, s')
                /\ I ms (db s')
                /\ (List.length ms
                    <= List.length matches + List.length (job :: jobs))%nat
                /\ Z.of_nat (List.length ms)
                   <= Z.max limit (Z.of_nat (List.length matches) + 1)
                /\ (job :: jobs = [] -> ms = matches)).
    { intros matches' s1 H1 Hl.
      destruct (limit <=? Z.of_nat (List.length matches')) eqn:L.
      - exists matches', s1. cbn [List.length].
        repeat split; auto; try lia. discriminate.
      - apply Z.leb_gt in L.
        destruct (IH (fun j ms d Hj => HI j ms d (or_intror Hj))
                     matches' w s1 H1)
          as [ms [s' [E [H2 [H3 [H4 _]]]]]].
        exists ms, s'. cbn [List.length].
        repeat split; auto; try lia. discriminate. }
    unfold bind at 1.
    destruct (60 <=? total (scoreOf job)) eqn:T.
    + apply Z.leb_le in T. unfold tryCatch, bind, query, ret at 1 2.
      destruct (db_down w (issued s)).
      * apply IH'; [exact Hs | lia].
      * destruct (insert_job_match uid (j_id job) (total (scoreOf job))
                    (reasons (scoreOf job)) (db s)) as [n d] eqn:E.
        apply IH'.
        -- cbn [db].
           replace d with
             (snd (insert_job_match uid (j_id job) (total (scoreOf job))
                     (reasons (scoreOf job)) (db s)))
             by now rewrite E.
           apply HI; [now left | exact T | exact Hs].
        -- rewrite length_app. cbn. lia.
    + unfold ret at 1. apply IH'; [exact Hs | lia].
Qed.

End Loop.

Lemma matchJobsForUser_joint (I : list MatchSummary -> DB -> Prop)
      (uid : nat) (limit : Z) (w : World) (s : State) :
  (forall profile rest job ms d,
      filter (fun p => (p_user_id p =? uid)%nat) (user_profiles (db s))
      = profile :: rest ->
      In job (fst (select_unmatched_jobs uid (db s))) ->
      let sc := Matching.calculateMatchScore profile
                  (jsonItems (p_skills profile))
                  (jsonItems (p_desired_job_titles profile)) job in
      60 <= total sc -> I ms d ->
      I (ms ++ [summary job sc])%list
        (snd (insert_job_match uid (j_id job) (total sc) (reasons sc) d))) ->
  I [] (db s) ->
  exists ms s',
    matchJobsForUser uid limit w s = (Ok ms, s')
    /\ I ms (db s')
    /\ (List.length ms
        <= List.length (fst (select_unmatched_jobs uid (db s))))%nat
    /\ Z.of_nat (List.length ms) <= Z.max limit 1.
Proof.
  intros H Hs. unfold matchJobsForUser, tryCatch.
  destruct (matchJobsBody_cases uid limit w s)
    as [[e [s' [E D]]] | [[s' [E D]] | [profile [rest [s1 [F [D E]]]]]]].
  - rewrite E. exists [], s'. rewrite D. cbn. repeat split; auto; lia.
  - rewrite E. exists [], s'. rewrite D. cbn. repeat split; auto; lia.
  - rewrite E.
    destruct (matchLoop_joint I uid limit profile
                (jsonItems (p_skills profile))
                (jsonItems (p_desired_job_titles profile))
                (fst (select_unmatched_jobs uid (db s)))
                (fun job ms d Hj T Hd => H profile rest job ms d F Hj T Hd)
                [] w s1)
      as [ms [s' [E' [HI [H1 [H2 _]]]]]].
    + now rewrite D.
    + rewrite E'. exists ms, s'. cbn in H1, H2. repeat split; auto.
Qed.

Lemma select_unmatched_length (uid : nat) (d : DB) :
  (List.length (fst (select_unmatched_jobs uid d)) <= 100)%nat.
Proof. unfold select_unmatched_jobs. cbn [fst]. apply firstn_le_length. Qed.

Lemma insert_grows (u j : nat) (sc : Z) (rs : list Reason) (d : DB) :
  exists extra,
    job_matches (snd (insert_job_match u j sc rs d))
    = (job_matches d ++ extra)%list
    /\ users (snd (insert_job_match u j sc rs d)) = users d
    /\ user_profiles (snd (insert_job_match u j sc rs d)) = user_profiles d
    /\ job_listings (snd (insert_job_match u j sc rs d)) = job_listings d
    /\ application_queue (snd (insert_job_match u j sc rs d))
       = application_queue d
    /\ notifications (snd (insert_job_match u j sc rs d)) = notifications d.
Proof.
  unfold insert_job_match. destruct (existsb _ _).
  - exists []. cbn. rewrite app_nil_r. repeat split.
  - eexists. cbn. repeat split.
Qed.

(** X5.  [matchJobsForUser] returns at most [limit] matches (one when the
    limit is below one, since the limit is tested after a listing is
    handled) and never more than the hundred listings it selects. *)
Theorem matchJobsForUser_at_most_limit (uid : nat) (limit : Z) (w : World)
        (s : State) :
  exists ms s',
    matchJobsForUser uid limit w s = (Ok ms, s')
    /\ Z.of_nat (List.length ms) <= Z.max limit 1
    /\ (List.length ms <= 100)%nat.
Proof.
  destruct (matchJobsForUser_joint (fun _ _ => True) uid limit w s)
    as [ms [s' [E [_ [H1 H2]]]]]; auto.
  exists ms, s'. repeat split; auto.
  pose proof (select_unmatched_length uid (db s)). lia.
Qed.

Lemma returned_are_stored (uid : nat) (limit : Z) (w : World)
      (s : State) :
  exists ms s' added,
    matchJobsForUser uid limit w s = (Ok ms, s')
    /\ (forall m, In m ms ->
                  In (uid, s_jobId m) (map pair_of (job_matches (db s'))))
    /\ job_matches (db s') = (job_matches (db s) ++ added)%list
    /\ users (db s') = users (db s)
    /\ user_profiles (db s') = user_profiles (db s)
    /\ job_listings (db s') = job_listings (db s)
    /\ application_queue (db s') = application_queue (db s)
    /\ notifications (db s') = notifications (db s).
Proof.
  set (I := fun (ms : list MatchSummary) (d : DB) =>
              (forall m, In m ms ->
                         In (uid, s_jobId m) (map pair_of (job_matches d)))
              /\ (exists added,
                     job_matches d = (job_matches (db s) ++ added)%list)
              /\ users d = users (db s)
              /\ user_profiles d = user_profiles (db s)
              /\ job_listings d = job_listings (db s)
              /\ application_queue d = application_queue (db s)
              /\ notifications d = notifications (db s)).
  destruct (matchJobsForUser_joint I uid limit w s)
    as [ms [s' [E [[H1 [[added H2] H3]] _]]]].
  - intros profile rest job ms d F Hj sc T [A [[added B] [C1 [C2 [C3 [C4 C5]]]]]].
    destruct (insert_grows uid (j_id job) (total sc) (reasons sc) d)
      as [extra [G [G1 [G2 [G3 [G4 G5]]]]]].
    split; [|split].
    + intros m Hm. apply in_app_iff in Hm as [Hm | [<- | []]].
      * rewrite G, map_app, in_app_iff. left. now apply A.
      * cbn [s_jobId summary]. apply insert_has_pair.
    + exists (added ++ extra)%list. rewrite G, B. now rewrite app_assoc.
    + repeat split; congruence.
  - split; [intros m []|]. split; [exists []; now rewrite app_nil_r|].
    repeat split.
  - exists ms, s', added. tauto.
Qed.

(** X6.  Whatever the database does, every match that [matchJobsForUser]
    returns is stored: a row of the user for that listing exists
    afterwards.  The call only appends to [job_matches]; the rows that
    were there, and the other tables, are as before. *)
Theorem matchJobsForUser_returns_stored (uid : nat) (limit : Z) (w : World)
        (s : State) :
  exists ms s' added,
    matchJobsForUser uid limit w s = (Ok ms, s')
    /\ (forall m, In m ms ->
                  In (uid, s_jobId m) (map pair_of (job_matches (db s'))))
    /\ job_matches (db s') = (job_matches (db s) ++ added)%list
    /\ users (db s') = users (db s)
    /\ user_profiles (db s') = user_profiles (db s)
    /\ job_listings (db s') = job_listings (db s)
    /\ application_queue (db s') = application_queue (db s)
    /\ notifications (db s') = notifications (db s).
Proof. exact (returned_are_stored uid limit w s). Qed.

(** X7.  Two calls in a row never return the same listing twice: what the
    first call returned is stored, and the second selects only
    listings without a row for the user. *)
Theorem matchJobsForUser_no_repeat (uid : nat) (limit1 limit2 : Z)
        (w : World) (s : State) :
  exists ms1 s1 ms2 s2,
    matchJobsForUser uid limit1 w s = (Ok ms1, s1)
    /\ matchJobsForUser uid limit2 w s1 = (Ok ms2, s2)
    /\ forall m1 m2, In m1 ms1 -> In m2 ms2 -> s_jobId m1 <> s_jobId m2.
Proof.
  destruct (returned_are_stored uid limit1 w s)
    as [ms1 [s1 [added [E1 [St _]]]]].
  set (I := fun (ms : list MatchSummary) (d : DB) =>
              forall m, In m ms ->
                        ~ In (uid, s_jobId m)
                             (map pair_of (job_matches (db s1)))).
  destruct (matchJobsForUser_joint I uid limit2 w s1)
    as [ms2 [s2 [E2 [H2 _]]]].
  - intros profile rest job ms d F Hj sc T A m Hm.
    apply in_app_iff in Hm as [Hm | [<- | []]]; [now apply A|].
    cbn [s_jobId summary]. now apply select_unmatched_sound in Hj.
  - intros m [].
  - exists ms1, s1, ms2, s2. split; [exact E1|]. split; [exact E2|].
    intros m1 m2 Hm1 Hm2 C. apply (H2 m2 Hm2). rewrite <- C.
    now apply St.
Qed.

End MoreMatchJobs.

(* ================================================================== *)
(** ** More on the review paths *)

Section MoreReview.

Ltac by_query :=
  match goal with
  | |- context [query ?stmt ?w ?s] =>
      let D := fresh "D" in
      destruct (db_down w (issued s)) eqn:D;
      [rewrite (query_down stmt w s D) | rewrite (query_up stmt w s D)]
  end.

Lemma reviewed_from_refl (mid : nat) (l : list MatchRow) :
  reviewed_from mid l l.
Proof.
  exists (fun m => m). repeat split. now rewrite map_id.
Qed.

Lemma reviewed_from_update (mid uid : nat) (f : MatchRow -> MatchRow)
      (l : list MatchRow) :
  (forall m, scored (f m) = scored m) ->
  reviewed_from mid l
    (map (fun m => if Sql.targets mid uid m then f m else m) l).
Proof.
  intros Hf.
  exists (fun m => if Sql.targets mid uid m then f m else m).
  split; [|split; [|reflexivity]].
  - intros m. destruct (Sql.targets mid uid m); [apply Hf | reflexivity].
  - intros m Hne. unfold Sql.targets.
    destruct (m_id m =? mid)%nat eqn:E; [|reflexivity].
    apply Nat.eqb_eq in E. contradiction.
Qed.

Lemma reviewed_from_facts (mid : nat) (before after : list MatchRow) :
  reviewed_from mid before after ->
  map scored after = map scored before
  /\ map pair_of after = map pair_of before
  /\ (forall i m, nth_error before i = Some m -> m_id m <> mid ->
                  nth_error after i = Some m).
Proof.
  intros [g [Hs [Hid ->]]]. split; [|split].
  - rewrite map_map. apply map_ext. exact Hs.
  - rewrite map_map. apply map_ext. intros m.
    unfold pair_of. specialize (Hs m). unfold scored in Hs.
    now injection Hs as _ -> -> _ _.
  - intros i m Hn Hne. rewrite nth_error_map, Hn. cbn.
    now rewrite Hid.
Qed.

Lemma guest_review_frame (w : World) (s : State) (token : string)
      (mid : nat) (approved : option bool) :
  exists response s',
    GuestRoute.review token mid approved w s = (Ok response, s')
    /\ reviewed_from mid (job_matches (db s)) (job_matches (db s'))
    /\ users (db s') = users (db s)
    /\ user_profiles (db s') = user_profiles (db s)
    /\ job_listings (db s') = job_listings (db s).
Proof.
  unfold GuestRoute.review, tryCatch.
  destruct approved as [approved|].
  2:{ unfold ret. do 2 eexists. split; [reflexivity|].
      split; [apply reviewed_from_refl | repeat split]. }
  unfold bind at 1. by_query.
  { unfold ret. do 2 eexists. split; [reflexivity|].
    split; [apply reviewed_from_refl | repeat split]. }
  cbn [GuestRoute.select_user fst snd].
  destruct (filter _ (users (db s))) as [|user others].
  { unfold ret. do 2 eexists. split; [reflexivity|].
    split; [apply reviewed_from_refl | repeat split]. }
  unfold bind at 1. by_query.
  { unfold ret. do 2 eexists. split; [reflexivity|].
    split; [apply reviewed_from_refl | repeat split]. }
  cbn [GuestRoute.update_review fst snd db].
  assert (R : reviewed_from mid (job_matches (db s))
                (map (fun m => if Sql.targets mid (u_id user) m
                               then GuestRoute.review_row approved
                                      (if approved then "approved"
                                       else "rejected") m
                               else m)
                     (job_matches (db s))))
    by (apply reviewed_from_update; reflexivity).
  destruct (map _ (filter _ (job_matches (db s)))) as [|row rows].
  { unfold ret. do 2 eexists. split; [reflexivity|].
    split; [exact R | repeat split]. }
  destruct approved.
  - unfold bind. by_query; unfold ret; do 2 eexists;
      (split; [reflexivity|]); (split; [exact R | repeat split]).
  - unfold bind, ret. do 2 eexists. split; [reflexivity|].
    split; [exact R | repeat split].
Qed.

Lemma service_review_frame (w : World) (s : State) (uid mid : nat)
      (approved : bool) :
  reviewed_from mid (job_matches (db s))
    (job_matches
       (db (snd (MatchingService.reviewMatch uid mid approved w s))))
  /\ users (db (snd (MatchingService.reviewMatch uid mid approved w s)))
     = users (db s)
  /\ user_profiles
       (db (snd (MatchingService.reviewMatch uid mid approved w s)))
     = user_profiles (db s)
  /\ job_listings
       (db (snd (MatchingService.reviewMatch uid mid approved w s)))
     = job_listings (db s)
  /\ application_queue
       (db (snd (MatchingService.reviewMatch uid mid approved w s)))
     = application_queue (db s).
Proof.
  unfold MatchingService.reviewMatch, tryCatch, bind. by_query.
  - cbn. split; [apply reviewed_from_refl | repeat split].
  - cbn. split; [|repeat split].
    apply reviewed_from_update. reflexivity.
Qed.

Lemma jobs_review_frame (w : World) (s : State) (uid mid : nat)
      (approved : option bool) :
  exists response s',
    JobsRoute.review uid mid approved w s = (Ok response, s')
    /\ reviewed_from mid (job_matches (db s)) (job_matches (db s'))
    /\ users (db s') = users (db s)
    /\ user_profiles (db s') = user_profiles (db s)
    /\ job_listings (db s') = job_listings (db s).
Proof.
  unfold JobsRoute.review, tryCatch.
  destruct approved as [approved|].
  2:{ unfold ret. do 2 eexists. split; [reflexivity|].
      split; [apply reviewed_from_refl | repeat split]. }
  unfold bind at 1.
  pose proof (service_review_frame w s uid mid approved)
    as [R [U [P [L _]]]].
  destruct (MatchingService.reviewMatch uid mid approved w s)
    as [[[row|]|e] s1]; cbn [snd] in *.
  - destruct approved.
    + unfold bind, JobsRoute.insert_queue, refused, ret.
      do 2 eexists. split; [reflexivity|]. cbn. auto.
    + unfold bind, ret. do 2 eexists. split; [reflexivity|]. auto.
  - unfold ret. do 2 eexists. split; [reflexivity|]. auto.
  - unfold ret. do 2 eexists. split; [reflexivity|]. auto.
Qed.

(** X9.  A review, on any path and whatever the database does, writes
    nothing but the review columns of the rows of the reviewed match:
    every row keeps its id, user, listing, score and reasons, rows of
    other matches keep everything, the uniqueness of (user, listing)
    is kept, and users, profiles and listings are untouched. *)
Theorem review_writes_review_columns_only (w : World) (s : State)
        (token : string) (uid mid : nat) (approved : option bool)
        (decision : bool) :
  only_review_columns mid (db s)
    (db (snd (GuestRoute.review token mid approved w s)))
  /\ only_review_columns mid (db s)
       (db (snd (JobsRoute.review uid mid approved w s)))
  /\ only_review_columns mid (db s)
       (db (snd (MatchingService.reviewMatch uid mid decision w s))).
Proof.
  assert (G : forall after,
             reviewed_from mid (job_matches (db s)) (job_matches after)
             /\ users after = users (db s)
             /\ user_profiles after = user_profiles (db s)
             /\ job_listings after = job_listings (db s) ->
             only_review_columns mid (db s) after).
  { intros after [R [U [P L]]].
    destruct (reviewed_from_facts _ _ _ R) as [F1 [F2 F3]].
    unfold only_review_columns. repeat split; auto.
    unfold pairs_unique. now rewrite F2. }
  split; [|split]; apply G.
  - destruct (guest_review_frame w s token mid approved)
      as [r [s' [E H]]]. rewrite E. exact H.
  - destruct (jobs_review_frame w s uid mid approved)
      as [r [s' [E H]]]. rewrite E. exact H.
  - pose proof (service_review_frame w s uid mid decision). tauto.
Qed.

Lemma untargeted_map (mid uid : nat) (f : MatchRow -> MatchRow)
      (l : list MatchRow) :
  filter (Sql.targets mid uid) l = [] ->
  map (fun m => if Sql.targets mid uid m then f m else m) l = l.
Proof.
  induction l as [|m l IH]; cbn; [reflexivity|].
  destruct (Sql.targets mid uid m); [discriminate|].
  intros H. now rewrite IH.
Qed.

(** X10.  A review of a match that is not the caller's (no row with that id
    and that user) changes nothing on any path and is never answered
    with status 200, whatever the database does: the service method
    returns no row, and the routes answer 404 ["Match not found"] or
    500.  A guest review with the token of no user is answered 404
    ["Invalid tracking token"] or 500, and changes nothing.  A body
    whose [approved] is not a boolean is answered 400 before any
    statement is sent. *)
Theorem review_of_foreign_match_refused (w : World) (s : State)
        (token : string) (uid mid : nat) (decision : bool) :
  (filter (Sql.targets mid uid) (job_matches (db s)) = [] ->
   db (snd (MatchingService.reviewMatch uid mid decision w s)) = db s
   /\ (forall row,
          fst (MatchingService.reviewMatch uid mid decision w s)
          <> Ok (Some row))
   /\ db (snd (JobsRoute.review uid mid (Some decision) w s)) = db s
   /\ (fst (JobsRoute.review uid mid (Some decision) w s)
       = Ok (Error404 "Match not found")
       \/ fst (JobsRoute.review uid mid (Some decision) w s)
          = Ok (Error500 "Failed to review match")))
  /\ (forall u others,
         filter (fun x => String.eqb (u_tracking_token x) token)
                (users (db s)) = u :: others ->
         filter (Sql.targets mid (u_id u)) (job_matches (db s)) = [] ->
         db (snd (GuestRoute.review token mid (Some decision) w s)) = db s
         /\ (fst (GuestRoute.review token mid (Some decision) w s)
             = Ok (Error404 "Match not found")
             \/ fst (GuestRoute.review token mid (Some decision) w s)
                = Ok (Error500 "Failed to review match")))
  /\ (filter (fun x => String.eqb (u_tracking_token x) token)
             (users (db s)) = [] ->
      db (snd (GuestRoute.review token mid (Some decision) w s)) = db s
      /\ (fst (GuestRoute.review token mid (Some decision) w s)
          = Ok (Error404 "Invalid tracking token")
          \/ fst (GuestRoute.review token mid (Some decision) w s)
             = Ok (Error500 "Failed to review match")))
  /\ GuestRoute.review token mid None w s
     = (Ok (Error400 "approved must be boolean"), s)
  /\ JobsRoute.review uid mid None w s
     = (Ok (Error400 "approved must be boolean"), s).
Proof.
  split; [|split; [|split; [|split]]]; try reflexivity.
  - intros F.
    assert (Sv : db (snd (MatchingService.reviewMatch uid mid decision w s))
                 = db s
                 /\ (fst (MatchingService.reviewMatch uid mid decision w s)
                     = Ok None
                     \/ exists e,
                         fst (MatchingService.reviewMatch uid mid decision
                                w s) = Throw e)).
    { unfold MatchingService.reviewMatch, tryCatch, bind. by_query.
      - cbn. split; [reflexivity|]. right; eexists; reflexivity.
      - cbn [Sql.update_review fst snd]. rewrite F. cbn.
        rewrite untargeted_map by exact F.
        split; [now destruct (db s)|]. now left. }
    destruct Sv as [S1 S2].
    split; [exact S1|].
    split.
    { intros row C. destruct S2 as [S2 | [e S2]]; rewrite S2 in C;
        discriminate. }
    unfold JobsRoute.review, tryCatch, bind.
    destruct (MatchingService.reviewMatch uid mid decision w s)
      as [[[row|]|e] s1]; cbn [fst snd] in *.
    + destruct S2 as [S2 | [e S2]]; discriminate.
    + unfold ret. cbn [fst snd]. split; [exact S1|]. now left.
    + unfold ret. cbn [fst snd]. split; [exact S1|]. now right.
  - intros u others Fu F.
    destruct (GuestRoute.review token mid (Some decision) w s)
      as [r s'] eqn:E. cbn [fst snd]. revert E.
    unfold GuestRoute.review, tryCatch, bind at 1. by_query.
    { unfold ret. intros E. injection E as <- <-.
      split; [reflexivity|]. now right. }
    cbn [GuestRoute.select_user fst snd]. rewrite Fu.
    unfold bind at 1. by_query.
    { unfold ret. intros E. injection E as <- <-.
      split; [reflexivity|]. now right. }
    cbn [GuestRoute.update_review fst snd db]. rewrite F. cbn [map].
    rewrite untargeted_map by exact F.
    unfold ret. intros E. injection E as <- <-.
    split; [now destruct (db s) | now left].
  - intros Fu.
    destruct (GuestRoute.review token mid (Some decision) w s)
      as [r s'] eqn:E. cbn [fst snd]. revert E.
    unfold GuestRoute.review, tryCatch, bind at 1. by_query.
    { unfold ret. intros E. injection E as <- <-.
      split; [reflexivity|]. now right. }
    cbn [GuestRoute.select_user fst snd]. rewrite Fu.
    unfold ret. intros E. injection E as <- <-.
    split; [reflexivity | now left].
Qed.

End MoreReview.

(* ================================================================== *)
(** ** More on the queue worker *)

Section MoreQueue.
Import ApplicationQueue.

Ltac by_query :=
  match goal with
  | |- context [query ?stmt ?w ?s] =>
      let D := fresh "D" in
      destruct (db_down w (issued s)) eqn:D;
      [rewrite (query_down stmt w s D) | rewrite (query_up stmt w s D)]
  end.


(** X24.  [applyToJob] never resolves with [{success: false}]: the statement
    of its [catch] names [application_queue.job_match_id] and is
    refused, so a failed attempt rejects, with the server's message
    when that statement reached the database.  It resolves with
    success only when the automation succeeded and its three
    statements went through, and it writes to none of the tables of
    the matching pipeline. *)
Theorem applyToJob_rejects_on_failure (userId jobListingId : nat)
        (w : World) (s : State) :
  db (snd (ApplicationService.applyToJob userId jobListingId w s)) = db s
  /\ (forall error,
         fst (ApplicationService.applyToJob userId jobListingId w s)
         <> Ok (ApplyFailure error))
  /\ (forall applicationId,
         fst (ApplicationService.applyToJob userId jobListingId w s)
         = Ok (ApplySuccess applicationId) ->
         apply_outcome w (applies s) = ApplySuccess applicationId
         /\ db_down w (issued s) = false
         /\ db_down w (S (issued s)) = false
         /\ db_down w (S (S (issued s))) = false)
  /\ (forall e,
         fst (ApplicationService.applyToJob userId jobListingId w s)
         = Throw e ->
         db_down w
           (pred (issued (snd (ApplicationService.applyToJob
                                 userId jobListingId w s)))) = false ->
         e = no_job_match_id).
Proof.
  destruct (ApplicationService.applyToJob userId jobListingId w s)
    as [r s'] eqn:E.
  apply applyToJob_cases in E as [D [_ [_ [_ R]]]]. cbn [fst snd].
  split; [exact D|]. split; [|split].
  - intros error H. subst r. exact R.
  - intros applicationId H. subst r. tauto.
  - intros e H Up. subst r. now apply R.
Qed.



(** X14.  The processor applies only after it marked the job
    ['processing']: when that first statement fails no apply attempt
    is made and no notification is written, and the processor does not
    resolve with success. *)
Theorem processor_no_apply_without_mark (w : World) (s : State)
        (job : BullJob) :
  db_down w (issued s) = true ->
  applies (snd (processor job w s)) = applies s
  /\ notifications (db (snd (processor job w s))) = notifications (db s)
  /\ (forall applicationId,
         fst (processor job w s) <> Ok (Succeeded applicationId)).
Proof.
  intros D.
  destruct (processor job w s) as [r s'] eqn:E. cbn [fst snd]. revert E.
  unfold processor, tryCatch, bind at 1.
  rewrite query_down by exact D. unfold bind. by_query.
  - intros E. injection E as <- <-. cbn. repeat split. discriminate.
  - destruct (b_attemptsMade job <? 3); unfold throw, ret;
      intros E; injection E as <- <-; cbn; repeat split; discriminate.
Qed.

Lemma processor_no_apply_without_mark_witness :
  applies (snd (processor (mkBull 1 1 7 5 3 5000 0 0 Active None)
                          (mkWorld (fun _ => true) (fun _ _ => ChatError)
                                   (fun _ => ApplySuccess 42))
                          Examples.queued))
  = 0%nat.
Proof.
  exact (proj1 (processor_no_apply_without_mark
                  (mkWorld (fun _ => true) (fun _ _ => ChatError)
                           (fun _ => ApplySuccess 42))
                  Examples.queued (mkBull 1 1 7 5 3 5000 0 0 Active None)
                  eq_refl)).
Defined.


(** X16.  [queueApplication] never returns a job: its statement on
    [application_queue] names a column the table does not have, so the
    call throws in every world, with the server's message when the
    database is reachable.  No table is changed; the job, with three
    attempts and a base delay of 5000 ms, has been added to the queue
    all the same. *)
Theorem queueApplication_outcomes (w : World) (s : State)
        (userId jobListingId matchId : nat) :
  exists e s' job,
    queueApplication userId jobListingId matchId w s = (Throw e, s')
    /\ db s' = db s
    /\ issued s' = S (issued s)
    /\ (db_down w (issued s) = false -> e = no_job_match_id)
    /\ fst (add userId jobListingId matchId w s) = Ok job
    /\ bull_ids s' = b_id job /\ b_id job = S (bull_ids s)
    /\ b_state job = Waiting /\ b_attempts job = 3
    /\ b_backoff_delay job = 5000 /\ b_attemptsMade job = 0
    /\ b_userId job = userId /\ b_jobListingId job = jobListingId
    /\ b_matchId job = matchId.
Proof.
  unfold queueApplication, tryCatch, bind, add, insert_queue, refused,
    throw.
  do 3 eexists. split; [reflexivity|]. cbn [db issued bull_ids fst].
  split; [reflexivity|]. split; [reflexivity|].
  split; [now intros ->|]. repeat split.
Qed.

End MoreQueue.

(* ================================================================== *)
(** ** More on the AI-backed scorer *)

Section MoreAI.
Import AIMatching.

Ltac branches :=
  repeat match goal with
         | |- context [if ?b then _ else _] => destruct b
         | |- context [match ?x with Some _ => _ | None => _ end] =>
             destruct x
         | |- context [match ?x with [] => _ | _ :: _ => _ end] =>
             destruct x
         end.

Lemma total_of_breakdown (skillMatch : SkillMatch) (job : Job)
      (preferences : Preferences) :
  let sc := scoreWith skillMatch job preferences in
  a_total sc
  = toFixed2 (Math_min 1 (bd_skills (a_breakdown sc)
                          + bd_location (a_breakdown sc)
                          + bd_salary (a_breakdown sc)
                          + bd_title (a_breakdown sc)
                          + bd_type (a_breakdown sc))%Q)
  /\ bd_skills (a_breakdown sc) = (sm_score skillMatch * (4 # 10))%Q
  /\ (0 <= bd_location (a_breakdown sc) <= 25 # 100)%Q
  /\ (5 # 100 <= bd_salary (a_breakdown sc) <= 15 # 100)%Q
  /\ (5 # 100 <= bd_title (a_breakdown sc) <= 15 # 100)%Q
  /\ (0 <= bd_type (a_breakdown sc) <= 5 # 100)%Q.
Proof.
  unfold scoreWith. cbv zeta. branches; cbn;
    repeat split; try reflexivity; try (unfold Qle; cbn; lia).
Qed.

End MoreAI.

Section AIBounds.
Import AIMatching.

Lemma Qfloor_nonneg (y : Q) : (0 <= y)%Q -> 0 <= Qfloor y.
Proof. intros H. apply (Qfloor_resp_le 0 y) in H. exact H. Qed.

Lemma Qfloor_below (y : Q) (n : Z) : (y < inject_Z (n + 1))%Q -> Qfloor y <= n.
Proof.
  intros H. pose proof (Qfloor_le y) as L.
  assert (inject_Z (Qfloor y) < inject_Z (n + 1))%Q
    by (eapply Qle_lt_trans; eauto).
  rewrite <- Zlt_Qlt in H0. lia.
Qed.

Lemma Qfloor_above (y : Q) (n : Z) : (inject_Z n <= y)%Q -> n <= Qfloor y.
Proof.
  intros H. apply Qfloor_resp_le in H. now rewrite Qfloor_Z in H.
Qed.

Lemma hundredths_le_1 (n : Z) : n <= 100 -> (inject_Z n / 100 <= 1)%Q.
Proof. intros H. unfold Qle, Qdiv, Qmult, Qinv, inject_Z. cbn. lia. Qed.

Lemma hundredths_neg_le_1 (n : Z) :
  0 <= n -> (- (inject_Z n / 100) <= 1)%Q.
Proof.
  intros H. unfold Qle, Qdiv, Qmult, Qinv, Qopp, inject_Z. cbn. lia.
Qed.

Lemma hundredths_ge_tenth (n : Z) :
  10 <= n -> (1 # 10 <= inject_Z n / 100)%Q.
Proof. intros H. unfold Qle, Qdiv, Qmult, Qinv, inject_Z. cbn. lia. Qed.

Lemma toFixed2_le_1 (x : Q) : (x <= 1)%Q -> (toFixed2 x <= 1)%Q.
Proof.
  intros H. unfold toFixed2. destruct (Qle_bool 0 x) eqn:P.
  - assert (F : Qfloor (x * 100 + (1 # 2)) <= 100)
      by (apply Qfloor_below;
          replace (inject_Z (100 + 1)) with (101 # 1)%Q by reflexivity;
          lra).
    now apply hundredths_le_1.
  - assert (N : ~ (0 <= x)%Q)
      by (intros C; apply Qle_bool_iff in C; congruence).
    assert (F : 0 <= Qfloor (- x * 100 + (1 # 2)))
      by (apply Qfloor_nonneg; lra).
    now apply hundredths_neg_le_1.
Qed.

Lemma toFixed2_ge_tenth (x : Q) :
  (1 # 10 <= x)%Q -> (1 # 10 <= toFixed2 x)%Q.
Proof.
  intros H. unfold toFixed2.
  assert (P : Qle_bool 0 x = true) by (apply Qle_bool_iff; lra).
  rewrite P.
  assert (F : 10 <= Qfloor (x * 100 + (1 # 2)))
    by (apply Qfloor_above;
        replace (inject_Z 10) with (10 # 1)%Q by reflexivity; lra).
  now apply hundredths_ge_tenth.
Qed.

Lemma Math_min_spec (a b : Q) :
  (Math_min a b <= a)%Q /\ (Math_min a b <= b)%Q
  /\ (Math_min a b == a \/ Math_min a b == b)%Q.
Proof.
  unfold Math_min. destruct (Qle_bool a b) eqn:E.
  - apply Qle_bool_iff in E.
    split; [lra|]. split; [lra|]. left. reflexivity.
  - assert (~ (a <= b)%Q)
      by (intros C; apply Qle_bool_iff in C; congruence).
    split; [lra|]. split; [lra|]. right. reflexivity.
Qed.

(** X17.  The total of the AI-backed scorer never exceeds 1, whatever the
    chat completion answered, and it is at least 0.1 whenever the
    answered skill score is not negative: the salary and title factors
    alone contribute 0.05 each.  A negative answered score is not
    clamped. *)
Theorem ai_total_bounds (skillMatch : SkillMatch) (job : Job)
        (preferences : Preferences) :
  (a_total (scoreWith skillMatch job preferences) <= 1)%Q
  /\ ((0 <= sm_score skillMatch)%Q ->
      (1 # 10 <= a_total (scoreWith skillMatch job preferences))%Q).
Proof.
  destruct (total_of_breakdown skillMatch job preferences)
    as [T [Sk [L [Sa [Ti Ty]]]]].
  cbv zeta in *. rewrite T.
  set (sum := (bd_skills _ + bd_location _ + bd_salary _ + bd_title _
               + bd_type _)%Q) in *.
  destruct (Math_min_spec 1 sum) as [M1 [M2 M3]].
  split.
  - now apply toFixed2_le_1.
  - intros Hs. apply toFixed2_ge_tenth.
    assert (1 # 10 <= sum)%Q.
    { subst sum. rewrite Sk. nra. }
    destruct M3 as [M3 | M3]; rewrite M3; lra.
Qed.

Lemma ai_total_bounds_witness :
  (1 # 10
   <= a_total (scoreWith (mkSkillMatch [] (1 # 2)) Examples.aiJob
                         Examples.aiPreferences))%Q.
Proof.
  apply (proj2 (ai_total_bounds (mkSkillMatch [] (1 # 2)) Examples.aiJob
                                Examples.aiPreferences)).
  cbn. discriminate.
Defined.


End AIBounds.

(* ================================================================== *)
(** ** Tracking tokens and UUIDs *)

Section TokenFormats.
Import Tokens.

Lemma hexDigit_lower (n : nat) :
  (n < 16)%nat -> isLowerHex (hexDigit n) = true.
Proof.
  intros H. do 16 (destruct n as [|n]; [reflexivity|]). lia.
Qed.

Lemma times_length (class : ascii -> bool) (n : nat) (s r : string) :
  times class n s = Some r ->
  String.length s = (n + String.length r)%nat.
Proof.
  revert s. induction n as [|n IH]; intros s H; cbn in H.
  - injection H as ->. reflexivity.
  - destruct s as [|c s]; [discriminate|].
    destruct (class c); [|discriminate].
    cbn. now rewrite (IH s H).
Qed.

Lemma times_all (class : ascii -> bool) (n : nat) (s : string) :
  times class n s = Some EmptyString <->
  String.length s = n
  /\ forallb class (list_ascii_of_string s) = true.
Proof.
  revert s. induction n as [|n IH]; intros s; cbn.
  - destruct s; cbn; split.
    + intros _. split; reflexivity.
    + reflexivity.
    + discriminate.
    + intros [H _]. discriminate.
  - destruct s as [|c s]; cbn.
    + split; [discriminate | intros [H _]; discriminate].
    + destruct (class c); cbn.
      * rewrite IH. split; intros [H1 H2]; split; auto.
      * split; [discriminate | intros [_ H]; discriminate].
Qed.

Lemma toHex_lower (bytes : list ascii) :
  String.length (toHex bytes) = (2 * List.length bytes)%nat
  /\ forallb isLowerHex (list_ascii_of_string (toHex bytes)) = true.
Proof.
  induction bytes as [|b bytes [IH1 IH2]]; [split; reflexivity|].
  cbn [toHex String.length list_ascii_of_string forallb List.length].
  pose proof (nat_ascii_bounded b) as B.
  rewrite !hexDigit_lower, IH1, IH2.
  - split; [lia | reflexivity].
  - apply Nat.mod_upper_bound. lia.
  - apply Nat.Div0.div_lt_upper_bound. lia.
Qed.

Lemma valid_token_spec (token : string) :
  isValidTrackingToken token = true
  <-> String.length token = 64%nat
      /\ forallb isLowerHex (list_ascii_of_string token) = true.
Proof.
  rewrite <- times_all. unfold isValidTrackingToken.
  destruct (times isLowerHex 64 token) as [[|c r]|]; split; congruence.
Qed.

(** X22.  A tracking token is valid exactly when it consists of 64 digits
    out of [0-9a-f], and every token generated from thirty-two random
    bytes is valid. *)
Theorem generated_token_is_valid (randomBytes : list ascii) :
  List.length randomBytes = 32%nat ->
  isValidTrackingToken (generateTrackingToken randomBytes) = true
  /\ (forall token,
         isValidTrackingToken token = true
         <-> String.length token = 64%nat
             /\ forallb isLowerHex (list_ascii_of_string token) = true).
Proof.
  intros L. split; [|exact valid_token_spec].
  apply valid_token_spec. unfold generateTrackingToken.
  destruct (toHex_lower randomBytes) as [H1 H2]. split; [lia | exact H2].
Qed.

Lemma generated_token_is_valid_witness :
  isValidTrackingToken (generateTrackingToken (repeat "k"%char 32)) = true.
Proof.
  exact (proj1 (generated_token_is_valid (repeat "k"%char 32) eq_refl)).
Defined.

Lemma andThen_some (o : option string) (k : string -> option string)
      (r : string) :
  andThen o k = Some r -> exists s, o = Some s /\ k s = Some r.
Proof. destruct o as [s|]; [|discriminate]. intros H. now exists s. Qed.

(** X23.  Every string accepted as a UUID has 36 characters, and none of
    them is accepted as a tracking token: a tracking token drawn by
    the database as a UUID does not pass [isValidTrackingToken]. *)
Theorem uuid_is_no_tracking_token (uuid : string) :
  isValidUUID uuid = true ->
  String.length uuid = 36%nat /\ isValidTrackingToken uuid = false.
Proof.
  intros H.
  assert (L : String.length uuid = 36%nat).
  { unfold isValidUUID in H.
    destruct (andThen _ _) as [[|c r]|] eqn:E; try discriminate.
    repeat match goal with
           | E : andThen _ _ = Some _ |- _ =>
               apply andThen_some in E as [? [? E]]
           end.
    unfold one in *.
    repeat match goal with
           | E : times _ _ _ = Some _ |- _ => apply times_length in E
           end.
    cbn [String.length] in *. lia. }
  split; [exact L|].
  destruct (isValidTrackingToken uuid) eqn:T; [|reflexivity].
  apply valid_token_spec in T. lia.
Qed.

Lemma uuid_is_no_tracking_token_witness :
  isValidTrackingToken "123e4567-e89b-42d3-a456-426614174000" = false.
Proof.
  exact (proj2 (uuid_is_no_tracking_token
                  "123e4567-e89b-42d3-a456-426614174000" eq_refl)).
Defined.

End TokenFormats.

(* ================================================================== *)
(** ** [getMatchedJobs] *)

Section MatchedJobs.
Import MatchQueries.

Let before (a b : MatchedJob) : Prop := precedes a b = true.

Lemma precedes_iff (a b : MatchedJob) :
  precedes a b = true
  <-> m_match_score (mj_match b) < m_match_score (mj_match a)
      \/ (m_match_score (mj_match a) = m_match_score (mj_match b)
          /\ mj_created_at b <= mj_created_at a).
Proof.
  unfold precedes.
  rewrite orb_true_iff, andb_true_iff, Z.ltb_lt, Z.eqb_eq, Z.leb_le.
  reflexivity.
Qed.

Lemma precedes_total (a b : MatchedJob) :
  precedes a b = false -> precedes b a = true.
Proof.
  intros H. apply precedes_iff.
  destruct (precedes a b) eqn:E; [discriminate|].
  assert (N : ~ (m_match_score (mj_match b) < m_match_score (mj_match a)
                 \/ (m_match_score (mj_match a)
                     = m_match_score (mj_match b)
                     /\ mj_created_at b <= mj_created_at a)))
    by (rewrite <- precedes_iff; congruence).
  lia.
Qed.

Lemma precedes_trans (a b c : MatchedJob) :
  precedes a b = true -> precedes b c = true -> precedes a c = true.
Proof. rewrite !precedes_iff. lia. Qed.

Lemma In_insert_ordered (a x : MatchedJob) (l : list MatchedJob) :
  In x (insert_ordered a l) <-> x = a \/ In x l.
Proof.
  induction l as [|y l IH]; cbn.
  - intuition congruence.
  - destruct (precedes a y); cbn; [|rewrite IH]; intuition congruence.
Qed.

Lemma In_order_by_matched (x : MatchedJob) (l : list MatchedJob) :
  In x (order_by l) <-> In x l.
Proof.
  induction l as [|y l IH]; cbn; [reflexivity|].
  rewrite In_insert_ordered, IH. intuition congruence.
Qed.

Lemma insert_ordered_length (a : MatchedJob) (l : list MatchedJob) :
  List.length (insert_ordered a l) = S (List.length l).
Proof.
  induction l as [|y l IH]; cbn; [reflexivity|].
  destruct (precedes a y); cbn; [reflexivity | now rewrite IH].
Qed.

Lemma order_by_length (l : list MatchedJob) :
  List.length (order_by l) = List.length l.
Proof.
  induction l as [|x l IH]; [reflexivity|].
  cbn [order_by fold_right]. fold (order_by l).
  now rewrite insert_ordered_length, IH.
Qed.

Lemma insert_ordered_sorted (a : MatchedJob) (l : list MatchedJob) :
  StronglySorted before l -> StronglySorted before (insert_ordered a l).
Proof.
  induction 1 as [|x l Hl IH Hx]; cbn.
  - constructor; constructor.
  - destruct (precedes a x) eqn:E.
    + constructor; [constructor; assumption|].
      constructor; [exact E|].
      rewrite Forall_forall in *. intros y Hy.
      apply (precedes_trans a x y E). now apply Hx.
    + constructor; [exact IH|].
      rewrite Forall_forall in *. intros y Hy.
      apply In_insert_ordered in Hy as [-> | Hy].
      * now apply precedes_total.
      * now apply Hx.
Qed.

Lemma order_by_sorted (l : list MatchedJob) :
  StronglySorted before (order_by l).
Proof.
  induction l as [|a l IH]; cbn; [constructor|].
  now apply insert_ordered_sorted.
Qed.

Lemma firstn_sorted (n : nat) (l : list MatchedJob) :
  StronglySorted before l -> StronglySorted before (firstn n l).
Proof.
  intros H. revert n. induction H as [|x l Hl IH Hx]; intros [|n]; cbn;
    try constructor.
  - apply IH.
  - rewrite Forall_forall in *. intros y Hy. apply Hx.
    rewrite <- (firstn_skipn n l). apply in_or_app. now left.
Qed.

Lemma sorted_nth (l : list MatchedJob) :
  StronglySorted before l ->
  forall i j a b,
    (i < j)%nat -> nth_error l i = Some a -> nth_error l j = Some b ->
    before a b.
Proof.
  induction 1 as [|x l Hl IH Hx]; intros i j a b Hij Ha Hb.
  - destruct i; discriminate.
  - destruct j as [|j]; [lia|]. cbn in Hb.
    destruct i as [|i].
    + cbn in Ha. injection Ha as <-.
      rewrite Forall_forall in Hx. apply Hx.
      eapply nth_error_In; eauto.
    + cbn in Ha. apply (IH i j); auto. lia.
Qed.

Lemma joined_In (created_at : nat -> Z) (uid : nat) (reviewed : bool)
      (d : DB) (r : MatchedJob) :
  In r (joined created_at uid reviewed d)
  <-> In (mj_match r) (job_matches d)
      /\ In (mj_job r) (job_listings d)
      /\ m_user_id (mj_match r) = uid
      /\ m_reviewed (mj_match r) = reviewed
      /\ j_id (mj_job r) = m_job_id (mj_match r)
      /\ mj_created_at r = created_at (m_id (mj_match r)).
Proof.
  unfold joined. rewrite in_flat_map. split.
  - intros [m [Hm Hr]]. apply filter_In in Hm as [Hm Hf].
    apply andb_true_iff in Hf as [Hu Hv].
    apply Nat.eqb_eq in Hu. apply Bool.eqb_prop in Hv.
    apply in_map_iff in Hr as [j [<- Hj]].
    apply filter_In in Hj as [Hj Hid]. apply Nat.eqb_eq in Hid.
    cbn. repeat split; auto.
  - intros [Hm [Hj [Hu [Hv [Hid Hc]]]]].
    exists (mj_match r). split.
    + apply filter_In. split; [exact Hm|].
      apply andb_true_iff. split; [now apply Nat.eqb_eq|].
      rewrite Hv. apply Bool.eqb_reflx.
    + apply in_map_iff. exists (mj_job r). split.
      * destruct r; cbn in *. now rewrite Hc.
      * apply filter_In. split; [exact Hj | now apply Nat.eqb_eq].
Qed.

(** X11.  [getMatchedJobs], when the statement goes through, returns at most
    fifty rows, each the join of a match of the user with the asked
    review flag and its listing, ordered by score from high to low and
    among equal scores from new to old; when fifty or fewer rows
    qualify, all of them are returned. *)
Theorem getMatchedJobs_ordered_page (created_at : nat -> Z) (uid : nat)
        (reviewed : bool) (w : World) (s : State) :
  db_down w (issued s) = false ->
  exists rows s',
    getMatchedJobs created_at uid reviewed w s = (Ok rows, s')
    /\ db s' = db s
    /\ (List.length rows <= 50)%nat
    /\ (forall r, In r rows ->
                  In (mj_match r) (job_matches (db s))
                  /\ In (mj_job r) (job_listings (db s))
                  /\ m_user_id (mj_match r) = uid
                  /\ m_reviewed (mj_match r) = reviewed
                  /\ j_id (mj_job r) = m_job_id (mj_match r))
    /\ (forall i j a b,
           (i < j)%nat ->
           nth_error rows i = Some a -> nth_error rows j = Some b ->
           m_match_score (mj_match b) <= m_match_score (mj_match a)
           /\ (m_match_score (mj_match a) = m_match_score (mj_match b) ->
               mj_created_at b <= mj_created_at a))
    /\ ((List.length (joined created_at uid reviewed (db s)) <= 50)%nat ->
        forall r, In r (joined created_at uid reviewed (db s)) ->
                  In r rows).
Proof.
  intros D. unfold getMatchedJobs, tryCatch.
  rewrite query_up by exact D. cbn [select_matched fst snd].
  do 2 eexists. split; [reflexivity|]. cbn [db].
  split; [reflexivity|]. split; [apply firstn_le_length|].
  split; [|split].
  - intros r Hr. apply In_firstn in Hr.
    apply (proj1 (In_order_by_matched _ _)) in Hr.
    apply (proj1 (joined_In _ _ _ _ _)) in Hr. tauto.
  - intros i j a b Hij Ha Hb.
    pose proof (sorted_nth _ (firstn_sorted 50 _
                                (order_by_sorted
                                   (joined created_at uid reviewed (db s))))
                  i j a b Hij Ha Hb) as H.
    apply precedes_iff in H. lia.
  - intros Hl r Hr. rewrite firstn_all2.
    + now apply In_order_by_matched.
    + now rewrite order_by_length.
Qed.

Lemma getMatchedJobs_ordered_page_witness :
  exists rows s',
    getMatchedJobs (fun _ => 0) 1 false Examples.world Examples.beforeReview
    = (Ok rows, s')
    /\ (List.length rows <= 50)%nat.
Proof.
  destruct (getMatchedJobs_ordered_page (fun _ => 0) 1%nat false
              Examples.world Examples.beforeReview eq_refl)
    as [rows [s' [E [_ [L _]]]]].
  exists rows, s'. split; [exact E | exact L].
Defined.

End MatchedJobs.

Section PendingAfterReview.
Import MatchQueries.

Ltac by_query :=
  match goal with
  | |- context [query ?stmt ?w ?s] =>
      let D := fresh "D" in
      destruct (db_down w (issued s)) eqn:D;
      [rewrite (query_down stmt w s D) | rewrite (query_up stmt w s D)]
  end.

(** What an answer 200 of the guest route means for the tables. *)
Lemma guest_review_200 (w : World) (s s' : State) (token : string)
      (mid : nat) (approved : option bool) (message : string)
      (row : MatchRow) :
  GuestRoute.review token mid approved w s = (Ok (Json200 message row), s')
  ->
  exists u others a,
    approved = Some a
    /\ filter (fun x => String.eqb (u_tracking_token x) token)
              (users (db s)) = u :: others
    /\ job_matches (db s')
       = map (fun m => if Sql.targets mid (u_id u) m
                       then GuestRoute.review_row a
                              (if a then "approved" else "rejected") m
                       else m)
             (job_matches (db s))
    /\ job_listings (db s') = job_listings (db s).
Proof.
  unfold GuestRoute.review, tryCatch.
  destruct approved as [a|]; [|discriminate].
  unfold bind at 1. by_query; [discriminate|].
  cbn [GuestRoute.select_user fst snd].
  destruct (filter _ (users (db s))) as [|u others] eqn:F; [discriminate|].
  unfold bind at 1. by_query; [discriminate|].
  cbn [GuestRoute.update_review fst snd db].
  destruct (map _ (filter _ (job_matches (db s)))) as [|r rows];
    [discriminate|].
  destruct a.
  - unfold bind. by_query; [discriminate|]. unfold ret.
    intros E. injection E as _ _ <-.
    exists u, others, true. cbn. repeat split.
  - unfold bind, ret. intros E. injection E as _ _ <-.
    exists u, others, false. cbn. repeat split.
Qed.

Lemma jobs_review_200 (w : World) (s s' : State) (uid mid : nat)
      (approved : option bool) (message : string) (row : MatchRow) :
  JobsRoute.review uid mid approved w s = (Ok (Json200 message row), s') ->
  exists a,
    approved = Some a
    /\ job_matches (db s')
       = map (fun m => if Sql.targets mid uid m
                       then Sql.review_row a m else m)
             (job_matches (db s))
    /\ job_listings (db s') = job_listings (db s).
Proof.
  unfold JobsRoute.review, tryCatch.
  destruct approved as [a|]; [|discriminate].
  unfold bind at 1, MatchingService.reviewMatch, tryCatch, bind at 1.
  by_query; [discriminate|].
  cbn [Sql.update_review fst snd]. unfold ret at 1.
  destruct (hd_error _) as [r|]; [|discriminate].
  destruct a.
  - unfold bind, JobsRoute.insert_queue, refused, ret. discriminate.
  - unfold bind, ret. intros E. injection E as _ _ <-.
    exists false. cbn. repeat split.
Qed.

Lemma pending_after_update (created_at : nat -> Z) (uid mid : nat)
      (f : MatchRow -> MatchRow) (before after : DB) :
  (forall m, m_reviewed (f m) = true) ->
  job_matches after
  = map (fun m => if Sql.targets mid uid m then f m else m)
        (job_matches before) ->
  job_listings after = job_listings before ->
  (forall r, In r (joined created_at uid false after) ->
             m_id (mj_match r) <> mid
             /\ In r (joined created_at uid false before))
  /\ (forall r, In r (joined created_at uid false before) ->
                m_id (mj_match r) <> mid ->
                In r (joined created_at uid false after)).
Proof.
  intros Hf Hm Hl. split.
  - intros r Hr. apply joined_In in Hr as [H1 [H2 [H3 [H4 [H5 H6]]]]].
    rewrite Hm in H1. apply in_map_iff in H1 as [m [E Hin]].
    destruct (Sql.targets mid uid m) eqn:T.
    + rewrite <- E, Hf in H4. discriminate.
    + rewrite <- E in *. split.
      * unfold Sql.targets in T. rewrite H3, Nat.eqb_refl, andb_true_r in T.
        now apply Nat.eqb_neq.
      * apply joined_In. rewrite <- E. rewrite Hl in H2.
        repeat split; auto.
  - intros r Hr Hne. apply joined_In in Hr as [H1 [H2 [H3 [H4 [H5 H6]]]]].
    apply joined_In. rewrite Hm, Hl. repeat split; auto.
    apply in_map_iff. exists (mj_match r). split; [|exact H1].
    unfold Sql.targets.
    assert (E : (m_id (mj_match r) =? mid)%nat = false)
      by now apply Nat.eqb_neq.
    now rewrite E.
Qed.

(** X12.  Once a review is answered with status 200, on either route, the
    reviewed match is no longer among the reviewer's pending matches,
    whatever the decision was, and the reviewer's other pending
    matches are pending as before. *)
Theorem reviewed_match_leaves_pending (created_at : nat -> Z) (w : World)
        (s s' : State) (mid : nat) (approved : option bool)
        (message : string) (row : MatchRow) :
  (forall token,
      GuestRoute.review token mid approved w s
      = (Ok (Json200 message row), s') ->
      exists u others,
        filter (fun x => String.eqb (u_tracking_token x) token)
               (users (db s)) = u :: others
        /\ (forall r,
               In r (fst (select_matched created_at (u_id u) false (db s')))
               -> m_id (mj_match r) <> mid)
        /\ (forall r,
               In r (joined created_at (u_id u) false (db s')) <->
               In r (joined created_at (u_id u) false (db s))
               /\ m_id (mj_match r) <> mid))
  /\ (forall uid,
         JobsRoute.review uid mid approved w s
         = (Ok (Json200 message row), s') ->
         (forall r,
             In r (fst (select_matched created_at uid false (db s'))) ->
             m_id (mj_match r) <> mid)
         /\ (forall r,
                In r (joined created_at uid false (db s')) <->
                In r (joined created_at uid false (db s))
                /\ m_id (mj_match r) <> mid)).
Proof.
  split.
  - intros token H.
    apply guest_review_200 in H as [u [others [a [_ [F [Hm Hl]]]]]].
    exists u, others. split; [exact F|].
    destruct (pending_after_update created_at (u_id u) mid
                (GuestRoute.review_row a
                   (if a then "approved" else "rejected"))
                (db s) (db s') (fun m => eq_refl) Hm Hl) as [A B].
    split.
    + intros r Hr. cbn [select_matched fst] in Hr.
      apply In_firstn in Hr.
      apply (proj1 (In_order_by_matched _ _)) in Hr. now apply A.
    + intros r. split.
      * intros Hr. destruct (A r Hr). now split.
      * intros [Hr Hne]. now apply B.
  - intros uid H.
    apply jobs_review_200 in H as [a [_ [Hm Hl]]].
    destruct (pending_after_update created_at uid mid (Sql.review_row a)
                (db s) (db s') (fun m => eq_refl) Hm Hl) as [A B].
    split.
    + intros r Hr. cbn [select_matched fst] in Hr.
      apply In_firstn in Hr.
      apply (proj1 (In_order_by_matched _ _)) in Hr. now apply A.
    + intros r. split.
      * intros Hr. destruct (A r Hr). now split.
      * intros [Hr Hne]. now apply B.
Qed.

(** At the rows of the examples: the guest approves the one pending
    match and the pending list is then empty. *)
Lemma reviewed_match_leaves_pending_witness :
  exists row s',
    GuestRoute.review "tok" 5 (Some true) Examples.world
                      Examples.beforeReview
    = (Ok (Json200 "Match approved - application queued" row), s')
    /\ forall r,
        In r (fst (select_matched (fun _ => 0) 1 false (db s'))) ->
        m_id (mj_match r) <> 5%nat.
Proof.
  do 2 eexists. split; [reflexivity|].
  destruct (proj1 (reviewed_match_leaves_pending
                     (fun _ => 0) Examples.world Examples.beforeReview _ 5
                     (Some true) _ _) "tok" eq_refl)
    as [u [others [F [H _]]]].
  injection F as <- _. exact H.
Defined.

End PendingAfterReview.

(* ================================================================== *)
(** ** Profiles written by [processCVAsync] *)

Section Profiles.
Import ProfileStore Sql Matching.

Lemma has_profile_iff (uid : nat) (d : DB) :
  has_profile uid d = true <-> In uid (map p_user_id (user_profiles d)).
Proof.
  unfold has_profile. rewrite existsb_exists, in_map_iff. split.
  - intros [p [Hin E]]. apply Nat.eqb_eq in E. now exists p.
  - intros [p [E Hin]]. exists p. split; [exact Hin | now apply Nat.eqb_eq].
Qed.

Lemma select_absent (uid : nat) (l : list UserProfile) :
  ~ In uid (map p_user_id l) ->
  filter (fun p => (p_user_id p =? uid)%nat) l = [].
Proof.
  induction l as [|p l IH]; cbn; [reflexivity|]. intros H.
  destruct (p_user_id p =? uid)%nat eqn:E.
  - apply Nat.eqb_eq in E. exfalso. apply H. now left.
  - apply IH. intros C. apply H. now right.
Qed.

Lemma select_unique (uid : nat) (l : list UserProfile) :
  NoDup (map p_user_id l) -> In uid (map p_user_id l) ->
  exists p, filter (fun p => (p_user_id p =? uid)%nat) l = [p]
            /\ p_user_id p = uid.
Proof.
  induction l as [|q l IH]; cbn; intros N H; [destruct H|].
  inversion N as [|? ? Hq Hl]; subst.
  destruct (p_user_id q =? uid)%nat eqn:E.
  - apply Nat.eqb_eq in E. exists q. rewrite select_absent; [auto|].
    now rewrite <- E.
  - apply Nat.eqb_neq in E. destruct H as [H | H]; [contradiction|].
    now apply IH.
Qed.

Lemma filter_map_update (uid other : nat) (g : UserProfile -> UserProfile)
      (l : list UserProfile) :
  (forall p, p_user_id (g p) = uid) ->
  filter (fun p => (p_user_id p =? other)%nat)
         (map (fun p => if (p_user_id p =? uid)%nat then g p else p) l)
  = map (fun p => if (p_user_id p =? uid)%nat then g p else p)
        (filter (fun p => (p_user_id p =? other)%nat) l).
Proof.
  intros Hg. induction l as [|p l IH]; cbn; [reflexivity|].
  assert (E : p_user_id (if (p_user_id p =? uid)%nat then g p else p)
              = p_user_id p)
    by (destruct (p_user_id p =? uid)%nat eqn:U;
        [apply Nat.eqb_eq in U; now rewrite Hg | reflexivity]).
  rewrite E. destruct (p_user_id p =? other)%nat; cbn; now rewrite IH.
Qed.

(** X19.  The profile written after a CV was processed can be read back:
    under the uniqueness of [user_id] the user then has exactly one
    profile row, with the skills, titles and remote preference just
    written; the salary floor is the one the user had before, none
    for a new user; the constraint still holds and the profiles of
    other users are as before. *)
Theorem upsert_profile_read_back (d : DB) (uid : nat)
        (skills titles : list string) (remotePreference : string) :
  profiles_unique d ->
  let d' := snd (upsert_profile uid skills titles remotePreference d) in
  profiles_unique d'
  /\ fst (select_profile uid d')
     = [mkProfile uid (JArray skills) (JArray titles)
                  (Some remotePreference)
                  match fst (select_profile uid d) with
                  | old :: _ => p_salary_min old
                  | [] => None
                  end]
  /\ (forall other, other <> uid ->
                    fst (select_profile other d')
                    = fst (select_profile other d))
  /\ job_matches d' = job_matches d
  /\ job_listings d' = job_listings d.
Proof.
  intros U d'. subst d'. unfold upsert_profile.
  destruct (has_profile uid d) eqn:H.
  - apply has_profile_iff in H.
    destruct (select_unique uid (user_profiles d) U H) as [p [F Hp]].
    cbn [snd fst select_profile user_profiles set_user_profiles
             job_matches job_listings].
    split; [|split; [|split; [|split]]]; try reflexivity.
    + unfold profiles_unique. cbn. rewrite map_map.
      erewrite map_ext; [exact U|]. intros q. cbn.
      destruct (p_user_id q =? uid)%nat eqn:E; [|reflexivity].
      apply Nat.eqb_eq in E. now rewrite E.
    + rewrite filter_map_update by reflexivity. rewrite F. cbn.
      rewrite Hp, Nat.eqb_refl. reflexivity.
    + intros other Hne. rewrite filter_map_update by reflexivity.
      rewrite <- (map_id (filter _ (user_profiles d))) at 2.
      apply map_ext_in. intros q Hq. apply filter_In in Hq as [_ Hq].
      apply Nat.eqb_eq in Hq.
      destruct (p_user_id q =? uid)%nat eqn:E; [|reflexivity].
      apply Nat.eqb_eq in E. congruence.
  - assert (N : ~ In uid (map p_user_id (user_profiles d))).
    { intros C. apply has_profile_iff in C. congruence. }
    cbn [snd fst select_profile user_profiles set_user_profiles
             job_matches job_listings].
    split; [|split; [|split; [|split]]]; try reflexivity.
    + unfold profiles_unique. cbn. rewrite map_app. cbn.
      clear H. unfold profiles_unique in U.
      induction (map p_user_id (user_profiles d)) as [|x l IH]; cbn.
      * constructor; [intros [] | constructor].
      * inversion U as [|? ? Hx Hl]; subst. constructor.
        -- rewrite in_app_iff. intros [C | [C | []]]; [contradiction|].
           apply N. now left.
        -- apply IH; [exact Hl|]. intros C. apply N. now right.
    + rewrite filter_app, (select_absent uid _ N). cbn.
      now rewrite Nat.eqb_refl.
    + intros other Hne. rewrite filter_app. cbn.
      assert (E : (uid =? other)%nat = false)
        by (apply Nat.eqb_neq; congruence).
      rewrite E. apply app_nil_r.
Qed.

Lemma upsert_profile_read_back_witness :
  fst (select_profile 2
         (snd (upsert_profile 2 ["go"] ["developer"] "remote"
                              (db Examples.beforeReview))))
  = [mkProfile 2 (JArray ["go"]) (JArray ["developer"]) (Some "remote")
               None].
Proof.
  refine (proj1 (proj2 (upsert_profile_read_back
                          (db Examples.beforeReview) 2 ["go"] ["developer"]
                          "remote" _))).
  unfold profiles_unique. cbn. constructor; [intros [] | constructor].
Defined.

(** X20.  The profile written when the CV could not be processed never
    replaces an existing one; for a new user it is a profile with no
    skills and no salary floor. *)
Theorem insert_basic_profile_outcomes (d : DB) (uid : nat)
        (titles : list string) (remotePreference : string) :
  (In uid (map p_user_id (user_profiles d)) ->
   insert_basic_profile uid titles remotePreference d = (0%nat, d))
  /\ (~ In uid (map p_user_id (user_profiles d)) ->
      fst (select_profile uid
             (snd (insert_basic_profile uid titles remotePreference d)))
      = [mkProfile uid JNull (JArray titles) (Some remotePreference) None]).
Proof.
  unfold insert_basic_profile. split; intros H.
  - apply has_profile_iff in H. now rewrite H.
  - destruct (has_profile uid d) eqn:E;
      [apply has_profile_iff in E; contradiction|].
    cbn. rewrite filter_app, (select_absent uid _ H). cbn.
    now rewrite Nat.eqb_refl.
Qed.

(** X8.  A profile without skills and without a salary floor is never
    matched: the skill factor is 0 and the salary factor 5, so no
    total exceeds 55, and [matchJobsForUser] returns no match and adds
    no row.  This is the case of every profile written when the CV
    could not be processed. *)
Theorem no_skills_no_match (uid : nat) (limit : Z) (w : World) (s : State)
        (profile : UserProfile) (rest : list UserProfile) :
  filter (fun p => (p_user_id p =? uid)%nat) (user_profiles (db s))
  = profile :: rest ->
  jsonItems (p_skills profile) = [] ->
  p_salary_min profile = None \/ p_salary_min profile = Some 0 ->
  (forall titles job,
      total (calculateMatchScore profile [] titles job) <= 55)
  /\ exists s',
      MatchingService.matchJobsForUser uid limit w s = (Ok [], s')
      /\ db s' = db s.
Proof.
  intros F Sk Sal.
  assert (B : forall titles job,
             total (calculateMatchScore profile [] titles job) <= 55).
  { intros titles job. rewrite total_is_capped_sum.
    assert (S5 : matchSalary profile (j_salary_range job) = 5).
    { unfold matchSalary. destruct Sal as [-> | ->]; reflexivity. }
    rewrite S5, matchSkills_empty by now left.
    pose proof (matchTitle_values titles (j_title job)).
    pose proof (matchLocation_values profile job).
    pose proof (matchJobType_values profile (j_job_type job)).
    lia. }
  split; [exact B|].
  destruct (matchJobsForUser_joint
              (fun ms d => ms = [] /\ d = db s) uid limit w s)
    as [ms [s' [E [[-> D] _]]]].
  - intros profile' rest' job ms d F' Hj sc T _. exfalso.
    rewrite F in F'. injection F' as <- <-.
    subst sc. rewrite Sk in T. specialize (B (jsonItems
      (p_desired_job_titles profile)) job). lia.
  - split; reflexivity.
  - exists s'. split; [exact E | exact D].
Qed.

Lemma no_skills_no_match_witness :
  exists s',
    MatchingService.matchJobsForUser 1 10 Examples.world
      (mkState (mkDB [mkUser 1 "tok"]
                     [mkProfile 1 JNull (JArray ["engineer"])
                                (Some "remote") None]
                     [Examples.seniorPython] [] [] [] 100 1000)
               0 0 0 0)
    = (Ok [], s').
Proof.
  destruct (no_skills_no_match 1 10 Examples.world
              (mkState (mkDB [mkUser 1 "tok"]
                             [mkProfile 1 JNull (JArray ["engineer"])
                                        (Some "remote") None]
                             [Examples.seniorPython] [] [] [] 100 1000)
                       0 0 0 0)
              (mkProfile 1 JNull (JArray ["engineer"]) (Some "remote") None)
              [] eq_refl eq_refl (or_introl eq_refl))
    as [_ [s' [E _]]].
  exists s'. exact E.
Defined.

End Profiles.

(* ================================================================== *)
(** ** The AI-backed matching service *)

Section AIWriter.
Import AIMatching AIService.

Lemma a_total_le_1 (skillMatch : SkillMatch) (job : Job)
      (preferences : Preferences) :
  (a_total (scoreWith skillMatch job preferences) <= 1)%Q.
Proof.
  destruct (total_of_breakdown skillMatch job preferences) as [T _].
  cbv zeta in *. rewrite T.
  apply toFixed2_le_1.
  match goal with
  | |- (Math_min 1 ?x <= 1)%Q =>
      destruct (Math_min_spec 1 x) as [M1 _]; exact M1
  end.
Qed.

(** The scorer asks for one chat completion and never throws. *)
Lemma calculateMatchScore_returns (userProfile : string) (job : Job)
      (preferences : Preferences) (w : World) (s : State) :
  exists skillMatch,
    calculateMatchScore userProfile job preferences w s
    = (Ok (scoreWith skillMatch job preferences),
       mkState (db s) (issued s) (S (chats s)) (applies s) (bull_ids s)).
Proof.
  unfold calculateMatchScore, bind, matchSkills.
  destruct (chat w (chats s) _); eexists; reflexivity.
Qed.

Lemma aquery_cases {A} (stmt : Tables -> A * Tables) (w : World)
      (st : Store) :
  (db_down w (issued (base st)) = true
   /\ aquery stmt w st
      = (Throw "database error", mkStore (sent (base st)) (tables st)))
  \/ (db_down w (issued (base st)) = false
      /\ aquery stmt w st
         = (Ok (fst (stmt (tables st))),
            mkStore (sent (base st)) (snd (stmt (tables st))))).
Proof.
  unfold aquery. destruct (db_down w (issued (base st))).
  - left. split; reflexivity.
  - right. split; [reflexivity|]. now destruct (stmt (tables st)).
Qed.

Lemma written_more (userId : nat) (preferences : Preferences)
      (job : Job) (jobs : list Job) (m : MatchRecord) :
  written userId preferences jobs m ->
  written userId preferences (job :: jobs) m.
Proof.
  intros [U [L [H [j [sm [Hin R]]]]]]. repeat split; auto.
  exists j, sm. split; [now right | exact R].
Qed.

Lemma ai_matchLoop_inv (userId : nat) (limit : Z) (userProfile : string)
      (preferences : Preferences) (jobs : list Job)
      (matches : list Summary) (w : World) (st : Store) :
  exists r st' added,
    matchLoop userId limit userProfile preferences jobs matches w st
    = (r, st')
    /\ t_job_matches (tables st')
       = (t_job_matches (tables st) ++ added)%list
    /\ Forall (written userId preferences jobs) added
    /\ frame (tables st) (tables st')
    /\ db (base st') = db (base st)
    /\ match r with
       | Ok ms =>
           Z.of_nat (List.length ms)
           <= Z.max limit (Z.of_nat (List.length matches) + 1)
           /\ (List.length ms
               <= List.length matches + List.length jobs)%nat
           /\ (Forall (fun m => (6 # 10 <= su_matchScore m)%Q) matches ->
               Forall (fun m => (6 # 10 <= su_matchScore m)%Q) ms)
       | Throw _ => True
       end.
Proof.
  revert matches st.
  induction jobs as [|job rest IH]; intros matches st.
  - exists (Ok matches), st, []. cbn [matchLoop]. unfold aret.
    rewrite app_nil_r. repeat split; auto; lia.
  - cbn [matchLoop]. unfold abind at 1, lift.
    destruct (calculateMatchScore_returns userProfile job preferences w
                (base st)) as [sm ->].
    set (score := scoreWith sm job preferences).
    set (st1 := mkStore _ (tables st)).
    destruct (Qle_bool (6 # 10) (a_total score)) eqn:T.
    + unfold abind at 1, abind at 1.
      destruct (aquery_cases
                  (insert_match userId (a_id job) (a_total score)
                                (a_reasons score)) w st1)
        as [[_ ->] | [_ ->]].
      * exists (Throw "database error"), (mkStore (sent (base st1))
                                                  (tables st1)), [].
        cbn. rewrite app_nil_r. repeat split; auto.
      * unfold aret at 1.
        set (st2 := mkStore _ _).
        assert (W : exists new,
                   t_job_matches (tables st2)
                   = (t_job_matches (tables st) ++ new)%list
                   /\ Forall (written userId preferences (job :: rest)) new
                   /\ frame (tables st) (tables st2)).
        { subst st2 st1. cbn [tables snd]. unfold insert_match.
          destruct (existsb _ _).
          - exists []. cbn. rewrite app_nil_r. repeat split; auto.
          - eexists. cbn. split; [reflexivity|].
            split; [|repeat split; auto].
            constructor; [|constructor].
            split; [reflexivity|]. cbn [mr_match_score].
            split; [now apply Qle_bool_iff|].
            split; [apply a_total_le_1|].
            exists job, sm. split; [now left|]. split; reflexivity. }
        destruct W as [new [W1 [W2 [F1 [F2 [F3 F4]]]]]].
        destruct (limit <=? Z.of_nat (List.length (matches ++ [summary job score])))
          eqn:L.
        -- exists (Ok (matches ++ [summary job score])%list), st2, new.
           unfold aret. split; [reflexivity|]. split; [exact W1|].
           split; [exact W2|]. split; [repeat split; auto|].
           split; [reflexivity|].
           rewrite length_app. cbn [List.length].
           split; [lia|]. split; [lia|].
           intros Hm. apply Forall_app. split; [exact Hm|].
           constructor; [|constructor]. cbn. now apply Qle_bool_iff.
        -- destruct (IH (matches ++ [summary job score])%list st2)
             as [r [st' [added [E [A1 [A2 [[G1 [G2 [G3 G4]]] [D R]]]]]]]].
           exists r, st', (new ++ added)%list. split; [exact E|].
           split; [rewrite A1, W1; now rewrite app_assoc|].
           split.
           { apply Forall_app. split; [exact W2|].
             eapply Forall_impl; [|exact A2].
             intros m. apply written_more. }
           split; [repeat split; congruence|].
           split; [rewrite D; reflexivity|].
           destruct r as [ms|e]; [|exact I].
           destruct R as [R1 [R2 R3]].
           rewrite length_app in *. cbn [List.length] in *.
           apply Z.leb_gt in L.
           split; [lia|]. split; [lia|].
           intros Hm. apply R3. apply Forall_app. split; [exact Hm|].
           constructor; [|constructor]. cbn. now apply Qle_bool_iff.
    + unfold abind at 1, aret at 1.
      destruct (limit <=? Z.of_nat (List.length matches)) eqn:L.
      * exists (Ok matches), st1, []. unfold aret.
        split; [reflexivity|]. cbn. rewrite app_nil_r.
        repeat split; auto; lia.
      * destruct (IH matches st1)
          as [r [st' [added [E [A1 [A2 [G [D R]]]]]]]].
        exists r, st', added. split; [exact E|].
        split; [exact A1|].
        split.
        { eapply Forall_impl; [|exact A2].
          intros m. apply written_more. }
        split; [exact G|]. split; [exact D|].
        destruct r as [ms|e]; [|exact I].
        destruct R as [R1 [R2 R3]]. cbn [List.length].
        split; [exact R1|]. split; [lia | exact R3].
Qed.

(** [matchJobsForUser] of the AI-backed service in any world: it only
    appends to [job_matches], every row it appends passed the test
    [>= 0.6] on the scale from 0 to 1, and it returns at most
    [max(limit, 1)] matches. *)
Lemma matchJobsForUser_writes (userId : nat) (limit : Z) (w : World)
      (st : Store) :
  exists r st' added preferences,
    matchJobsForUser userId limit w st = (r, st')
    /\ t_job_matches (tables st')
       = (t_job_matches (tables st) ++ added)%list
    /\ Forall (written userId preferences
                       (map lr_job (t_job_listings (tables st)))) added
    /\ frame (tables st) (tables st')
    /\ db (base st') = db (base st)
    /\ match r with
       | Ok ms =>
           Z.of_nat (List.length ms) <= Z.max limit 1
           /\ (List.length ms <= 100)%nat
           /\ Forall (fun m => (6 # 10 <= su_matchScore m)%Q) ms
       | Throw _ => True
       end.
Proof.
  assert (Stop : forall e st1,
             tables st1 = tables st -> db (base st1) = db (base st) ->
             exists (r : Result (list Summary)) st' added preferences,
               (Throw e, st1) = (r, st')
               /\ t_job_matches (tables st')
                  = (t_job_matches (tables st) ++ added)%list
               /\ Forall (written userId preferences
                            (map lr_job (t_job_listings (tables st))))
                         added
               /\ frame (tables st) (tables st')
               /\ db (base st') = db (base st)
               /\ match r with
                  | Ok ms =>
                      Z.of_nat (List.length ms) <= Z.max limit 1
                      /\ (List.length ms <= 100)%nat
                      /\ Forall (fun m => (6 # 10 <= su_matchScore m)%Q) ms
                  | Throw _ => True
                  end).
  { intros e st1 Ht Hd. exists (Throw e), st1, [], noPreferences.
    rewrite Ht, app_nil_r. repeat split; auto. }
  unfold matchJobsForUser, atry, abind at 1, buildUserProfile, atry,
    abind at 1.
  destruct (aquery_cases (select_user userId) w st) as [[_ ->] | [_ ->]].
  { unfold athrow. now apply Stop. }
  cbn [select_user fst snd].
  destruct (filter _ (t_users (tables st))) as [|user others] eqn:FU.
  { unfold athrow. now apply Stop. }
  unfold abind at 1.
  match goal with
  | |- context [aquery ?stmt w ?st0] =>
      destruct (aquery_cases stmt w st0) as [[_ ->] | [_ ->]]
  end.
  { unfold athrow. now apply Stop. }
  cbn [select_skills fst snd tables base]. unfold aret at 1.
  unfold abind at 1.
  match goal with
  | |- context [aquery ?stmt w ?st0] =>
      destruct (aquery_cases stmt w st0) as [[_ ->] | [_ ->]]
  end.
  { unfold athrow. now apply Stop. }
  cbn [select_user fst snd tables base]. rewrite FU.
  unfold abind at 1.
  match goal with
  | |- context [aquery ?stmt w ?st0] =>
      destruct (aquery_cases stmt w st0) as [[_ ->] | [_ ->]]
  end.
  { unfold athrow. now apply Stop. }
  cbn [fst snd tables base].
  set (jobs := fst (select_recent_jobs userId (tables st))).
  change (snd (select_recent_jobs userId (tables st))) with (tables st).
  set (st3 := mkStore _ (tables st)).
  set (preferences := preferencesOf (ur_preferences user)).
  set (text := profileText user _).
  destruct (ai_matchLoop_inv userId limit text preferences jobs [] w st3)
    as [r [st' [added [E [A1 [A2 [G [D R]]]]]]]].
  assert (Sub : forall job, In job jobs ->
                            In job (map lr_job
                                      (t_job_listings (tables st)))).
  { intros job Hj. subst jobs.
    unfold select_recent_jobs in Hj. cbn [fst] in Hj.
    apply in_map_iff in Hj as [l [<- Hl]]. apply in_map.
    apply In_firstn in Hl.
    assert (Ins : forall x a l0, In x (insert_desc a l0) ->
                                 x = a \/ In x l0).
    { intros x a l0. induction l0 as [|y l0 IHl]; cbn.
      - intros [<- | []]. now left.
      - destruct (lr_scraped_at y <=? lr_scraped_at a).
        + intros [<- | H]; [now left | now right].
        + intros [<- | H]; [right; now left|].
          destruct (IHl H) as [-> | H']; [now left | right; now right]. }
    assert (Fold : forall l0 x, In x (fold_right insert_desc [] l0) ->
                                In x l0).
    { induction l0 as [|a l0 IHl]; cbn; [tauto|].
      intros x Hx. destruct (Ins _ _ _ Hx) as [-> | H]; [now left|].
      right. now apply IHl. }
    apply Fold in Hl. now apply filter_In in Hl as [Hl _]. }
  assert (Len : (List.length jobs <= 100)%nat).
  { subst jobs. unfold select_recent_jobs. cbn [fst].
    rewrite length_map. apply firstn_le_length. }
  rewrite E.
  destruct r as [ms|e].
  - exists (Ok ms), st', added, preferences.
    split; [reflexivity|]. split; [exact A1|].
    split.
    { eapply Forall_impl; [|exact A2].
      intros m [U [L [H [job [sm [Hin Rm]]]]]]. repeat split; auto.
      exists job, sm. split; [now apply Sub | exact Rm]. }
    split; [exact G|]. split; [exact D|].
    destruct R as [R1 [R2 R3]]. cbn [List.length] in *.
    split; [lia|]. split; [lia|]. apply R3. constructor.
  - unfold athrow. exists (Throw e), st', added, preferences.
    split; [reflexivity|]. split; [exact A1|].
    split.
    { eapply Forall_impl; [|exact A2].
      intros m [U [L [H [job [sm [Hin Rm]]]]]]. repeat split; auto.
      exists job, sm. split; [now apply Sub | exact Rm]. }
    split; [exact G|]. split; [exact D|]. exact I.
Qed.

End AIWriter.

(* ================================================================== *)
(** ** The matching loop of the daily job *)

Section Daily.
Import AIMatching AIService DailyScrape.

(** X21.  The loop of the daily job never throws, whatever happens while a
    user is matched: a user whose matching throws is skipped, with the
    rows written for that user before the failure kept.  The count
    returned grows by at most ten per user.  The loop only appends to
    [job_matches], rows of the users at hand whose score passed the
    test [>= 0.6] on the scale from 0 to 1. *)
Theorem matchEach_counts (userIds : list nat) (totalMatches : Z)
        (w : World) (st : Store) :
  exists t st' added,
    matchEach userIds totalMatches w st = (Ok t, st')
    /\ totalMatches <= t
       <= totalMatches + 10 * Z.of_nat (List.length userIds)
    /\ t_job_matches (tables st')
       = (t_job_matches (tables st) ++ added)%list
    /\ Forall (fun m => In (mr_user_id m) userIds
                        /\ (6 # 10 <= mr_match_score m)%Q
                        /\ (mr_match_score m <= 1)%Q) added
    /\ frame (tables st) (tables st')
    /\ (forall u rest e st1,
           userIds = u :: rest ->
           matchJobsForUser u 10 w st = (Throw e, st1) ->
           matchEach userIds totalMatches w st
           = matchEach rest totalMatches w st1).
Proof.
  revert totalMatches st.
  induction userIds as [|u ids IH]; intros t0 st.
  - exists t0, st, []. cbn [matchEach]. unfold aret.
    rewrite app_nil_r. repeat split; auto; try lia. discriminate.
  - cbn [matchEach]. unfold abind at 1, atry, abind at 1.
    destruct (matchJobsForUser_writes u 10 w st)
      as [r [st1 [new [prefs [E [A1 [A2 [[G1 [G2 [G3 G4]]] [_ R]]]]]]]]].
    rewrite E.
    assert (N : Forall (fun m => In (mr_user_id m) (u :: ids)
                                 /\ (6 # 10 <= mr_match_score m)%Q
                                 /\ (mr_match_score m <= 1)%Q) new).
    { eapply Forall_impl; [|exact A2].
      intros m [U [L [H _]]]. split; [left; now symmetry | now split]. }
    destruct r as [ms|e].
    + unfold aret at 1. destruct R as [R1 _].
      destruct (IH (t0 + Z.of_nat (List.length ms)) st1)
        as [t [st' [added [E' [B [A3 [A4 [[H1 [H2 [H3 H4]]] _]]]]]]]].
      exists t, st', (new ++ added)%list.
      split; [exact E'|]. cbn [List.length].
      split; [lia|].
      split; [rewrite A3, A1; now rewrite app_assoc|].
      split.
      { apply Forall_app. split; [exact N|].
        eapply Forall_impl; [|exact A4].
        intros m [U H]. split; [now right | exact H]. }
      split; [repeat split; congruence|].
      intros u' rest e st2 Hl Ht. injection Hl as <- <-.
      rewrite E in Ht. discriminate.
    + unfold aret at 1.
      destruct (IH t0 st1)
        as [t [st' [added [E' [B [A3 [A4 [[H1 [H2 [H3 H4]]] _]]]]]]]].
      exists t, st', (new ++ added)%list.
      split; [exact E'|]. cbn [List.length].
      split; [lia|].
      split; [rewrite A3, A1; now rewrite app_assoc|].
      split.
      { apply Forall_app. split; [exact N|].
        eapply Forall_impl; [|exact A4].
        intros m [U H]. split; [now right | exact H]. }
      split; [repeat split; congruence|].
      intros u' rest e' st2 Hl Ht. injection Hl as <- <-.
      rewrite E in Ht. injection Ht as <- <-.
      unfold abind at 1, atry, abind at 1. rewrite E. reflexivity.
Qed.

End Daily.

(* ================================================================== *)
(** ** The claims that concern both matching services *)

Section BothServices.
Import Sql MatchingService.



(** C7 fails as the specification states it: for the AI-backed scorer
    a chat completion that answers the skill score -1 gives the total
    -0.27, below every bound declared. *)
Lemma C7_counterexample :
  exists score s',
    AIMatching.calculateMatchScore "profile" AIExamples.clerk
                                   AIService.noPreferences
                                   AIExamples.negative Examples.idle
    = (Ok score, s')
    /\ (AIMatching.a_total score == - (27 # 100))%Q
    /\ ~ (0 <= AIMatching.a_total score)%Q.
Proof.
  do 2 eexists. split; [reflexivity|].
  split; [vm_compute; reflexivity|]. vm_compute. intros H. now apply H.
Qed.

(** C7, amended.  The keyword scorer returns an integer total between
    0 and 100, the sum of its five factors capped at 100.  The
    AI-backed scorer, on its scale from 0 to 1, returns a total of at
    most 1, whatever the chat completion answered; the total is not
    clamped from below: it is at least 0.1 when the skill score taken
    from the answer is not negative. *)
Theorem C7_total_within_bounds (w : World) (s : State) :
  (forall profile skills titles job,
      exists sc,
        calculateMatchScore profile skills titles job w s = (Ok sc, s)
        /\ 0 <= total sc <= 100
        /\ total sc
           = Z.min 100
               (Matching.matchSkills skills (Matching.jobText job)
                + Matching.matchTitle titles (j_title job)
                + Matching.matchLocation profile job
                + Matching.matchSalary profile (j_salary_range job)
                + Matching.matchJobType profile (j_job_type job)))
  /\ (forall userProfile job preferences,
         exists skillMatch s',
           AIMatching.matchSkills
             userProfile
             (AIMatching.a_title job ++ " "
                ++ match AIMatching.a_description job with
                   | Some d => d
                   | None => ""
                   end) w s
           = (Ok skillMatch, s')
           /\ AIMatching.calculateMatchScore userProfile job preferences
                                             w s
              = (Ok (AIMatching.scoreWith skillMatch job preferences), s')
           /\ (AIMatching.a_total
                 (AIMatching.scoreWith skillMatch job preferences)
               <= 1)%Q
           /\ ((0 <= AIMatching.sm_score skillMatch)%Q ->
               (1 # 10
                <= AIMatching.a_total
                     (AIMatching.scoreWith skillMatch job preferences))%Q)).
Proof.
  split.
  - intros profile skills titles job. apply keyword_total_bounds.
  - intros userProfile job preferences.
    unfold AIMatching.calculateMatchScore, bind.
    destruct (AIMatching.matchSkills userProfile _ w s)
      as [[skillMatch|e] s'] eqn:E.
    2:{ exfalso. revert E. unfold AIMatching.matchSkills.
        destruct (chat w (chats s) _); discriminate. }
    exists skillMatch, s'. split; [reflexivity|].
    split; [reflexivity|].
    split; [apply a_total_le_1|].
    intros Hs.
    destruct (total_of_breakdown skillMatch job preferences)
      as [T [Sk [L [Sa [Ti Ty]]]]].
    cbv zeta in *. rewrite T.
    set (sum := (AIMatching.bd_skills _ + AIMatching.bd_location _
                 + AIMatching.bd_salary _ + AIMatching.bd_title _
                 + AIMatching.bd_type _)%Q) in *.
    destruct (Math_min_spec 1 sum) as [M1 [M2 M3]].
    apply toFixed2_ge_tenth.
    assert (1 # 10 <= sum)%Q.
    { subst sum. rewrite Sk. nra. }
    destruct M3 as [M3 | M3]; rewrite M3; lra.
Qed.

(** C10 fails as the specification states it: the third statement, the
    insertion for listing 9, fails inside the loop, and the call
    returns the match of listing 7, saved by the fourth statement. *)
Lemma C10_counterexample :
  exists m s',
    matchJobsForUser 1 10 LoopExamples.flaky LoopExamples.twoListings
    = (Ok [m], s')
    /\ s_jobId m = 7%nat
    /\ db_down LoopExamples.flaky 2 = true /\ issued s' = 4%nat
    /\ map m_job_id (job_matches (db s')) = [7%nat].
Proof.
  do 2 eexists. split; [vm_compute; reflexivity|]. repeat split.
Qed.

(** C10, amended.  [matchJobsForUser] never throws.  It returns the
    empty list when the user has no profile row and whenever an error
    leaves its [try] block: when the database cannot be reached for
    the first statement, and when a JSON column of the profile does
    not parse.  An error of the statement that saves one match is
    caught inside the loop: that listing is left out and the loop goes
    on with the next one, so that the list returned consists of the
    matches that were saved. *)
Theorem C10_matchJobsForUser_never_throws (uid : nat) (limit : Z)
        (w : World) (s : State) :
  (exists ms s',
      matchJobsForUser uid limit w s = (Ok ms, s')
      /\ forall m, In m ms ->
                   In (uid, s_jobId m)
                      (map pair_of (job_matches (db s'))))
  /\ (filter (fun p => (p_user_id p =? uid)%nat) (user_profiles (db s)) = []
      -> fst (matchJobsForUser uid limit w s) = Ok [])
  /\ (forall e s',
         matchJobsBody uid limit w s = (Throw e, s') ->
         matchJobsForUser uid limit w s = (Ok [], s'))
  /\ (db_down w (issued s) = true ->
      exists e s', matchJobsBody uid limit w s = (Throw e, s'))
  /\ (forall profile rest,
         db_down w (issued s) = false ->
         filter (fun p => (p_user_id p =? uid)%nat) (user_profiles (db s))
         = profile :: rest ->
         p_skills profile = JMalformed
         \/ p_desired_job_titles profile = JMalformed ->
         exists e s', matchJobsBody uid limit w s = (Throw e, s'))
  /\ (forall profile skills titles job rest matches,
         60 <= total (Matching.calculateMatchScore profile skills titles
                        job) ->
         db_down w (issued s) = true ->
         matchLoop uid limit profile skills titles (job :: rest) matches
                   w s
         = (if limit <=? Z.of_nat (List.length matches) then ret matches
            else matchLoop uid limit profile skills titles rest matches)
             w (mkState (db s) (S (issued s)) (chats s) (applies s)
                        (bull_ids s))).
Proof.
  destruct (matchJobsForUser_catches uid limit w s)
    as [_ [C2 [C3 [C4 C5]]]].
  split; [|split; [exact C2|split; [exact C3|split; [exact C4|split;
                                                     [exact C5|]]]]].
  - destruct (returned_are_stored uid limit w s)
      as [ms [s' [added [E [St _]]]]].
    exists ms, s'. split; [exact E | exact St].
  - intros profile skills titles job rest matches T D.
    cbn [matchLoop].
    unfold bind at 1, calculateMatchScore, ret at 1.
    apply Z.leb_le in T. rewrite T.
    unfold bind at 1, tryCatch, bind at 1.
    rewrite query_down by exact D. unfold ret at 1. reflexivity.
Qed.

End BothServices.
